(** * Sudoku engine (sudoku.py): shallow embedding and verified properties

    The development follows the layout of the source file: a small model of
    the numpy operations the program uses, the [Sudoku] class with its
    [DiagonalSudoku] subclass, the brute-force solver and the puzzle maker.
    Cell values are integers ([Z]) with the bounds of numpy's 64-bit
    integer dtype written out: storing a value outside the range raises
    [OverflowError], and the one addition made on a cell value wraps. *)

From Stdlib Require Import ZArith Lia.
From stdpp Require Import base option list strings.

Local Open Scope Z_scope.

(** ** Exceptions and fallible results *)

Inductive exn : Set :=
| AssertionError
| IndexError
| ValueError
| RecursionError
| OverflowError.

Inductive result (A : Type) : Type :=
| Ok (a : A)
| Raise (e : exn).
Arguments Ok {A} a.
Arguments Raise {A} e.

#[global] Instance result_ret : MRet result := @Ok.
#[global] Instance result_bind : MBind result := λ A B f m,
  match m with
  | Ok a => f a
  | Raise e => Raise e
  end.

(** ** numpy arrays as lists *)

Module np.

(** Index normalisation along an axis of length [n]: negative indices
    count from the end, anything outside [-n, n) is an [IndexError]. *)
Definition index (n : nat) (i : Z) : result nat :=
  if (0 <=? i) && (i <? Z.of_nat n) then Ok (Z.to_nat i)
  else if (- Z.of_nat n <=? i) && (i <? 0) then Ok (Z.to_nat (i + Z.of_nat n))
  else Raise IndexError.

(** [a[i]] *)
Definition getitem {A} (a : list A) (i : Z) : result A :=
  k ← index (length a) i;
  match a !! k with
  | Some x => Ok x
  | None => Raise IndexError
  end.

(** [a[i] = x] *)
Definition setitem {A} (a : list A) (i : Z) (x : A) : result (list A) :=
  k ← index (length a) i;
  Ok (<[k := x]> a).

(** [a[i][j]] *)
Definition getitem2 (a : list (list Z)) (i j : Z) : result Z :=
  r ← getitem a i;
  getitem r j.

(** The range of the dtype of the boards ([int], 64 bits). *)
Definition int64_min : Z := - 2 ^ 63.
Definition int64_max : Z := 2 ^ 63 - 1.

Definition fits_int64 (x : Z) : bool := (int64_min <=? x) && (x <=? int64_max).

(** Addition on values read from an integer array wraps around. *)
Definition wrap_int64 (x : Z) : Z := (x + 2 ^ 63) `mod` 2 ^ 64 - 2 ^ 63.

(** [a[i] = x] on a row of integers: the index is resolved first, then
    the value is converted to the dtype; a Python integer that does not
    fit raises [OverflowError]. *)
Definition setitem_int (a : list Z) (i : Z) (x : Z) : result (list Z) :=
  k ← index (length a) i;
  if fits_int64 x then Ok (<[k := x]> a) else Raise OverflowError.

(** [a[i][j] = x] *)
Definition setitem2 (a : list (list Z)) (i j : Z) (x : Z)
  : result (list (list Z)) :=
  r ← getitem a i;
  r' ← setitem_int r j x;
  setitem a i r'.

(** [a[:, j]] *)
Definition column (a : list (list Z)) (j : Z) : result (list Z) :=
  mapM (λ r, getitem r j) a.

(** Bound of a slice [start:stop] on an axis of length [n]. *)
Definition clamp (n : nat) (i : Z) : nat :=
  if i <? 0 then Z.to_nat (Z.max (i + Z.of_nat n) 0)
  else Z.to_nat (Z.min i (Z.of_nat n)).

(** [a[start:stop]]; slices never raise. *)
Definition slice {A} (a : list A) (start stop : Z) : list A :=
  let lo := clamp (length a) start in
  let hi := clamp (length a) stop in
  take (hi - lo)%nat (drop lo a).

(** [a[r0:r1, c0:c1]] *)
Definition slice2 (a : list (list Z)) (r0 r1 c0 c1 : Z) : list (list Z) :=
  (λ r, slice r c0 c1) <$> slice a r0 r1.

(** [np.count_nonzero(a == v)] on a one-dimensional array *)
Definition count_eq (v : Z) (a : list Z) : nat :=
  count_occ Z.eq_dec a v.

(** [np.count_nonzero(a == v)] on a two-dimensional array *)
Definition count_eq2 (v : Z) (a : list (list Z)) : nat :=
  count_eq v (concat a).

Fixpoint diagonal_from (k : nat) (a : list (list Z)) : list Z :=
  match a with
  | [] => []
  | r :: a' =>
      match r !! k with
      | Some x => x :: diagonal_from (S k) a'
      | None => []
      end
  end.

(** [np.diagonal(a)] *)
Definition diagonal (a : list (list Z)) : list Z := diagonal_from 0 a.

(** [np.flipud(a)] *)
Definition flipud (a : list (list Z)) : list (list Z) := reverse a.

(** [np.zeros((n, m), dtype=int)] *)
Definition zeros (n m : nat) : list (list Z) := replicate n (replicate m 0).

Fixpoint nonzero_row (i j : Z) (r : list Z) : list (Z * Z) :=
  match r with
  | [] => []
  | x :: r' =>
      (if bool_decide (x = 0) then [] else [(i, j)]) ++ nonzero_row i (j + 1) r'
  end.

Fixpoint nonzero_from (i : Z) (a : list (list Z)) : list (Z * Z) :=
  match a with
  | [] => []
  | r :: a' => nonzero_row i 0 r ++ nonzero_from (i + 1) a'
  end.

(** The tuple of index pairs built from [np.nonzero(a)]: the positions of
    the non-zero entries, in row-major order. *)
Definition nonzero (a : list (list Z)) : list (Z * Z) := nonzero_from 0 a.

(** [a.shape == (9, 9)] for a two-dimensional array given by its rows. *)
Definition shape_is_9x9 (a : list (list Z)) : bool :=
  bool_decide (length a = 9%nat) && forallb (λ r, bool_decide (length r = 9%nat)) a.

(** [0 in a] *)
Definition contains_zero (a : list (list Z)) : bool :=
  existsb (existsb (λ x, bool_decide (x = 0))) a.

End np.

(** ** class Sudoku / class DiagonalSudoku *)

(** The dynamic class of a grid object. *)
Inductive sudoku_class : Set := Standard | Diagonal.

Record Sudoku : Type := mkSudoku {
  class_of : sudoku_class;
  board : list (list Z);
  given_numbers_indices : list (Z * Z)
}.

(** [Sudoku.__init__] (inherited unchanged by [DiagonalSudoku]). *)
Definition Sudoku_init (cls : sudoku_class) (b : option (list (list Z)))
  : result Sudoku :=
  match b with
  | None =>
      let z := np.zeros 9 9 in
      Ok (mkSudoku cls z (np.nonzero z))
  | Some a =>
      if np.shape_is_9x9 a then Ok (mkSudoku cls a (np.nonzero a))
      else Raise AssertionError
  end.

Definition is_given (s : Sudoku) (row column : Z) : bool :=
  bool_decide ((row, column) ∈ given_numbers_indices s).

(** [Sudoku._get_region] *)
Definition _get_region (s : Sudoku) (row column : Z) : list (list Z) :=
  let region_row := row - row `mod` 3 in
  let region_column := column - column `mod` 3 in
  np.slice2 (board s) region_row (region_row + 3) region_column (region_column + 3).

(** [Sudoku._is_move_legal] *)
Definition Sudoku_is_move_legal (s : Sudoku) (number row column : Z)
  : result bool :=
  if is_given s row column then Ok false
  else if bool_decide (number = 0) then Ok true
  else if 9 <? number then Ok false
  else
    board_copy ← np.setitem2 (board s) row column number;
    region ← np.setitem2 (_get_region s row column) (row `mod` 3) (column `mod` 3) number;
    brow ← np.getitem board_copy row;
    if (1 <? np.count_eq number brow)%nat then Ok false
    else
      bcol ← np.column board_copy column;
      if (1 <? np.count_eq number bcol)%nat then Ok false
      else if (1 <? np.count_eq2 number region)%nat then Ok false
      else Ok true.

(** [DiagonalSudoku._is_move_legal] *)
Definition DiagonalSudoku_is_move_legal (s : Sudoku) (number row column : Z)
  : result bool :=
  if is_given s row column then Ok false
  else if bool_decide (number = 0) then Ok true
  else if 9 <? number then Ok false
  else
    board_copy ← np.setitem2 (board s) row column number;
    region ← np.setitem2 (_get_region s row column) (row `mod` 3) (column `mod` 3) number;
    brow ← np.getitem board_copy row;
    if (1 <? np.count_eq number brow)%nat then Ok false
    else
      bcol ← np.column board_copy column;
      if (1 <? np.count_eq number bcol)%nat then Ok false
      else if (1 <? np.count_eq2 number region)%nat then Ok false
      else if (1 <? np.count_eq number (np.diagonal board_copy))%nat
      then Ok false
      else if (1 <? np.count_eq number (np.diagonal (np.flipud board_copy)))%nat
      then Ok false
      else Ok true.

(** Method dispatch on the class of the object. *)
Definition _is_move_legal (s : Sudoku) (number row column : Z) : result bool :=
  match class_of s with
  | Standard => Sudoku_is_move_legal s number row column
  | Diagonal => DiagonalSudoku_is_move_legal s number row column
  end.

(** [Sudoku.write]: the returned grid is the object after the call.  When
    the call raises, nothing has been assigned yet. *)
Definition write (s : Sudoku) (number row column : Z) : result (bool * Sudoku) :=
  legal ← _is_move_legal s number row column;
  if legal : bool then
    b' ← np.setitem2 (board s) row column number;
    Ok (true, mkSudoku (class_of s) b' (given_numbers_indices s))
  else Ok (false, s).

(** [Sudoku.is_solved] *)
Definition is_solved (s : Sudoku) : bool := negb (np.contains_zero (board s)).

(** ** class SudokuSolverBruteforce *)

(** How a run of a loop (or of a chain of recursive calls) ended.  The
    grid object is mutated in place, so it outlives an exception: runs
    return the grid as it was left together with their ending. *)
Inductive ending : Set :=
| Finished
| Crashed (e : exn)
| Unfinished.

(** The two values [_next_row_column] is called with: [1] and [-1]. *)
Inductive direction : Set := Forward | Backward.

(** The interpreter's default bound on nested calls; going beyond it raises
    [RecursionError]. *)
Definition recursion_limit : nat := 1000.

Definition neighbour (s : Sudoku) (row column : Z) (d : direction) : Z * Z :=
  match d with
  | Forward =>
      let sudoku_size := Z.of_nat (length (board s)) in
      (row + (column + 1) `div` sudoku_size, (column + 1) `mod` sudoku_size)
  | Backward =>
      if bool_decide (column = 0) then (row - 1, 8) else (row, column - 1)
  end.

(** [SudokuSolverBruteforce._next_row_column]; [depth] is the number of
    nested calls still allowed.  The board has 9 rows in every grid the
    constructor accepts, so [sudoku_size] is never 0. *)
Fixpoint _next_row_column (depth : nat) (s : Sudoku) (row column : Z)
    (d : direction) : result (Z * Z) :=
  match depth with
  | O => Raise RecursionError
  | S depth' =>
      let '(new_row, new_column) := neighbour s row column d in
      if is_given s new_row new_column
      then _next_row_column depth' s new_row new_column d
      else Ok (new_row, new_column)
  end.

(** [SudokuSolverBruteforce._get_start_row_column], the loop from a
    current position. *)
Fixpoint _get_start_loop (fuel : nat) (s : Sudoku) (row column : Z)
  : option (result (Z * Z)) :=
  match fuel with
  | O => None
  | S fuel' =>
      match np.getitem2 (board s) row column with
      | Raise e => Some (Raise e)
      | Ok v =>
          if bool_decide (v = 0) then Some (Ok (row, column))
          else
            match _next_row_column recursion_limit s row column Forward with
            | Raise e => Some (Raise e)
            | Ok (row', column') => _get_start_loop fuel' s row' column'
            end
      end
  end.

Definition _get_start_row_column (fuel : nat) (s : Sudoku)
  : option (result (Z * Z)) :=
  _get_start_loop fuel s 0 0.

(** What one pass through the body of the [while] loop of
    [_solve_iterative] leaves behind: the grid, the cursor and the next
    trial number, or the grid and the exception that ended the pass. *)
Inductive pass : Type :=
| Continue (s : Sudoku) (row column number : Z)
| Abort (s : Sudoku) (e : exn).

Definition move_cursor (s : Sudoku) (row column : Z) (d : direction)
    (k : Z -> Z -> pass) : pass :=
  match _next_row_column recursion_limit s row column d with
  | Raise e => Abort s e
  | Ok (row', column') => k row' column'
  end.

Definition _solve_iterative_body (s : Sudoku) (row column number : Z) : pass :=
  match write s number row column with
  | Raise e => Abort s e
  | Ok (true, s1) =>
      move_cursor s1 row column Forward (λ row' column',
        Continue s1 row' column' 1)
  | Ok (false, _) =>
      if number <? 9 then Continue s row column (number + 1)
      else
        match write s 0 row column with
        | Raise e => Abort s e
        | Ok (_, s2) =>
            move_cursor s2 row column Backward (λ row' column',
              match np.getitem2 (board s2) row' column' with
              | Raise e => Abort s2 e
              | Ok v => Continue s2 row' column' (np.wrap_int64 (v + 1))
              end)
        end
  end.

(** The [while not sudoku.is_solved()] loop of [_solve_iterative]. *)
Fixpoint _solve_iterative_loop (fuel : nat) (s : Sudoku) (row column number : Z)
  : Sudoku * ending :=
  if is_solved s then (s, Finished)
  else
    match fuel with
    | O => (s, Unfinished)
    | S fuel' =>
        match _solve_iterative_body s row column number with
        | Continue s' row' column' number' =>
            _solve_iterative_loop fuel' s' row' column' number'
        | Abort s' e => (s', Crashed e)
        end
    end.

(** [SudokuSolverBruteforce._solve_iterative] *)
Definition _solve_iterative (fuel : nat) (s : Sudoku) (row column : Z)
  : Sudoku * ending :=
  _solve_iterative_loop fuel s row column 1.

(** [SudokuSolverBruteforce.solve] with its default [use_recursion=False];
    [solve_recursively] below is the call with [use_recursion=True]. *)
Definition solve (fuel : nat) (s : Sudoku) : Sudoku * ending :=
  if negb (is_solved s) then
    match _get_start_row_column fuel s with
    | None => (s, Unfinished)
    | Some (Raise e) => (s, Crashed e)
    | Some (Ok (start_row, start_column)) =>
        _solve_iterative fuel s start_row start_column
    end
  else (s, Finished).

(** ** class SudokuMaker *)

(** The process-wide random source, as the values it hands out: the
    permutation [random.shuffle] applies and the successive results of
    [random.randint(0, 8)]. *)
Record random_source : Type := {
  shuffle : list Z -> list Z;
  randint : nat -> Z
}.

(** The [while len(numbers) > 0] loop of [_create_board]; [k] counts the
    calls to [randint] made so far. *)
Fixpoint _create_board_loop (fuel : nat) (rnd : random_source)
    (b : list (list Z)) (numbers : list Z) (k : nat)
  : option (result (list (list Z) * nat)) :=
  match numbers with
  | [] => Some (Ok (b, k))
  | n0 :: rest =>
      match fuel with
      | O => None
      | S fuel' =>
          let row := randint rnd k in
          let column := randint rnd (S k) in
          match np.getitem2 b row column with
          | Raise e => Some (Raise e)
          | Ok v =>
              if bool_decide (v = 0) then
                match np.setitem2 b row column n0 with
                | Raise e => Some (Raise e)
                | Ok b' => _create_board_loop fuel' rnd b' rest (S (S k))
                end
              else _create_board_loop fuel' rnd b numbers (S (S k))
          end
      end
  end.

(** [SudokuMaker._create_board] *)
Definition _create_board (fuel : nat) (rnd : random_source)
  : option (result (list (list Z) * nat)) :=
  let numbers := shuffle rnd (seqZ 1 9) in
  let numbers := take (length numbers - 1) numbers in
  _create_board_loop fuel rnd (np.zeros 9 9) numbers 0.

(** The [while numbers_to_remove != 0] loop of [_remove_numbers]. *)
Fixpoint _remove_numbers_loop (fuel : nat) (rnd : random_source)
    (s : Sudoku) (numbers_to_remove : Z) (k : nat) : Sudoku * nat * ending :=
  if bool_decide (numbers_to_remove = 0) then (s, k, Finished)
  else
    match fuel with
    | O => (s, k, Unfinished)
    | S fuel' =>
        let row := randint rnd k in
        let column := randint rnd (S k) in
        match np.getitem2 (board s) row column with
        | Raise e => (s, k, Crashed e)
        | Ok v =>
            if bool_decide (v = 0)
            then _remove_numbers_loop fuel' rnd s numbers_to_remove (S (S k))
            else
              match write s 0 row column with
              | Raise e => (s, k, Crashed e)
              | Ok (true, s') =>
                  _remove_numbers_loop fuel' rnd s' (numbers_to_remove - 1) (S (S k))
              | Ok (false, _) =>
                  _remove_numbers_loop fuel' rnd s numbers_to_remove (S (S k))
              end
        end
    end.

(** [SudokuMaker._remove_numbers] *)
Definition _remove_numbers (fuel : nat) (rnd : random_source) (s : Sudoku)
    (hints : Z) (k : nat) : Sudoku * nat * ending :=
  _remove_numbers_loop fuel rnd s (81 - hints) k.

(** The outcome of a call that returns a fresh object. *)
Inductive outcome (A : Type) : Type :=
| Returns (a : A)
| Raises (e : exn)
| Diverges.
Arguments Returns {A} a.
Arguments Raises {A} e.
Arguments Diverges {A}.

Definition of_result {A} (r : result A) : outcome A :=
  match r with
  | Ok a => Returns a
  | Raise e => Raises e
  end.

(** The class selected by the [sudoku_type] argument. *)
Definition class_of_type (sudoku_type : string) : result sudoku_class :=
  if bool_decide (sudoku_type = "standard"%string) then Ok Standard
  else if bool_decide (sudoku_type = "diagonal"%string) then Ok Diagonal
  else Raise ValueError.

(** [SudokuMaker.create_random_sudoku]; every loop it runs may take at
    most [fuel] passes. *)
Definition create_random_sudoku (fuel : nat) (rnd : random_source)
    (hints : Z) (sudoku_type : string) : outcome Sudoku :=
  match _create_board fuel rnd with
  | None => Diverges
  | Some (Raise e) => Raises e
  | Some (Ok (b, k)) =>
      match class_of_type sudoku_type with
      | Raise e => Raises e
      | Ok cls =>
          match Sudoku_init cls (Some b) with
          | Raise e => Raises e
          | Ok sudoku =>
              match solve fuel sudoku with
              | (_, Unfinished) => Diverges
              | (_, Crashed e) => Raises e
              | (solved, Finished) =>
                  match _remove_numbers fuel rnd solved hints k with
                  | (_, _, Unfinished) => Diverges
                  | (_, _, Crashed e) => Raises e
                  | (puzzle, _, Finished) =>
                      of_result (Sudoku_init (class_of puzzle) (Some (board puzzle)))
                  end
              end
          end
      end
  end.


(** The bound [solve] sets with [sys.setrecursionlimit(10000)] before it
    starts the recursive strategy. *)
Definition raised_recursion_limit : nat := 10 * 1000.

(** [SudokuSolverBruteforce._solve_recursive]; [depth] is the number of
    nested calls still allowed (the frames of [write] and of its callees
    are not counted). *)
Fixpoint _solve_recursive (depth : nat) (s : Sudoku) (start_number row column : Z)
  : Sudoku * ending :=
  match depth with
  | O => (s, Crashed RecursionError)
  | S depth' =>
      match write s start_number row column with
      | Raise e => (s, Crashed e)
      | Ok (true, s1) =>
          if negb (is_solved s1) then
            match _next_row_column depth' s1 row column Forward with
            | Raise e => (s1, Crashed e)
            | Ok (new_row, new_column) =>
                match np.getitem2 (board s1) new_row new_column with
                | Raise e => (s1, Crashed e)
                | Ok v =>
                    _solve_recursive depth' s1 (np.wrap_int64 (v + 1))
                      new_row new_column
                end
            end
          else (s1, Finished)
      | Ok (false, _) =>
          if start_number <=? 8
          then _solve_recursive depth' s (start_number + 1) row column
          else
            match write s 0 row column with
            | Raise e => (s, Crashed e)
            | Ok (_, s2) =>
                match _next_row_column depth' s2 row column Backward with
                | Raise e => (s2, Crashed e)
                | Ok (new_row, new_column) =>
                    match np.getitem2 (board s2) new_row new_column with
                    | Raise e => (s2, Crashed e)
                    | Ok v =>
                        _solve_recursive depth' s2 (np.wrap_int64 (v + 1))
                          new_row new_column
                    end
                end
            end
      end
  end.

(** [SudokuSolverBruteforce.solve] called with [use_recursion=True]. *)
Definition solve_recursively (fuel : nat) (s : Sudoku) : Sudoku * ending :=
  if negb (is_solved s) then
    match _get_start_row_column fuel s with
    | None => (s, Unfinished)
    | Some (Raise e) => (s, Crashed e)
    | Some (Ok (start_row, start_column)) =>
        _solve_recursive raised_recursion_limit s 1 start_row start_column
    end
  else (s, Finished).

(** * Vocabulary of the properties and sample data *)

(** The positions of the grid. *)
Definition in_grid (row column : Z) : Prop :=
  0 <= row < 9 /\ 0 <= column < 9.

(** Cell [(i, j)] of an array, by natural-number coordinates. *)
Definition cellN (b : list (list Z)) (i j : nat) : Z := nth j (nth i b []) 0.

(** The 9x9 array whose cell [(i, j)] is [f i j]. *)
Definition tab (f : nat -> nat -> Z) : list (list Z) :=
  (λ i, f i <$> seq 0 9) <$> seq 0 9.

(** [f] with cell [(i, j)] replaced by [v]. *)
Definition fupd (f : nat -> nat -> Z) (i j : nat) (v : Z) : nat -> nat -> Z :=
  λ i' j', if (i' =? i)%nat && (j' =? j)%nat then v else f i' j'.

(** The groups of the grid, as lists of positions, and the values a grid
    holds on a list of positions. *)
Definition row_positions (i : nat) : list (nat * nat) := (λ j, (i, j)) <$> seq 0 9.
Definition column_positions (j : nat) : list (nat * nat) := (λ i, (i, j)) <$> seq 0 9.
Definition box_positions (i j : nat) : list (nat * nat) :=
  let i0 := (i - i mod 3)%nat in
  let j0 := (j - j mod 3)%nat in
  concat ((λ di, (λ dj, (i0 + di, j0 + dj))%nat <$> seq 0 3) <$> seq 0 3).
Definition diagonal_positions : list (nat * nat) := (λ i, (i, i)) <$> seq 0 9.
Definition antidiagonal_positions : list (nat * nat) :=
  (λ i, (8 - i, i))%nat <$> seq 0 9.
Definition values (f : nat -> nat -> Z) (ps : list (nat * nat)) : list Z :=
  (λ p, f p.1 p.2) <$> ps.

(** A group on which the value is counted at most once. *)
Definition clean (g : nat -> nat -> Z) (n : Z) (ps : list (nat * nat)) : bool :=
  negb (1 <? np.count_eq n (values g ps))%nat.

(** The board of the grid is 9x9. *)
Definition well_shaped (s : Sudoku) : Prop := np.shape_is_9x9 (board s) = true.

(** The groups a position can belong to. *)
Definition in_row (row : Z) (r c : Z) : bool := r =? row.
Definition in_column (column : Z) (r c : Z) : bool := c =? column.
Definition in_box (row column : Z) (r c : Z) : bool :=
  (r - r `mod` 3 =? row - row `mod` 3) && (c - c `mod` 3 =? column - column `mod` 3).
Definition on_diagonal (r c : Z) : bool := r =? c.
Definition on_antidiagonal (r c : Z) : bool := r + c =? 8.

(** [number] is held by a position of the group other than
    [(row, column)]. *)
Definition occurs_elsewhere (s : Sudoku) (number row column : Z)
    (G : Z -> Z -> bool) : Prop :=
  ∃ r c, in_grid r c /\ G r c = true /\ (r, c) ≠ (row, column)
         /\ np.getitem2 (board s) r c = Ok number.

(** What a position holds once [number] has been put at [(row, column)]. *)
Definition holds_after (s : Sudoku) (number row column : Z) (r c : Z) : Prop :=
  if decide ((r, c) = (row, column)) then True
  else np.getitem2 (board s) r c = Ok number.

(** After the placement, two positions of the group hold [number]. *)
Definition repeated_after (s : Sudoku) (number row column : Z)
    (G : Z -> Z -> bool) : Prop :=
  ∃ r1 c1 r2 c2, in_grid r1 c1 /\ in_grid r2 c2 /\ G r1 c1 = true /\ G r2 c2 = true
    /\ (r1, c1) ≠ (r2, c2)
    /\ holds_after s number row column r1 c1
    /\ holds_after s number row column r2 c2.

(** The 81 grid positions, in row-major order. *)
Definition all_grid : list (Z * Z) :=
  r ← seqZ 0 9; c ← seqZ 0 9; [(r, c)].

(** Membership test on lists of positions. *)
Definition memb (p : nat * nat) (ps : list (nat * nat)) : bool :=
  existsb (λ q, (q.1 =? p.1)%nat && (q.2 =? p.2)%nat) ps.

(** A list of positions that enumerates a group. *)
Definition enumerates (ps : list (nat * nat)) (G : Z -> Z -> bool) : Prop :=
  NoDup ps
  /\ (∀ p, p ∈ ps -> (p.1 < 9)%nat /\ (p.2 < 9)%nat)
  /\ (∀ r c, in_grid r c -> G r c = memb (Z.to_nat r, Z.to_nat c) ps).

(** The same, as a test that can be run. *)
Definition enumeratesb (ps : list (nat * nat)) (G : Z -> Z -> bool) : bool :=
  bool_decide (NoDup ps)
  && forallb (λ p, (p.1 <? 9)%nat && (p.2 <? 9)%nat) ps
  && forallb (λ p, eqb (G p.1 p.2) (memb (Z.to_nat p.1, Z.to_nat p.2) ps)) all_grid.

(** What [_is_move_legal] decides: the position is not given, and the
    number is 0, or it is at most 9, held nowhere else in the row, the
    column and the box, and (for a [DiagonalSudoku]) not counted twice on
    either diagonal of the trial board. *)
Definition legal_condition (s : Sudoku) (number row column : Z) : Prop :=
  ((row, column) ∉ given_numbers_indices s)
  /\ (number = 0
      \/ (number <= 9
          /\ ¬ occurs_elsewhere s number row column (in_row row)
          /\ ¬ occurs_elsewhere s number row column (in_column column)
          /\ ¬ occurs_elsewhere s number row column (in_box row column)
          /\ (class_of s = Diagonal ->
              ¬ repeated_after s number row column on_diagonal
              /\ ¬ repeated_after s number row column on_antidiagonal))).

(** The empty board. *)
Definition empty_board : list (list Z) := np.zeros 9 9.

(** A board whose only entries are two 5s, in opposite corners: no row,
    column or box holds a value twice, the main diagonal does. *)
Definition corners_board : list (list Z) :=
  [[5; 0; 0; 0; 0; 0; 0; 0; 0];
   [0; 0; 0; 0; 0; 0; 0; 0; 0];
   [0; 0; 0; 0; 0; 0; 0; 0; 0];
   [0; 0; 0; 0; 0; 0; 0; 0; 0];
   [0; 0; 0; 0; 0; 0; 0; 0; 0];
   [0; 0; 0; 0; 0; 0; 0; 0; 0];
   [0; 0; 0; 0; 0; 0; 0; 0; 0];
   [0; 0; 0; 0; 0; 0; 0; 0; 0];
   [0; 0; 0; 0; 0; 0; 0; 0; 5]].

Definition empty_sudoku : Sudoku :=
  mkSudoku Standard empty_board (np.nonzero empty_board).
Definition corners_sudoku (cls : sudoku_class) : Sudoku :=
  mkSudoku cls corners_board (np.nonzero corners_board).

(** The legality condition as the specification words it: diagonals
    matter only for a position lying on them, and the number is in 1..9. *)
Definition legal_as_specified (s : Sudoku) (number row column : Z) : Prop :=
  ((row, column) ∉ given_numbers_indices s)
  /\ (number = 0
      \/ (1 <= number <= 9
          /\ ¬ occurs_elsewhere s number row column (in_row row)
          /\ ¬ occurs_elsewhere s number row column (in_column column)
          /\ ¬ occurs_elsewhere s number row column (in_box row column)
          /\ (class_of s = Diagonal ->
              (row = column -> ¬ occurs_elsewhere s number row column on_diagonal)
              /\ (row + column = 8 ->
                  ¬ occurs_elsewhere s number row column on_antidiagonal)))).

(** Two positions of the group hold [number] on the current board. *)
Definition repeated_on (s : Sudoku) (number : Z) (G : Z -> Z -> bool) : Prop :=
  ∃ r1 c1 r2 c2, in_grid r1 c1 /\ in_grid r2 c2 /\ G r1 c1 = true /\ G r2 c2 = true
    /\ (r1, c1) ≠ (r2, c2)
    /\ np.getitem2 (board s) r1 c1 = Ok number
    /\ np.getitem2 (board s) r2 c2 = Ok number.

(** The grid [s'] has the shape, the class and the given positions of [s]
    and holds at every given position what [s] holds there. *)
Definition keeps_given (s s' : Sudoku) : Prop :=
  well_shaped s'
  /\ class_of s' = class_of s
  /\ given_numbers_indices s' = given_numbers_indices s
  /\ ∀ r c, (r, c) ∈ given_numbers_indices s -> in_grid r c ->
            np.getitem2 (board s') r c = np.getitem2 (board s) r c.

(** A sequence of calls to [write], each with its number and position. *)
Fixpoint writes (s : Sudoku) (calls : list (Z * Z * Z)) : result Sudoku :=
  match calls with
  | [] => Ok s
  | (number, row, column) :: calls' =>
      r ← write s number row column;
      writes r.2 calls'
  end.

(** The grid a pass of the solver loop leaves behind. *)
Definition grid_after (p : pass) : Sudoku :=
  match p with
  | Continue s _ _ _ => s
  | Abort s _ => s
  end.

(** Draws of [randint(0, 8)] lie in 0..8. *)
Definition draws_in_range (rnd : random_source) : Prop :=
  ∀ k, 0 <= randint rnd k < 9.

(** A board without solution: no number fits (0,0).  The cell (8,8) is
    given. *)
Definition dead_end_board : list (list Z) :=
  [[0; 1; 2; 3; 4; 5; 6; 7; 8];
   [9; 0; 0; 0; 0; 0; 0; 0; 0];
   [0; 0; 0; 0; 0; 0; 0; 0; 0];
   [0; 0; 0; 0; 0; 0; 0; 0; 0];
   [0; 0; 0; 0; 0; 0; 0; 0; 0];
   [0; 0; 0; 0; 0; 0; 0; 0; 0];
   [0; 0; 0; 0; 0; 0; 0; 0; 0];
   [0; 0; 0; 0; 0; 0; 0; 0; 0];
   [0; 0; 0; 0; 0; 0; 0; 0; 9]].

Definition dead_end_sudoku : Sudoku :=
  mkSudoku Standard dead_end_board (np.nonzero dead_end_board).

(** No non-zero value is held by two positions of the group. *)
Definition once_on (s : Sudoku) (G : Z -> Z -> bool) : Prop :=
  ∀ v, v ≠ 0 -> ¬ repeated_on s v G.

(** The invariant of the data model: every non-zero value at most once in
    every row, column and box and, for a [DiagonalSudoku], on each
    diagonal. *)
Definition region_invariant (s : Sudoku) : Prop :=
  (∀ row, once_on s (in_row row))
  /\ (∀ column, once_on s (in_column column))
  /\ (∀ row column, once_on s (in_box row column))
  /\ (class_of s = Diagonal -> once_on s on_diagonal /\ once_on s on_antidiagonal).

(** A grid whose only entry, 4 at (2,7), was written after construction. *)
Definition one_cell_sudoku : Sudoku :=
  mkSudoku Standard
    [[0; 0; 0; 0; 0; 0; 0; 0; 0];
     [0; 0; 0; 0; 0; 0; 0; 0; 0];
     [0; 0; 0; 0; 0; 0; 0; 4; 0];
     [0; 0; 0; 0; 0; 0; 0; 0; 0];
     [0; 0; 0; 0; 0; 0; 0; 0; 0];
     [0; 0; 0; 0; 0; 0; 0; 0; 0];
     [0; 0; 0; 0; 0; 0; 0; 0; 0];
     [0; 0; 0; 0; 0; 0; 0; 0; 0];
     [0; 0; 0; 0; 0; 0; 0; 0; 0]] [].

(** A board with entries outside 0..9. *)
Definition out_of_range_board : list (list Z) :=
  [[10; 0; 0; 0; 0; 0; 0; 0; 0];
   [0; -3; 0; 0; 0; 0; 0; 0; 0];
   [0; 0; 0; 0; 0; 0; 0; 0; 0];
   [0; 0; 0; 0; 0; 0; 0; 0; 0];
   [0; 0; 0; 0; 0; 0; 0; 0; 0];
   [0; 0; 0; 0; 0; 0; 0; 0; 0];
   [0; 0; 0; 0; 0; 0; 0; 0; 0];
   [0; 0; 0; 0; 0; 0; 0; 0; 0];
   [0; 0; 0; 0; 0; 0; 0; 0; 0]].

(** Given positions are grid positions (they come from [np.nonzero]). *)
Definition given_in_grid (s : Sudoku) : Prop :=
  ∀ r c, (r, c) ∈ given_numbers_indices s -> in_grid r c.

(** The rank of a position in row-major order. *)
Definition rank (row column : Z) : Z := 9 * row + column.

(** [(r', c')] is the nearest position before [(row, column)] in row-major
    order that is not given: every position strictly between the two is
    given. *)
Definition previous_free (s : Sudoku) (row column r' c' : Z) : Prop :=
  0 <= c' < 9
  /\ ((r', c') ∉ given_numbers_indices s)
  /\ -1 <= rank r' c' < rank row column
  /\ ∀ r c, 0 <= c < 9 -> rank r' c' < rank r c < rank row column ->
            (r, c) ∈ given_numbers_indices s.

(** A grid in the middle of a search: 5 and 9 are given in the first row,
    the solver has written 1 at (0,0) and its cursor stands at (0,2). *)
Definition search_sudoku : Sudoku :=
  mkSudoku Standard
    [[1; 5; 0; 0; 0; 0; 0; 0; 9];
     [0; 0; 0; 0; 0; 0; 0; 0; 0];
     [0; 0; 0; 0; 0; 0; 0; 0; 0];
     [0; 0; 0; 0; 0; 0; 0; 0; 0];
     [0; 0; 0; 0; 0; 0; 0; 0; 0];
     [0; 0; 0; 0; 0; 0; 0; 0; 0];
     [0; 0; 0; 0; 0; 0; 0; 0; 0];
     [0; 0; 0; 0; 0; 0; 0; 0; 0];
     [0; 0; 0; 0; 0; 0; 0; 0; 0]] [(0, 1); (0, 8)].

(** The first solution the solver finds when the first row starts with
    1..8, and a puzzle cut out of it. *)
Definition full_board : list (list Z) :=
  [[1; 2; 3; 4; 5; 6; 7; 8; 9];
   [4; 5; 6; 7; 8; 9; 1; 2; 3];
   [7; 8; 9; 1; 2; 3; 4; 5; 6];
   [2; 1; 4; 3; 6; 5; 8; 9; 7];
   [3; 6; 5; 8; 9; 7; 2; 1; 4];
   [8; 9; 7; 2; 1; 4; 3; 6; 5];
   [5; 3; 1; 6; 4; 2; 9; 7; 8];
   [6; 4; 2; 9; 7; 8; 5; 3; 1];
   [9; 7; 8; 5; 3; 1; 6; 4; 2]].

Definition puzzle_board : list (list Z) :=
  [[1; 2; 3; 4; 5; 6; 7; 8; 0];
   [4; 5; 6; 7; 8; 9; 1; 2; 3];
   [7; 8; 9; 1; 2; 3; 4; 5; 6];
   [2; 1; 4; 3; 0; 5; 8; 9; 7];
   [3; 6; 5; 8; 9; 7; 2; 1; 4];
   [8; 9; 7; 2; 1; 4; 3; 6; 5];
   [5; 3; 1; 6; 4; 2; 9; 7; 8];
   [6; 4; 2; 9; 7; 8; 5; 3; 1];
   [9; 7; 8; 5; 3; 1; 6; 0; 0]].

Definition puzzle_sudoku : Sudoku :=
  mkSudoku Standard puzzle_board (np.nonzero puzzle_board).

(** [write] changes neither the class nor the given positions nor the
    shape of the board, wherever it writes. *)
Definition same_frame (s s' : Sudoku) : Prop :=
  class_of s' = class_of s
  /\ given_numbers_indices s' = given_numbers_indices s
  /\ (well_shaped s -> well_shaped s').

(** The exceptions the solver and the removal loop can end with. *)
Definition index_or_recursion (e : exn) : Prop :=
  e = IndexError \/ e = RecursionError.

Fixpoint count_if {A} (P : A -> bool) (l : list A) : nat :=
  match l with
  | [] => 0
  | x :: l' => (if P x then 1 else 0) + count_if P l'
  end.

(** The cell at a grid position is not empty. *)
Definition nonzero_at (b : list (list Z)) (p : Z * Z) : bool :=
  match np.getitem2 b p.1 p.2 with
  | Ok v => negb (bool_decide (v = 0))
  | Raise _ => false
  end.

(** The numbers of non-empty and of empty cells of a board, and the
    number of cells of a grid that are neither empty nor given. *)
Definition count_nonzero (b : list (list Z)) : nat :=
  count_if (nonzero_at b) all_grid.
Definition count_empty (b : list (list Z)) : nat :=
  count_if (λ p, negb (nonzero_at b p)) all_grid.
Definition removable (s : Sudoku) : nat :=
  count_if (λ p, nonzero_at (board s) p && negb (is_given s p.1 p.2)) all_grid.

(** From the [k]-th draw on, every grid position keeps being drawn (as a
    row draw followed by a column draw). *)
Definition fair (rnd : random_source) (k : nat) : Prop :=
  ∀ j0 r c, in_grid r c ->
    ∃ j, (j0 <= j)%nat /\ randint rnd (k + 2 * j) = r
         /\ randint rnd (S (k + 2 * j)) = c.

(** [random.shuffle] permutes its argument. *)
Definition shuffle_permutes (rnd : random_source) : Prop :=
  ∀ l, shuffle rnd l ≡ₚ l.

(** A source that does not shuffle and draws the grid positions in
    row-major order, again and again. *)
Definition cycle_randint (i : nat) : Z :=
  let z := Z.of_nat i in
  if z `mod` 2 =? 0 then (z `div` 18) `mod` 9 else (z `div` 2) `mod` 9.

Definition cycle_source : random_source :=
  {| shuffle := λ l, l; randint := cycle_randint |}.

(** A source that behaves like [cycle_source] during the seeding and
    draws (0,0) ever after. *)
Definition stuck_source : random_source :=
  {| shuffle := λ l, l;
     randint := λ i, if (i <? 16)%nat then cycle_randint i else 0 |}.

Definition seed_board : list (list Z) :=
  [[1; 2; 3; 4; 5; 6; 7; 8; 0];
   [0; 0; 0; 0; 0; 0; 0; 0; 0];
   [0; 0; 0; 0; 0; 0; 0; 0; 0];
   [0; 0; 0; 0; 0; 0; 0; 0; 0];
   [0; 0; 0; 0; 0; 0; 0; 0; 0];
   [0; 0; 0; 0; 0; 0; 0; 0; 0];
   [0; 0; 0; 0; 0; 0; 0; 0; 0];
   [0; 0; 0; 0; 0; 0; 0; 0; 0];
   [0; 0; 0; 0; 0; 0; 0; 0; 0]].

Definition seed_sudoku : Sudoku :=
  mkSudoku Standard seed_board (np.nonzero seed_board).
Definition solved_seed_sudoku : Sudoku :=
  mkSudoku Standard full_board (np.nonzero seed_board).

(** [(r', c')] is the nearest position after [(row, column)] in row-major
    order that is not given: every position strictly between the two is
    given.  Rank 81 is the position (9,0) just past the grid. *)
Definition next_free (s : Sudoku) (row column r' c' : Z) : Prop :=
  0 <= c' < 9
  /\ ((r', c') ∉ given_numbers_indices s)
  /\ rank row column < rank r' c' <= 81
  /\ ∀ r c, 0 <= c < 9 -> rank row column < rank r c < rank r' c' ->
            (r, c) ∈ given_numbers_indices s.

(** The given cells are not empty (they never are in a grid as
    constructed). *)
Definition given_filled (s : Sudoku) : Prop :=
  ∀ r c, (r, c) ∈ given_numbers_indices s -> np.getitem2 (board s) r c ≠ Ok 0.

(** Every cell of the grid holds a value in 0..9. *)
Definition cells_in_range (s : Sudoku) : Prop :=
  ∀ r c v, in_grid r c -> np.getitem2 (board s) r c = Ok v -> 0 <= v <= 9.

(** What a successful [write] at a grid position leaves: the class, the
    given positions, the shape, the number in the target cell and the
    other cells as they were. *)
Definition written (s s' : Sudoku) (number row column : Z) : Prop :=
  well_shaped s'
  /\ class_of s' = class_of s
  /\ given_numbers_indices s' = given_numbers_indices s
  /\ np.getitem2 (board s') row column = Ok number
  /\ ∀ r c, in_grid r c -> (r, c) ≠ (row, column) ->
            np.getitem2 (board s') r c = np.getitem2 (board s) r c.

(** A full valid grid: 9x9, no empty cell, every value in 0..9 and none
    twice in a group. *)
Definition complete (s : Sudoku) : Prop :=
  well_shaped s /\ is_solved s = true /\ region_invariant s /\ cells_in_range s.

(** Every digit 1..9 is held by a position of the group. *)
Definition every_digit_on (s : Sudoku) (G : Z -> Z -> bool) : Prop :=
  ∀ d, 1 <= d <= 9 ->
    ∃ r c, in_grid r c /\ G r c = true /\ np.getitem2 (board s) r c = Ok d.

(** What holds at the head of the solver loop during a search started on
    the grid [s0]: the given cells are those of [s0], the grid satisfies
    its invariant, the trial number is in 1..10 and the cursor is a grid
    position, or (9,0) with trial number 1. *)
Definition search_state (s0 s : Sudoku) (row column number : Z) : Prop :=
  keeps_given s0 s
  /\ given_in_grid s
  /\ region_invariant s
  /\ cells_in_range s
  /\ 1 <= number <= 10
  /\ (in_grid row column \/ ((row, column) = (9, 0) /\ number = 1)).

(** What holds once the cursor has retreated before the first cell: the
    grid has an empty cell and the cursor is (-1,8), or (-1,7) with a
    trial number in 1..9. *)
Definition escaped_state (s : Sudoku) (row column number : Z) : Prop :=
  well_shaped s
  /\ given_in_grid s
  /\ is_solved s = false
  /\ row = -1
  /\ ((column = 8 /\ 1 <= number <= 10
       /\ (number = 10 -> ∃ v, np.getitem2 (board s) 8 7 = Ok v /\ 0 <= v <= 8))
      \/ (column = 7 /\ 1 <= number <= 9)).

(** No non-zero value is held by two cells of the board. *)
Definition distinct_values (b : list (list Z)) : Prop :=
  ∀ r1 c1 r2 c2 v, in_grid r1 c1 -> in_grid r2 c2 ->
    np.getitem2 b r1 c1 = Ok v -> np.getitem2 b r2 c2 = Ok v -> v ≠ 0 ->
    (r1, c1) = (r2, c2).

(** The state of the seeding loop: the cells hold values in 0..9, none of
    the numbers still to place, and no non-zero value twice. *)
Definition seeded (b : list (list Z)) (numbers : list Z) : Prop :=
  np.shape_is_9x9 b = true
  /\ (∀ r c v, in_grid r c -> np.getitem2 b r c = Ok v ->
        0 <= v <= 9 /\ (v ≠ 0 -> v ∉ numbers))
  /\ distinct_values b.

(** Every cell of [s'] holds what it holds in [s], or 0. *)
Definition cleared_from (s s' : Sudoku) : Prop :=
  ∀ r c, in_grid r c ->
    np.getitem2 (board s') r c = np.getitem2 (board s) r c
    \/ np.getitem2 (board s') r c = Ok 0.

(** Every cell after [(row, column)] in row-major order that is not given
    is empty. *)
Definition unwritten_after (s : Sudoku) (row column : Z) : Prop :=
  ∀ r c, in_grid r c -> (r, c) ∉ given_numbers_indices s ->
    rank row column < rank r c -> np.getitem2 (board s) r c = Ok 0.

(** What holds at every call of [_solve_recursive] during a search started
    on the grid [s0], as long as the cursor is in the grid: the state of
    the search, an unsolved grid, the cursor on a cell that is not given
    and nothing written behind the cursor. *)
Definition descent_state (s0 s : Sudoku) (row column number : Z) : Prop :=
  search_state s0 s row column number
  /\ in_grid row column
  /\ is_solved s = false
  /\ ((row, column) ∉ given_numbers_indices s)
  /\ unwritten_after s row column.

(** The given positions are those the constructor records for the board:
    nothing has been written since the grid was built. *)
Definition as_constructed (s : Sudoku) : Prop :=
  given_numbers_indices s = np.nonzero (board s).

(** A solution of the puzzle [s0]: a full valid grid with the given cells
    of [s0]. *)
Definition solution (s0 g : Sudoku) : Prop := complete g /\ keeps_given s0 g.

(** [g] and [s] hold the same values in the cells before [(row, column)]
    in row-major order. *)
Definition agrees_before (g s : Sudoku) (row column : Z) : Prop :=
  ∀ r c, in_grid r c -> rank r c < rank row column ->
    np.getitem2 (board g) r c = np.getitem2 (board s) r c.

(** The value the search stands at in the cell [(r, c)]: the trial number
    at the cursor, what the grid holds elsewhere. *)
Definition trial_bound (s : Sudoku) (row column number : Z) (r c : Z)
    (lower : Z) : Prop :=
  if decide ((r, c) = (row, column)) then lower = number
  else np.getitem2 (board s) r c = Ok lower.

(** The search has skipped no solution: a solution that agrees with the
    grid before a cell that is not given, at or before the cursor, holds
    there at least what the search stands at. *)
Definition nothing_below (s0 s : Sudoku) (row column number : Z) : Prop :=
  ∀ g r c lower vg,
    solution s0 g -> in_grid r c -> (r, c) ∉ given_numbers_indices s ->
    rank r c <= rank row column -> agrees_before g s r c ->
    trial_bound s row column number r c lower ->
    np.getitem2 (board g) r c = Ok vg -> lower <= vg.

(** No cell before [(row, column)] is empty. *)
Definition filled_before (s : Sudoku) (row column : Z) : Prop :=
  ∀ r c, in_grid r c -> rank r c < rank row column ->
    np.getitem2 (board s) r c ≠ Ok 0.

(** The three ways a pass of the solver loop goes at a cursor in the grid:
    the trial is refused and the next number is tried; the last trial is
    refused, the cell is emptied and the cursor retreats; the trial is
    written and the cursor advances. *)
Definition pass_outcome (s s' : Sudoku) (row column number r' c' n' : Z) : Prop :=
  (¬ legal_condition s number row column /\ number < 9
   /\ s' = s /\ (r', c') = (row, column) /\ n' = number + 1)
  \/ (¬ legal_condition s number row column /\ 9 <= number
      /\ written s s' 0 row column
      /\ previous_free s' row column r' c'
      /\ np.getitem2 (board s') r' c' = Ok (n' - 1))
  \/ (legal_condition s number row column
      /\ written s s' number row column
      /\ next_free s' row column r' c' /\ n' = 1).

(** The solution that comes first when the grids are compared cell by cell
    in row-major order. *)
Definition least_solution (s0 s : Sudoku) : Prop :=
  solution s0 s
  /\ ∀ g r c vs vg, solution s0 g -> in_grid r c -> agrees_before g s r c ->
       np.getitem2 (board s) r c = Ok vs -> np.getitem2 (board g) r c = Ok vg ->
       vs <= vg.

(** What holds at the head of the solver loop in a search started on the
    constructed grid [s0]: the search is over with the least solution, or
    it is under way and has skipped no solution, or the cursor has left
    the grid and there is no solution. *)
Definition hunt_state (s0 s : Sudoku) (row column number : Z) : Prop :=
  (is_solved s = true /\ least_solution s0 s)
  \/ (descent_state s0 s row column number
      /\ filled_before s row column
      /\ nothing_below s0 s row column number)
  \/ (escaped_state s row column number /\ ∀ g, ¬ solution s0 g).

(** What a cell holds, 0 outside the board. *)
Definition cell_value (s : Sudoku) (r c : Z) : Z :=
  match np.getitem2 (board s) r c with
  | Ok v => v
  | Raise _ => 0
  end.

(** The weight of a cell in the measure of the search: cells count as the
    digits of a number in base 11, the first cell being the most
    significant. *)
Definition place_value (r c : Z) : Z := 11 ^ (81 - rank r c).

Definition total (f : Z * Z -> Z) (l : list (Z * Z)) : Z :=
  foldr (λ p acc, f p + acc) 0 l.

(** The measure of the search: the values written before the cursor and
    the trial number at the cursor, read as a number in base 11.  Every
    pass of the solver loop increases it. *)
Definition progress_at (s : Sudoku) (row column number : Z) (p : Z * Z) : Z :=
  if rank p.1 p.2 <? rank row column then
    if is_given s p.1 p.2 then 0 else cell_value s p.1 p.2 * place_value p.1 p.2
  else if bool_decide (p = (row, column)) then number * place_value p.1 p.2
  else 0.

Definition progress (s : Sudoku) (row column number : Z) : Z :=
  total (progress_at s row column number) all_grid.

Definition progress_bound : Z :=
  total (λ p, 10 * place_value p.1 p.2) all_grid.

(** A source that draws the cells (0,0) .. (0,6) and then (1,8) during the
    seeding, and every grid position in turn afterwards. *)
Definition unlucky_source : random_source :=
  {| shuffle := λ l, l;
     randint := λ i, if (i <? 14)%nat then cycle_randint i
                     else if (i =? 14)%nat then 1
                     else if (i =? 15)%nat then 8
                     else cycle_randint i |}.

(** The seed that source produces: the first row lacks 8 and 9 in its last
    two cells, whose box already holds 8. *)
Definition unlucky_board : list (list Z) :=
  [[1; 2; 3; 4; 5; 6; 7; 0; 0];
   [0; 0; 0; 0; 0; 0; 0; 0; 8];
   [0; 0; 0; 0; 0; 0; 0; 0; 0];
   [0; 0; 0; 0; 0; 0; 0; 0; 0];
   [0; 0; 0; 0; 0; 0; 0; 0; 0];
   [0; 0; 0; 0; 0; 0; 0; 0; 0];
   [0; 0; 0; 0; 0; 0; 0; 0; 0];
   [0; 0; 0; 0; 0; 0; 0; 0; 0];
   [0; 0; 0; 0; 0; 0; 0; 0; 0]].

Definition unlucky_sudoku : Sudoku :=
  mkSudoku Standard unlucky_board (np.nonzero unlucky_board).

(** The grid with nothing recorded as given. *)
Definition without_given (s : Sudoku) : Sudoku :=
  mkSudoku (class_of s) (board s) [].

(** The board without solution again, with the largest 64-bit integer in
    its last cell. *)
Definition wrapping_board : list (list Z) :=
  [[0; 1; 2; 3; 4; 5; 6; 7; 8];
   [9; 0; 0; 0; 0; 0; 0; 0; 0];
   [0; 0; 0; 0; 0; 0; 0; 0; 0];
   [0; 0; 0; 0; 0; 0; 0; 0; 0];
   [0; 0; 0; 0; 0; 0; 0; 0; 0];
   [0; 0; 0; 0; 0; 0; 0; 0; 0];
   [0; 0; 0; 0; 0; 0; 0; 0; 0];
   [0; 0; 0; 0; 0; 0; 0; 0; 0];
   [0; 0; 0; 0; 0; 0; 0; 0; 2 ^ 63 - 1]].

Definition wrapping_sudoku : Sudoku :=
  mkSudoku Standard wrapping_board (np.nonzero wrapping_board).

(** A call of [create_random_sudoku] whose token selects the class [cls]
    builds a grid of that class and ends: the seeding returns a board [b],
    the constructor of the class makes of it the grid the solver is given,
    and the call returns a puzzle of the class when the seed can be
    completed to a valid grid and raises the solver's [IndexError] when it
    cannot. *)
Definition builds_grid (rnd : random_source) (hints : Z) (sudoku_type : string)
    (cls : sudoku_class) : Prop :=
  ∃ fuel b k,
    let s0 := mkSudoku cls b (np.nonzero b) in
    _create_board fuel rnd = Some (Ok (b, k))
    /\ Sudoku_init cls (Some b) = Ok s0
    /\ (((∃ g, solution s0 g)
         /\ ∃ puzzle, class_of puzzle = cls
              /\ ∀ fuel', (fuel <= fuel')%nat ->
                   create_random_sudoku fuel' rnd hints sudoku_type = Returns puzzle)
        \/ ((∀ g, ¬ solution s0 g)
            /\ ∀ fuel', (fuel <= fuel')%nat ->
                 create_random_sudoku fuel' rnd hints sudoku_type
                 = Raises IndexError)).

(** The grid the maker builds for the token "diagonal" when the random
    source is [cycle_source]. *)
Definition diagonal_seed_sudoku : Sudoku :=
  mkSudoku Diagonal seed_board (np.nonzero seed_board).

(** * Properties *)

(** ** Grids of the right shape, cell by cell *)

Lemma length_9_inv {A} (l : list A) :
  length l = 9%nat ->
  ∃ x0 x1 x2 x3 x4 x5 x6 x7 x8, l = [x0; x1; x2; x3; x4; x5; x6; x7; x8].
Proof.
  intros H.
  do 9 (destruct l as [|? l]; [discriminate H|]).
  destruct l; [|discriminate H].
  repeat eexists.
Qed.

Lemma shape_is_9x9_spec (b : list (list Z)) :
  np.shape_is_9x9 b = true <->
  length b = 9%nat /\ Forall (λ r, length r = 9%nat) b.
Proof.
  unfold np.shape_is_9x9.
  rewrite andb_true_iff, bool_decide_eq_true, forallb_forall, Forall_forall.
  split; intros [H1 H2]; split; auto; intros r Hr.
  - apply list_elem_of_In in Hr. apply H2 in Hr.
    by apply bool_decide_eq_true in Hr.
  - apply bool_decide_eq_true, H2. by apply list_elem_of_In.
Qed.

Lemma shape_tab (b : list (list Z)) :
  np.shape_is_9x9 b = true -> b = tab (cellN b).
Proof.
  intros [Hlen Hrows]%shape_is_9x9_spec.
  destruct (length_9_inv _ Hlen) as (r0&r1&r2&r3&r4&r5&r6&r7&r8&->).
  repeat match goal with
         | H : Forall _ (_ :: _) |- _ => apply Forall_cons in H as [? H]
         end.
  repeat match goal with
         | H : length ?r = 9%nat |- _ =>
             apply length_9_inv in H as (?&?&?&?&?&?&?&?&?&?); subst r
         end.
  reflexivity.
Qed.

Lemma tab_shape f : np.shape_is_9x9 (tab f) = true.
Proof. reflexivity. Qed.

Lemma cellN_tab f i j : (i < 9)%nat -> (j < 9)%nat -> cellN (tab f) i j = f i j.
Proof.
  intros Hi Hj.
  do 9 (destruct i as [|i]; [do 9 (destruct j as [|j]; [reflexivity|]); lia|]).
  lia.
Qed.

Lemma grid_index (x : Z) :
  0 <= x < 9 ->
  x = 0 \/ x = 1 \/ x = 2 \/ x = 3 \/ x = 4 \/ x = 5 \/ x = 6 \/ x = 7 \/ x = 8.
Proof. lia. Qed.

(** Case analysis on the 81 positions of the grid. *)
Ltac grid_cases H :=
  let Hr := fresh in let Hc := fresh in
  destruct H as [Hr Hc];
  apply grid_index in Hr; apply grid_index in Hc;
  repeat (destruct Hr as [Hr|Hr]); repeat (destruct Hc as [Hc|Hc]); subst.

(** ** Values that fit the dtype *)

Lemma fits_int64_spec x :
  np.fits_int64 x = true <-> np.int64_min <= x <= np.int64_max.
Proof. unfold np.fits_int64. rewrite andb_true_iff, !Z.leb_le. tauto. Qed.

Lemma fits_int64_small x : -9 <= x <= 10 -> np.fits_int64 x = true.
Proof.
  intros Hx. apply fits_int64_spec. unfold np.int64_min, np.int64_max. lia.
Qed.

Lemma fits_int64_low x :
  x <= 9 -> np.fits_int64 x = false <-> x < np.int64_min.
Proof.
  intros Hx. unfold np.fits_int64, np.int64_min, np.int64_max in *.
  destruct (Z.leb_spec (- 2 ^ 63) x), (Z.leb_spec x (2 ^ 63 - 1));
    cbn [andb]; split; intros; try congruence; lia.
Qed.

Lemma wrap_int64_fits x :
  np.int64_min <= x <= np.int64_max -> np.wrap_int64 x = x.
Proof.
  unfold np.wrap_int64, np.int64_min, np.int64_max. intros Hx.
  rewrite Z.mod_small; lia.
Qed.

(** One more than what a cell of a valid grid holds. *)
Lemma wrap_int64_cell v : 0 <= v <= 9 -> np.wrap_int64 (v + 1) = v + 1.
Proof.
  intros Hv. apply wrap_int64_fits. unfold np.int64_min, np.int64_max. lia.
Qed.

Lemma wrap_int64_range x : np.int64_min <= np.wrap_int64 x <= np.int64_max.
Proof.
  unfold np.wrap_int64, np.int64_min, np.int64_max.
  pose proof (Z.mod_pos_bound (x + 2 ^ 63) (2 ^ 64) ltac:(lia)). lia.
Qed.

(** A value that fits is stored as it is. *)
Lemma setitem_int_fits a i x :
  np.fits_int64 x = true -> np.setitem_int a i x = np.setitem a i x.
Proof. intros Hx. unfold np.setitem_int, np.setitem. by rewrite Hx. Qed.

Lemma setitem2_fits a i j x :
  np.fits_int64 x = true ->
  np.setitem2 a i j x
  = (r ← np.getitem a i; r' ← np.setitem r j x; np.setitem a i r').
Proof.
  intros Hx. unfold np.setitem2.
  destruct (np.getitem a i) as [r|e]; cbn [mbind result_bind]; [|reflexivity].
  by rewrite (setitem_int_fits r j x Hx).
Qed.

Lemma setitem2_ok_fits a i j x a' :
  np.setitem2 a i j x = Ok a' -> np.fits_int64 x = true.
Proof.
  unfold np.setitem2, np.setitem_int.
  destruct (np.getitem a i) as [r|e]; cbn [mbind result_bind]; [|discriminate].
  destruct (np.index (length r) j); cbn [mbind result_bind]; [|discriminate].
  by destruct (np.fits_int64 x).
Qed.

Section Tabulated.
Variable f : nat -> nat -> Z.
Variables row column : Z.
Hypothesis Hpos : in_grid row column.

Let R := Z.to_nat row.
Let C := Z.to_nat column.

Lemma getitem2_tab : np.getitem2 (tab f) row column = Ok (f R C).
Proof using Hpos. subst R C. grid_cases Hpos; reflexivity. Qed.

Lemma setitem2_tab v :
  np.fits_int64 v = true ->
  np.setitem2 (tab f) row column v = Ok (tab (fupd f R C v)).
Proof using Hpos.
  intros Hv. rewrite (setitem2_fits _ _ _ _ Hv).
  subst R C. grid_cases Hpos; reflexivity.
Qed.

(** A value that does not fit is refused once the indices are resolved. *)
Lemma setitem2_tab_overflow v :
  np.fits_int64 v = false ->
  np.setitem2 (tab f) row column v = Raise OverflowError.
Proof using Hpos.
  intros Hv. unfold np.setitem2, np.setitem_int. rewrite Hv.
  grid_cases Hpos; reflexivity.
Qed.

(** After [number] has been put at the position: the row, the column,
    the box (built by the source from the region of the old board) and
    the two diagonals of the trial board. *)
Variable number : Z.
Hypothesis Hfits : np.fits_int64 number = true.
Let g := fupd f R C number.

Lemma row_tab : np.getitem (tab g) row = Ok (values g (row_positions R)).
Proof using Hpos. subst g R C. grid_cases Hpos; reflexivity. Qed.

Lemma column_tab : np.column (tab g) column = Ok (values g (column_positions C)).
Proof using Hpos. subst g R C. grid_cases Hpos; reflexivity. Qed.

Lemma region_tab cls given :
  ∃ region,
    np.setitem2 (_get_region (mkSudoku cls (tab f) given) row column)
      (row `mod` 3) (column `mod` 3) number = Ok region
    /\ concat region = values g (box_positions R C).
Proof using Hpos Hfits.
  rewrite (setitem2_fits _ _ _ _ Hfits).
  subst g R C. grid_cases Hpos; eexists; split; reflexivity.
Qed.

Lemma diagonal_tab : np.diagonal (tab g) = values g diagonal_positions.
Proof. reflexivity. Qed.

Lemma antidiagonal_tab :
  np.diagonal (np.flipud (tab g)) = values g antidiagonal_positions.
Proof. reflexivity. Qed.

End Tabulated.

(** ** Counting a value on a group after a placement *)

Lemma count_eq_pos (n : Z) (l : list Z) : (0 < np.count_eq n l)%nat <-> n ∈ l.
Proof.
  unfold np.count_eq. rewrite list_elem_of_In, (count_occ_In Z.eq_dec). lia.
Qed.

Lemma count_eq_app n l1 l2 :
  np.count_eq n (l1 ++ l2) = (np.count_eq n l1 + np.count_eq n l2)%nat.
Proof. apply count_occ_app. Qed.

Lemma values_fupd_other f i j v ps :
  (i, j) ∉ ps -> values (fupd f i j v) ps = values f ps.
Proof.
  intros Hnot. unfold values. apply list_fmap_ext.
  intros k [i' j'] Hk. unfold fupd. simpl.
  destruct (Nat.eqb_spec i' i), (Nat.eqb_spec j' j); simpl; try reflexivity.
  subst. exfalso. apply Hnot. eapply list_elem_of_lookup_2, Hk.
Qed.

Lemma fupd_same f i j v : fupd f i j v i j = v.
Proof. unfold fupd. by rewrite !Nat.eqb_refl. Qed.

Lemma values_holds f n ps :
  n ∈ values f ps <-> ∃ p, p ∈ ps /\ f p.1 p.2 = n.
Proof.
  unfold values. rewrite list_elem_of_fmap. split.
  - intros (p & -> & Hp). eauto.
  - intros (p & Hp & <-). eauto.
Qed.

(** When the position lies on the group, the value is counted more than
    once after the placement iff another position of the group holds it. *)
Lemma count_placed f i j n ps :
  NoDup ps -> (i, j) ∈ ps ->
  (1 < np.count_eq n (values (fupd f i j n) ps))%nat <->
  ∃ p, p ∈ ps /\ p ≠ (i, j) /\ f p.1 p.2 = n.
Proof.
  intros Hnd Hin.
  apply list_elem_of_split in Hin as (l1 & l2 & ->).
  apply NoDup_app in Hnd as (Hnd1 & Hdisj & Hnd2).
  apply NoDup_cons in Hnd2 as [Hl2 _].
  assert (Hl1 : (i, j) ∉ l1).
  { intros H. eapply Hdisj; [exact H | left]. }
  unfold values at 1. rewrite fmap_app, fmap_cons. fold (values (fupd f i j n) l1).
  fold (values (fupd f i j n) l2). simpl. rewrite fupd_same.
  rewrite !values_fupd_other by assumption.
  rewrite count_eq_app. unfold np.count_eq at 2. simpl.
  destruct (Z.eq_dec n n) as [_|]; [|congruence].
  fold (np.count_eq n (values f l2)).
  split.
  - intros H.
    assert (H' : (0 < np.count_eq n (values f l1))%nat \/
                 (0 < np.count_eq n (values f l2))%nat) by lia.
    destruct H' as [H'|H']; apply count_eq_pos, values_holds in H'
      as (p & Hp & Hv); exists p; (split; [|split; [intros ->; contradiction|auto]]).
    + apply elem_of_app. by left.
    + apply elem_of_app. right. apply elem_of_cons. by right.
  - intros (p & Hp & Hne & Hv).
    apply elem_of_app in Hp as [Hp|Hp].
    + assert (0 < np.count_eq n (values f l1))%nat; [|lia].
      apply count_eq_pos, values_holds. eauto.
    + apply elem_of_cons in Hp as [Hp|Hp]; [contradiction|].
      assert (0 < np.count_eq n (values f l2))%nat; [|lia].
      apply count_eq_pos, values_holds. eauto.
Qed.

(** Reduce a bind whose first computation is known. *)
Ltac step := cbn [mbind result_bind].

Section LegalityTabulated.
Variable cls : sudoku_class.
Variable f : nat -> nat -> Z.
Variable given : list (Z * Z).
Variables number row column : Z.
Hypothesis Hpos : in_grid row column.
Hypothesis Hlow : np.int64_min <= number.

Let R := Z.to_nat row.
Let C := Z.to_nat column.
Let s := mkSudoku cls (tab f) given.
Let g := fupd f R C number.

Lemma Sudoku_is_move_legal_tab :
  Sudoku_is_move_legal s number row column =
  Ok (negb (is_given s row column) &&
      (bool_decide (number = 0) ||
       (negb (9 <? number) &&
        (clean g number (row_positions R) &&
         (clean g number (column_positions C) &&
          clean g number (box_positions R C)))))).
Proof using Hpos Hlow.
  unfold Sudoku_is_move_legal.
  destruct (is_given s row column); [reflexivity|].
  destruct (bool_decide (number = 0)); [reflexivity|].
  destruct (Z.ltb_spec 9 number) as [Hbig|Hle]; [reflexivity|].
  assert (Hfits : np.fits_int64 number = true).
  { apply fits_int64_spec. unfold np.int64_max. lia. }
  subst s. cbn [board].
  rewrite (setitem2_tab f row column Hpos number Hfits). step.
  destruct (region_tab f row column Hpos number Hfits cls given)
    as (region & -> & Hreg).
  step. rewrite (row_tab f row column Hpos number). step.
  rewrite (column_tab f row column Hpos number). step.
  unfold np.count_eq2. rewrite Hreg. unfold clean. fold R C g.
  destruct (1 <? np.count_eq number (values g (row_positions R)))%nat;
    [reflexivity|].
  destruct (1 <? np.count_eq number (values g (column_positions C)))%nat;
    [reflexivity|].
  destruct (1 <? np.count_eq number (values g (box_positions R C)))%nat;
    reflexivity.
Qed.

Lemma DiagonalSudoku_is_move_legal_tab :
  DiagonalSudoku_is_move_legal s number row column =
  Ok (negb (is_given s row column) &&
      (bool_decide (number = 0) ||
       (negb (9 <? number) &&
        (clean g number (row_positions R) &&
         (clean g number (column_positions C) &&
          (clean g number (box_positions R C) &&
           (clean g number diagonal_positions &&
            clean g number antidiagonal_positions))))))).
Proof using Hpos Hlow.
  unfold DiagonalSudoku_is_move_legal.
  destruct (is_given s row column); [reflexivity|].
  destruct (bool_decide (number = 0)); [reflexivity|].
  destruct (Z.ltb_spec 9 number) as [Hbig|Hle]; [reflexivity|].
  assert (Hfits : np.fits_int64 number = true).
  { apply fits_int64_spec. unfold np.int64_max. lia. }
  subst s. cbn [board].
  rewrite (setitem2_tab f row column Hpos number Hfits). step.
  destruct (region_tab f row column Hpos number Hfits cls given)
    as (region & -> & Hreg).
  step. rewrite (row_tab f row column Hpos number). step.
  rewrite (column_tab f row column Hpos number). step.
  unfold np.count_eq2. rewrite Hreg.
  rewrite (diagonal_tab f row column number).
  rewrite (antidiagonal_tab f row column number).
  unfold clean. fold R C g.
  destruct (1 <? np.count_eq number (values g (row_positions R)))%nat;
    [reflexivity|].
  destruct (1 <? np.count_eq number (values g (column_positions C)))%nat;
    [reflexivity|].
  destruct (1 <? np.count_eq number (values g (box_positions R C)))%nat;
    [reflexivity|].
  destruct (1 <? np.count_eq number (values g diagonal_positions))%nat;
    [reflexivity|].
  destruct (1 <? np.count_eq number (values g antidiagonal_positions))%nat;
    reflexivity.
Qed.

End LegalityTabulated.

(** ** Groups, stated on grid positions *)

Lemma in_all_grid r c : in_grid r c -> In (r, c) all_grid.
Proof. intros H. grid_cases H; vm_compute; tauto. Qed.

Lemma grid_forall (P : Z -> Z -> bool) :
  forallb (λ p, P p.1 p.2) all_grid = true ->
  ∀ r c, in_grid r c -> P r c = true.
Proof.
  intros H r c Hrc. rewrite forallb_forall in H.
  apply (H (r, c)), in_all_grid, Hrc.
Qed.

Lemma memb_spec p ps : memb p ps = true <-> p ∈ ps.
Proof.
  unfold memb. rewrite existsb_exists. split.
  - intros ([a b] & Hin & H). apply andb_true_iff in H as [H1 H2].
    apply Nat.eqb_eq in H1, H2. simpl in *. destruct p; simpl in *; subst.
    by apply list_elem_of_In.
  - intros H. exists p. split; [by apply list_elem_of_In|].
    by rewrite !Nat.eqb_refl.
Qed.

Lemma enumeratesb_spec ps G : enumeratesb ps G = true -> enumerates ps G.
Proof.
  unfold enumeratesb. rewrite !andb_true_iff, bool_decide_eq_true.
  intros [[Hnd Hlt] Hmem]. split; [exact Hnd|]. split.
  - intros p Hp. rewrite forallb_forall in Hlt.
    apply list_elem_of_In, Hlt in Hp. apply andb_true_iff in Hp as [H1 H2].
    apply Nat.ltb_lt in H1, H2. done.
  - intros r c Hrc.
    apply (grid_forall (λ r c, eqb (G r c) (memb (Z.to_nat r, Z.to_nat c) ps)) Hmem)
      in Hrc.
    by apply eqb_prop in Hrc.
Qed.

Section Enumerations.
Variables row column : Z.
Hypothesis Hpos : in_grid row column.
Let R := Z.to_nat row.
Let C := Z.to_nat column.

Lemma row_enumerates : enumerates (row_positions R) (in_row row).
Proof using Hpos.
  subst R C. apply enumeratesb_spec. grid_cases Hpos; vm_compute; reflexivity.
Qed.

Lemma column_enumerates : enumerates (column_positions C) (in_column column).
Proof using Hpos.
  subst R C. apply enumeratesb_spec. grid_cases Hpos; vm_compute; reflexivity.
Qed.

Lemma box_enumerates : enumerates (box_positions R C) (in_box row column).
Proof using Hpos.
  subst R C. apply enumeratesb_spec. grid_cases Hpos; vm_compute; reflexivity.
Qed.

Lemma row_member : (R, C) ∈ row_positions R.
Proof using Hpos.
  subst R C. apply memb_spec. grid_cases Hpos; reflexivity.
Qed.

Lemma column_member : (R, C) ∈ column_positions C.
Proof using Hpos.
  subst R C. apply memb_spec. grid_cases Hpos; reflexivity.
Qed.

Lemma box_member : (R, C) ∈ box_positions R C.
Proof using Hpos.
  subst R C. apply memb_spec. grid_cases Hpos; reflexivity.
Qed.

End Enumerations.

Lemma diagonal_enumerates : enumerates diagonal_positions on_diagonal.
Proof. apply enumeratesb_spec. vm_compute. reflexivity. Qed.

Lemma antidiagonal_enumerates : enumerates antidiagonal_positions on_antidiagonal.
Proof. apply enumeratesb_spec. vm_compute. reflexivity. Qed.

(** A value is counted more than once on a list of distinct positions iff
    two of the positions hold it. *)
Lemma count_repeated g n ps :
  NoDup ps ->
  (1 < np.count_eq n (values g ps))%nat <->
  ∃ p q, p ∈ ps /\ q ∈ ps /\ p ≠ q /\ g p.1 p.2 = n /\ g q.1 q.2 = n.
Proof.
  induction ps as [|a ps IH]; intros Hnd.
  - simpl. split; [lia|]. intros (p & _ & Hp & _). by apply elem_of_nil in Hp.
  - apply NoDup_cons in Hnd as [Ha Hnd]. specialize (IH Hnd).
    unfold values, np.count_eq. rewrite fmap_cons. simpl.
    fold (values g ps). fold (np.count_eq n (values g ps)).
    destruct (Z.eq_dec (g a.1 a.2) n) as [Hv|Hv].
    + split.
      * intros H. assert (H' : (0 < np.count_eq n (values g ps))%nat) by lia.
        apply count_eq_pos, values_holds in H' as (q & Hq & Hgq).
        exists a, q. repeat split; auto.
        -- by left.
        -- by right.
        -- intros ->. contradiction.
      * intros (p & q & Hp & Hq & Hne & Hgp & Hgq).
        assert (0 < np.count_eq n (values g ps))%nat; [|lia].
        apply count_eq_pos, values_holds.
        apply elem_of_cons in Hp as [->|Hp]; [|by eauto].
        apply elem_of_cons in Hq as [->|Hq]; [congruence|by eauto].
    + rewrite IH. split.
      * intros (p & q & Hp & Hq & H). exists p, q.
        split; [by right|]. split; [by right|]. exact H.
      * intros (p & q & Hp & Hq & Hne & Hgp & Hgq).
        apply elem_of_cons in Hp as [->|Hp]; [contradiction|].
        apply elem_of_cons in Hq as [->|Hq]; [contradiction|].
        exists p, q. auto.
Qed.

Section Bridge.
Variable cls : sudoku_class.
Variable f : nat -> nat -> Z.
Variable given : list (Z * Z).
Variables number row column : Z.
Hypothesis Hpos : in_grid row column.
Variable ps : list (nat * nat).
Variable G : Z -> Z -> bool.
Hypothesis Henum : enumerates ps G.

Let R := Z.to_nat row.
Let C := Z.to_nat column.
Let s := mkSudoku cls (tab f) given.
Let g := fupd f R C number.

Lemma to_nat_position r c :
  in_grid r c -> (Z.to_nat r, Z.to_nat c) = (R, C) <-> (r, c) = (row, column).
Proof using Hpos.
  subst R C. destruct Hpos. intros [? ?]. split; intros [= ? ?].
  - f_equal; lia.
  - by subst.
Qed.

Lemma of_nat_in_grid (p : nat * nat) :
  (p.1 < 9)%nat /\ (p.2 < 9)%nat -> in_grid (Z.of_nat p.1) (Z.of_nat p.2).
Proof. unfold in_grid. lia. Qed.

Lemma occurs_elsewhere_tab :
  (∃ p, p ∈ ps /\ p ≠ (R, C) /\ f p.1 p.2 = number) <->
  occurs_elsewhere s number row column G.
Proof using Hpos Henum.
  destruct Henum as (_ & Hlt & Hmem). split.
  - intros ([i j] & Hp & Hne & Hv).
    pose proof (of_nat_in_grid _ (Hlt _ Hp)) as Hin. simpl in Hin.
    exists (Z.of_nat i), (Z.of_nat j). split; [exact Hin|]. split.
    { rewrite (Hmem _ _ Hin), !Nat2Z.id. by apply memb_spec. }
    split.
    { intros Heq. apply (to_nat_position _ _ Hin) in Heq.
      rewrite !Nat2Z.id in Heq. contradiction. }
    subst s. cbn [board]. rewrite (getitem2_tab f _ _ Hin), !Nat2Z.id.
    by rewrite <- Hv.
  - intros (r & c & Hin & HG & Hne & Hv).
    exists (Z.to_nat r, Z.to_nat c). split.
    { apply memb_spec. by rewrite <- (Hmem _ _ Hin). }
    split.
    { intros Heq. by apply (to_nat_position _ _ Hin) in Heq. }
    subst s. cbn [board] in Hv. rewrite (getitem2_tab f _ _ Hin) in Hv.
    by injection Hv.
Qed.

Lemma holds_after_tab r c :
  in_grid r c ->
  g (Z.to_nat r) (Z.to_nat c) = number <-> holds_after s number row column r c.
Proof using Hpos.
  intros Hin. unfold holds_after.
  destruct (decide ((r, c) = (row, column))) as [Heq|Hne].
  - injection Heq as -> ->. subst g R C. by rewrite fupd_same.
  - subst s g. cbn [board]. rewrite (getitem2_tab f _ _ Hin).
    unfold fupd.
    destruct (Nat.eqb_spec (Z.to_nat r) R), (Nat.eqb_spec (Z.to_nat c) C);
      simpl; try (split; [intros ->; reflexivity | intros [= ->]; reflexivity]).
    exfalso. apply Hne, (to_nat_position _ _ Hin). congruence.
Qed.

Lemma repeated_after_tab :
  (1 < np.count_eq number (values g ps))%nat <->
  repeated_after s number row column G.
Proof using Hpos Henum.
  destruct Henum as (Hnd & Hlt & Hmem).
  rewrite (count_repeated g number ps Hnd). split.
  - intros ([i1 j1] & [i2 j2] & Hp & Hq & Hne & Hgp & Hgq).
    pose proof (of_nat_in_grid _ (Hlt _ Hp)) as Hin1.
    pose proof (of_nat_in_grid _ (Hlt _ Hq)) as Hin2. simpl in *.
    exists (Z.of_nat i1), (Z.of_nat j1), (Z.of_nat i2), (Z.of_nat j2).
    split; [exact Hin1|]. split; [exact Hin2|].
    split. { rewrite (Hmem _ _ Hin1), !Nat2Z.id. by apply memb_spec. }
    split. { rewrite (Hmem _ _ Hin2), !Nat2Z.id. by apply memb_spec. }
    split. { intros [= H1 H2]. apply Hne. f_equal; lia. }
    split; apply holds_after_tab; auto; by rewrite !Nat2Z.id.
  - intros (r1 & c1 & r2 & c2 & Hin1 & Hin2 & HG1 & HG2 & Hne & H1 & H2).
    exists (Z.to_nat r1, Z.to_nat c1), (Z.to_nat r2, Z.to_nat c2).
    split. { apply memb_spec. by rewrite <- (Hmem _ _ Hin1). }
    split. { apply memb_spec. by rewrite <- (Hmem _ _ Hin2). }
    split.
    { intros [= E1 E2]. apply Hne. destruct Hin1, Hin2. f_equal; lia. }
    split; simpl; by apply holds_after_tab.
Qed.

Lemma clean_repeated :
  clean g number ps = true <-> ¬ repeated_after s number row column G.
Proof using Hpos Henum.
  unfold clean. rewrite <- repeated_after_tab, negb_true_iff, Nat.ltb_ge. lia.
Qed.

Lemma clean_elsewhere :
  (R, C) ∈ ps ->
  clean g number ps = true <-> ¬ occurs_elsewhere s number row column G.
Proof using Hpos Henum.
  intros Hin. unfold clean.
  rewrite <- occurs_elsewhere_tab.
  destruct Henum as (Hnd & _).
  rewrite <- (count_placed f R C number ps Hnd Hin).
  rewrite negb_true_iff, Nat.ltb_ge. subst g. lia.
Qed.

End Bridge.

(** ** The legality check, group by group *)

Lemma Ok_true_iff (x : bool) : Ok x = Ok true <-> x = true.
Proof. split; [by intros [= ->] | by intros ->]. Qed.

Lemma well_shaped_tab s :
  well_shaped s -> ∃ f, s = mkSudoku (class_of s) (tab f) (given_numbers_indices s).
Proof.
  intros H. exists (cellN (board s)). destruct s as [cls b given].
  simpl. f_equal. by apply shape_tab.
Qed.

Lemma is_move_legal_total s number row column :
  well_shaped s -> in_grid row column -> np.int64_min <= number ->
  ∃ legal, _is_move_legal s number row column = Ok legal.
Proof.
  intros Hs Hpos Hlow. apply well_shaped_tab in Hs as (f & ->).
  generalize (class_of s) (given_numbers_indices s). clear s. intros cls given.
  unfold _is_move_legal. cbn [class_of]. destruct cls.
  - rewrite (Sudoku_is_move_legal_tab _ f _ number row column Hpos Hlow). eauto.
  - rewrite (DiagonalSudoku_is_move_legal_tab _ f _ number row column Hpos Hlow).
    eauto.
Qed.

(** A number below the range of the dtype, at a grid position that is not
    given: the trial assignment on the copy of the board raises. *)
Lemma is_move_legal_overflow s number row column :
  well_shaped s -> in_grid row column ->
  (row, column) ∉ given_numbers_indices s -> number < np.int64_min ->
  _is_move_legal s number row column = Raise OverflowError.
Proof.
  intros Hs Hpos Hfree Hlow. apply well_shaped_tab in Hs as (f & ->).
  assert (Hfits : np.fits_int64 number = false).
  { apply fits_int64_low; unfold np.int64_min in *; lia. }
  unfold _is_move_legal, Sudoku_is_move_legal, DiagonalSudoku_is_move_legal.
  unfold is_given. rewrite (bool_decide_eq_false_2 _ Hfree).
  rewrite bool_decide_eq_false_2 by (unfold np.int64_min in Hlow; lia).
  destruct (Z.ltb_spec 9 number); [unfold np.int64_min in Hlow; lia|].
  cbn [board class_of].
  rewrite (setitem2_tab_overflow f row column Hpos number Hfits).
  by destruct (class_of s).
Qed.

Lemma is_move_legal_iff s number row column :
  well_shaped s -> in_grid row column -> np.int64_min <= number ->
  _is_move_legal s number row column = Ok true <->
  legal_condition s number row column.
Proof.
  intros Hs Hpos Hlow. apply well_shaped_tab in Hs as (f & ->).
  generalize (class_of s) (given_numbers_indices s). clear s. intros cls given.
  unfold legal_condition, _is_move_legal. cbn [class_of given_numbers_indices].
  pose proof (row_enumerates row column Hpos) as Erow.
  pose proof (column_enumerates row column Hpos) as Ecol.
  pose proof (box_enumerates row column Hpos) as Ebox.
  pose proof (row_member row column Hpos) as Mrow.
  pose proof (column_member row column Hpos) as Mcol.
  pose proof (box_member row column Hpos) as Mbox.
  rewrite <- (clean_elsewhere cls f given number row column Hpos _ _ Erow Mrow).
  rewrite <- (clean_elsewhere cls f given number row column Hpos _ _ Ecol Mcol).
  rewrite <- (clean_elsewhere cls f given number row column Hpos _ _ Ebox Mbox).
  rewrite <- (clean_repeated cls f given number row column Hpos _ _ diagonal_enumerates).
  rewrite <- (clean_repeated cls f given number row column Hpos _ _ antidiagonal_enumerates).
  destruct cls.
  - rewrite (Sudoku_is_move_legal_tab _ f _ number row column Hpos Hlow).
    rewrite Ok_true_iff, andb_true_iff, orb_true_iff, !andb_true_iff.
    rewrite !negb_true_iff, bool_decide_eq_true, Z.ltb_ge.
    unfold is_given. cbn [given_numbers_indices]. rewrite bool_decide_eq_false.
    intuition congruence.
  - rewrite (DiagonalSudoku_is_move_legal_tab _ f _ number row column Hpos Hlow).
    rewrite Ok_true_iff, andb_true_iff, orb_true_iff, !andb_true_iff.
    rewrite !negb_true_iff, bool_decide_eq_true, Z.ltb_ge.
    unfold is_given. cbn [given_numbers_indices]. rewrite bool_decide_eq_false.
    intuition congruence.
Qed.

(** ** Sample grids *)

Lemma empty_sudoku_constructed : Sudoku_init Standard None = Ok empty_sudoku.
Proof. reflexivity. Qed.

Lemma corners_sudoku_constructed cls :
  Sudoku_init cls (Some corners_board) = Ok (corners_sudoku cls).
Proof. reflexivity. Qed.

(** ** C3: the legality check *)

Lemma occurs_elsewhere_board s s' number row column G :
  board s = board s' ->
  occurs_elsewhere s number row column G -> occurs_elsewhere s' number row column G.
Proof. unfold occurs_elsewhere. by intros ->. Qed.

(** C3, as stated, fails twice.  On the empty standard grid the negative
    number -1 is accepted at (0,0).  On a diagonal grid whose main diagonal
    already holds 5 twice, 5 is rejected at (5,1), a position on neither
    diagonal whose row, column and box are free of 5. *)
Lemma is_move_legal_not_as_specified :
  (_is_move_legal empty_sudoku (-1) 0 0 = Ok true
   /\ ¬ legal_as_specified empty_sudoku (-1) 0 0)
  /\ (_is_move_legal (corners_sudoku Diagonal) 5 5 1 = Ok false
      /\ legal_as_specified (corners_sudoku Diagonal) 5 5 1).
Proof.
  split; split.
  - reflexivity.
  - intros (_ & [H | (H & _)]); lia.
  - reflexivity.
  - assert (Hstd : legal_condition (corners_sudoku Standard) 5 5 1).
    { apply is_move_legal_iff;
        [reflexivity | unfold in_grid; lia | unfold np.int64_min; lia
        | reflexivity]. }
    destruct Hstd as (Hg & [H0 | (_ & Hrow & Hcol & Hbox & _)]); [lia|].
    split; [exact Hg|]. right. split; [lia|].
    repeat split; try assumption; intros; lia.
Qed.

(** C3 (amended): on a 9x9 grid, at a grid position and for a number that
    is not negative, [_is_move_legal] returns a boolean, and it returns
    True iff the position is not given and the number is 0, or it lies in
    1..9, is held nowhere else in the row, the column and the box of the
    position and, for a [DiagonalSudoku], is not counted twice on either
    diagonal of the board with the number placed.  In particular every
    number above 9 is illegal. *)
Theorem is_move_legal_spec s number row column :
  well_shaped s -> in_grid row column -> 0 <= number ->
  (∃ legal, _is_move_legal s number row column = Ok legal)
  /\ (_is_move_legal s number row column = Ok true <->
      ((row, column) ∉ given_numbers_indices s)
      /\ (number = 0
          \/ (1 <= number <= 9
              /\ ¬ occurs_elsewhere s number row column (in_row row)
              /\ ¬ occurs_elsewhere s number row column (in_column column)
              /\ ¬ occurs_elsewhere s number row column (in_box row column)
              /\ (class_of s = Diagonal ->
                  ¬ repeated_after s number row column on_diagonal
                  /\ ¬ repeated_after s number row column on_antidiagonal))))
  /\ (9 < number -> _is_move_legal s number row column = Ok false).
Proof.
  intros Hs Hpos Hn.
  assert (Hlow : np.int64_min <= number) by (unfold np.int64_min; lia).
  destruct (is_move_legal_total s number row column Hs Hpos Hlow)
    as [legal Hlegal].
  pose proof (is_move_legal_iff s number row column Hs Hpos Hlow) as Hiff.
  unfold legal_condition in Hiff.
  split; [eauto|]. split.
  - rewrite Hiff. destruct (decide (number = 0)) as [->|Hne].
    + split; intros [Hg _]; (split; [exact Hg | by left]).
    + split; (intros [Hg [H0 | (Hr & Hrest)]]; [contradiction|]);
        (split; [exact Hg | right; split; [lia | exact Hrest]]).
  - intros Hbig. rewrite Hlegal. destruct legal; [|reflexivity].
    apply Hiff in Hlegal as (_ & [H | (H & _)]); lia.
Qed.

Lemma is_move_legal_spec_witness :
  (∃ legal, _is_move_legal (corners_sudoku Diagonal) 5 4 4 = Ok legal)
  /\ _is_move_legal (corners_sudoku Diagonal) 10 4 4 = Ok false.
Proof.
  assert (Hs : well_shaped (corners_sudoku Diagonal)) by reflexivity.
  assert (Hpos : in_grid 4 4) by (unfold in_grid; lia).
  split.
  - apply (is_move_legal_spec (corners_sudoku Diagonal) 5 4 4 Hs Hpos). lia.
  - apply (is_move_legal_spec (corners_sudoku Diagonal) 10 4 4 Hs Hpos); lia.
Defined.

(** ** C4: the diagonals of a [DiagonalSudoku] *)

Lemma repeated_on_after s number row column G :
  repeated_on s number G -> repeated_after s number row column G.
Proof.
  intros (r1 & c1 & r2 & c2 & H1 & H2 & G1 & G2 & Hne & V1 & V2).
  exists r1, c1, r2, c2. repeat (split; [assumption|]).
  unfold holds_after. split; case_decide; auto.
Qed.

Lemma repeated_after_on s number row column G :
  G row column = false ->
  repeated_after s number row column G -> repeated_on s number G.
Proof.
  intros Hoff (r1 & c1 & r2 & c2 & H1 & H2 & G1 & G2 & Hne & V1 & V2).
  exists r1, c1, r2, c2. repeat (split; [assumption|]).
  unfold holds_after in V1, V2.
  destruct (decide ((r1, c1) = (row, column))) as [[= -> ->]|_]; [congruence|].
  destruct (decide ((r2, c2) = (row, column))) as [[= -> ->]|_]; [congruence|].
  auto.
Qed.

(** C4, as stated, fails: on the diagonal grid whose main diagonal holds 5
    in both corners, 5 is rejected at (3,4), which lies on neither
    diagonal, although the check of the row, the column and the box (the
    standard check) accepts it. *)
Lemma diagonals_consulted_off_diagonal :
  on_diagonal 3 4 = false /\ on_antidiagonal 3 4 = false
  /\ Sudoku_is_move_legal (corners_sudoku Diagonal) 5 3 4 = Ok true
  /\ _is_move_legal (corners_sudoku Diagonal) 5 3 4 = Ok false.
Proof. repeat split; reflexivity. Qed.

(** C4 (amended): a [DiagonalSudoku] counts the number on both diagonals
    of the trial board at every position.  At a position on neither
    diagonal, and when neither diagonal of the board holds the number
    twice already, the check agrees with the standard check of the row,
    the column and the box; when a diagonal holds a non-zero number twice,
    that number is illegal at every position.  (A number held by a cell
    is a 64-bit integer.) *)
Theorem diagonal_check_off_diagonal s number row column :
  well_shaped s -> in_grid row column -> class_of s = Diagonal ->
  (on_diagonal row column = false -> on_antidiagonal row column = false ->
   ¬ repeated_on s number on_diagonal -> ¬ repeated_on s number on_antidiagonal ->
   _is_move_legal s number row column = Sudoku_is_move_legal s number row column)
  /\ (number ≠ 0 -> np.int64_min <= number ->
      repeated_on s number on_diagonal \/ repeated_on s number on_antidiagonal ->
      _is_move_legal s number row column = Ok false).
Proof.
  intros Hs Hpos Hcls. split.
  - intros Hd Ha Hnd Hna.
    destruct (Z.lt_ge_cases number np.int64_min) as [Hout|Hlow].
    { clear Hd Ha Hnd Hna.
      apply well_shaped_tab in Hs as (f & ->). revert Hcls.
      generalize (class_of s) (given_numbers_indices s). clear s.
      intros cls given. cbn [class_of]. intros ->.
      assert (Hfits : np.fits_int64 number = false).
      { apply fits_int64_low; unfold np.int64_min in *; lia. }
      unfold _is_move_legal, DiagonalSudoku_is_move_legal, Sudoku_is_move_legal.
      cbn [class_of board].
      destruct (is_given _ row column); [reflexivity|].
      destruct (bool_decide (number = 0)); [reflexivity|].
      destruct (9 <? number); [reflexivity|].
      by rewrite (setitem2_tab_overflow f row column Hpos number Hfits). }
    assert (Hclean :
      ¬ repeated_after s number row column on_diagonal
      /\ ¬ repeated_after s number row column on_antidiagonal).
    { split; intros H.
      - apply Hnd, (repeated_after_on s number row column _ Hd H).
      - apply Hna, (repeated_after_on s number row column _ Ha H). }
    clear Hd Ha Hnd Hna. revert Hclean.
    apply well_shaped_tab in Hs as (f & ->). revert Hcls.
    generalize (class_of s) (given_numbers_indices s). clear s.
    intros cls given. cbn [class_of]. intros -> [Hd Ha].
    apply (clean_repeated Diagonal f given number row column Hpos _ _
             diagonal_enumerates) in Hd.
    apply (clean_repeated Diagonal f given number row column Hpos _ _
             antidiagonal_enumerates) in Ha.
    unfold _is_move_legal. cbn [class_of].
    rewrite (DiagonalSudoku_is_move_legal_tab _ f _ number row column Hpos Hlow).
    rewrite (Sudoku_is_move_legal_tab _ f _ number row column Hpos Hlow).
    rewrite Hd, Ha. by rewrite !andb_true_r.
  - intros Hne Hlow Hrep.
    destruct (is_move_legal_total s number row column Hs Hpos Hlow)
      as [legal Hlegal].
    rewrite Hlegal. destruct legal; [|reflexivity].
    apply (is_move_legal_iff s number row column Hs Hpos Hlow) in Hlegal
      as (_ & [H0 | (_ & _ & _ & _ & Hdiag)]); [contradiction|].
    destruct (Hdiag Hcls) as [Hd Ha].
    destruct Hrep as [Hrep|Hrep];
      apply (repeated_on_after _ _ row column) in Hrep; contradiction.
Qed.

Lemma diagonal_check_off_diagonal_witness :
  _is_move_legal (corners_sudoku Diagonal) 7 3 4
  = Sudoku_is_move_legal (corners_sudoku Diagonal) 7 3 4
  /\ _is_move_legal (corners_sudoku Diagonal) 5 3 4 = Ok false.
Proof.
  assert (Hs : well_shaped (corners_sudoku Diagonal)) by reflexivity.
  assert (Hpos : in_grid 3 4) by (unfold in_grid; lia).
  assert (Hfree : ∀ G, ¬ repeated_on (corners_sudoku Diagonal) 7 G).
  { intros G (r1 & c1 & _ & _ & H1 & _ & _ & _ & _ & V1 & _).
    grid_cases H1; discriminate V1. }
  split.
  - apply (diagonal_check_off_diagonal _ 7 3 4 Hs Hpos eq_refl);
      [reflexivity | reflexivity | apply Hfree | apply Hfree].
  - apply (diagonal_check_off_diagonal _ 5 3 4 Hs Hpos eq_refl);
      [lia | unfold np.int64_min; lia |].
    left. exists 0, 0, 8, 8. unfold in_grid.
    repeat split; try lia; discriminate.
Defined.

(** ** C5: [write] sets the target cell or nothing *)

Lemma getitem2_fupd f i j v r c :
  in_grid r c ->
  np.getitem2 (tab (fupd f i j v)) r c =
  Ok (if (Z.to_nat r =? i)%nat && (Z.to_nat c =? j)%nat then v
      else f (Z.to_nat r) (Z.to_nat c)).
Proof. intros Hin. by rewrite (getitem2_tab _ r c Hin). Qed.

Lemma setitem2_frame b row column v :
  np.shape_is_9x9 b = true -> in_grid row column -> np.fits_int64 v = true ->
  ∃ b', np.setitem2 b row column v = Ok b'
        /\ np.shape_is_9x9 b' = true
        /\ np.getitem2 b' row column = Ok v
        /\ ∀ r c, in_grid r c -> (r, c) ≠ (row, column) ->
                  np.getitem2 b' r c = np.getitem2 b r c.
Proof.
  intros Hb Hpos Hv. rewrite (shape_tab b Hb). set (f := cellN b).
  eexists. split; [apply (setitem2_tab f row column Hpos v Hv)|].
  split; [apply tab_shape|]. split.
  - rewrite (getitem2_fupd _ _ _ _ _ _ Hpos). by rewrite !Nat.eqb_refl.
  - intros r c Hin Hne. rewrite (getitem2_fupd _ _ _ _ _ _ Hin).
    rewrite (getitem2_tab f r c Hin).
    destruct (Nat.eqb_spec (Z.to_nat r) (Z.to_nat row)),
             (Nat.eqb_spec (Z.to_nat c) (Z.to_nat column)); simpl; try reflexivity.
    exfalso. apply Hne. destruct Hpos, Hin. f_equal; lia.
Qed.

Lemma above_int64_min x : -9 <= x -> np.int64_min <= x.
Proof. unfold np.int64_min. lia. Qed.

Lemma int64_min_zero : np.int64_min <= 0.
Proof. by apply above_int64_min. Qed.

Lemma fits_int64_zero : np.fits_int64 0 = true.
Proof. reflexivity. Qed.

Lemma legal_fits s number row column :
  legal_condition s number row column -> np.int64_min <= number ->
  np.fits_int64 number = true.
Proof.
  intros (_ & [->|[Hle _]]) Hlow; [reflexivity|].
  apply fits_int64_spec. unfold np.int64_max. lia.
Qed.

(** What [write] does at a grid position of a 9x9 grid, for a number the
    dtype of the board can hold. *)
Lemma write_effect s number row column :
  well_shaped s -> in_grid row column -> np.int64_min <= number ->
  ∃ legal s',
    _is_move_legal s number row column = Ok legal
    /\ write s number row column = Ok (legal, s')
    /\ (legal = true ->
        np.getitem2 (board s') row column = Ok number
        /\ (∀ r c, in_grid r c -> (r, c) ≠ (row, column) ->
                   np.getitem2 (board s') r c = np.getitem2 (board s) r c)
        /\ given_numbers_indices s' = given_numbers_indices s
        /\ class_of s' = class_of s
        /\ well_shaped s')
    /\ (legal = false -> s' = s).
Proof.
  intros Hs Hpos Hlow.
  destruct (is_move_legal_total s number row column Hs Hpos Hlow)
    as [legal Hlegal].
  pose proof (is_move_legal_iff s number row column Hs Hpos Hlow) as Hiff.
  unfold write. rewrite Hlegal. step. destruct legal.
  - assert (Hfits : np.fits_int64 number = true).
    { apply (legal_fits s number row column); [by apply Hiff | exact Hlow]. }
    destruct (setitem2_frame (board s) row column number Hs Hpos Hfits)
      as (b' & Hset & Hshape & Hsame & Hother).
    rewrite Hset. step. eexists true, _.
    split; [reflexivity|]. split; [reflexivity|]. split; [|discriminate].
    intros _. cbn [board given_numbers_indices class_of]. auto.
  - exists false, s. split; [reflexivity|]. split; [reflexivity|].
    split; [discriminate|reflexivity].
Qed.

(** A number below the range of the dtype, written at a grid position
    that is not given: the check raises. *)
Lemma write_overflow s number row column :
  well_shaped s -> in_grid row column ->
  (row, column) ∉ given_numbers_indices s -> number < np.int64_min ->
  write s number row column = Raise OverflowError.
Proof.
  intros Hs Hpos Hfree Hlow. unfold write.
  by rewrite (is_move_legal_overflow s number row column Hs Hpos Hfree Hlow).
Qed.

(** C5, as stated, fails outside the grid and below the range of the
    dtype.  On the empty grid [write(0, 9, 0)] passes the check, which
    accepts 0 at every position that is not given, and raises
    [IndexError] in the assignment; [write(-2**63 - 1, 0, 0)] raises
    [OverflowError] in the check, which stores the number in a copy of
    the board before it counts. *)
Lemma write_raises_not_as_specified :
  _is_move_legal empty_sudoku 0 9 0 = Ok true
  /\ write empty_sudoku 0 9 0 = Raise IndexError
  /\ write empty_sudoku (- 2 ^ 63 - 1) 0 0 = Raise OverflowError.
Proof. repeat split; reflexivity. Qed.

(** C5 (amended): on a 9x9 grid, at a grid position and for a number not
    below -2**63, [write] never raises; it returns what [_is_move_legal]
    returns.  When the move is legal the target cell holds the number
    afterwards and every other cell, the given positions and the class
    are as before; when it is not, the grid is unchanged. *)
Theorem write_frame s number row column :
  well_shaped s -> in_grid row column -> np.int64_min <= number ->
  ∃ legal s',
    _is_move_legal s number row column = Ok legal
    /\ write s number row column = Ok (legal, s')
    /\ (legal = true ->
        np.getitem2 (board s') row column = Ok number
        /\ (∀ r c, in_grid r c -> (r, c) ≠ (row, column) ->
                   np.getitem2 (board s') r c = np.getitem2 (board s) r c)
        /\ given_numbers_indices s' = given_numbers_indices s
        /\ class_of s' = class_of s
        /\ well_shaped s')
    /\ (legal = false -> s' = s).
Proof.
  intros Hs Hpos Hlow.
  destruct (is_move_legal_total s number row column Hs Hpos Hlow)
    as [legal Hlegal].
  pose proof (is_move_legal_iff s number row column Hs Hpos Hlow) as Hiff.
  unfold write. rewrite Hlegal. step. destruct legal.
  - assert (Hfits : np.fits_int64 number = true).
    { apply (legal_fits s number row column); [by apply Hiff | exact Hlow]. }
    destruct (setitem2_frame (board s) row column number Hs Hpos Hfits)
      as (b' & Hset & Hshape & Hsame & Hother).
    rewrite Hset. step. eexists true, _.
    split; [reflexivity|]. split; [reflexivity|]. split; [|discriminate].
    intros _. cbn [board given_numbers_indices class_of]. auto.
  - exists false, s. split; [reflexivity|]. split; [reflexivity|].
    split; [discriminate|reflexivity].
Qed.

Lemma write_frame_witness :
  ∃ s', write empty_sudoku 4 2 7 = Ok (true, s')
        /\ np.getitem2 (board s') 2 7 = Ok 4.
Proof.
  assert (Hs : well_shaped empty_sudoku) by reflexivity.
  assert (Hpos : in_grid 2 7) by (unfold in_grid; lia).
  assert (Hlow : np.int64_min <= 4) by (unfold np.int64_min; lia).
  destruct (write_frame empty_sudoku 4 2 7 Hs Hpos Hlow)
    as (legal & s' & Hlegal & Hwrite & Htrue & _).
  assert (legal = true) as -> by (vm_compute in Hlegal; congruence).
  exists s'. split; [exact Hwrite | by apply Htrue].
Defined.

(** ** C6: given cells *)

Lemma keeps_given_refl s : well_shaped s -> keeps_given s s.
Proof. intros Hs. repeat split; auto. Qed.

Lemma keeps_given_trans s1 s2 s3 :
  keeps_given s1 s2 -> keeps_given s2 s3 -> keeps_given s1 s3.
Proof.
  intros (Hs2 & Hc2 & Hg2 & Hv2) (Hs3 & Hc3 & Hg3 & Hv3).
  split; [exact Hs3|]. split; [congruence|]. split; [congruence|].
  intros r c Hin Hpos. rewrite Hv3; [by apply Hv2 | by rewrite Hg2 | exact Hpos].
Qed.

Lemma write_given s number row column :
  (row, column) ∈ given_numbers_indices s ->
  write s number row column = Ok (false, s).
Proof.
  intros Hin. unfold write, _is_move_legal.
  unfold Sudoku_is_move_legal, DiagonalSudoku_is_move_legal, is_given.
  rewrite (bool_decide_eq_true_2 _ Hin). by destruct (class_of s).
Qed.

Lemma write_keeps_given s number row column :
  well_shaped s -> in_grid row column -> np.int64_min <= number ->
  ∃ legal s', write s number row column = Ok (legal, s') /\ keeps_given s s'.
Proof.
  intros Hs Hpos Hlow.
  destruct (write_effect s number row column Hs Hpos Hlow)
    as (legal & s' & Hlegal & Hwrite & Htrue & Hfalse).
  exists legal, s'. split; [exact Hwrite|].
  destruct legal.
  - destruct (Htrue eq_refl) as (_ & Hother & Hg & Hc & Hs').
    repeat split; auto.
    intros r c Hin Hrc. apply Hother; [exact Hrc|].
    intros [= -> ->].
    rewrite (write_given s number row column Hin) in Hwrite. discriminate.
  - rewrite (Hfalse eq_refl). by apply keeps_given_refl.
Qed.

Lemma remove_numbers_keeps_given rnd (Hrnd : draws_in_range rnd) fuel :
  ∀ s n k, well_shaped s ->
    keeps_given s (_remove_numbers_loop fuel rnd s n k).1.1.
Proof.
  induction fuel as [|fuel IH]; intros s n k Hs; simpl.
  - destruct (bool_decide (n = 0)); by apply keeps_given_refl.
  - destruct (bool_decide (n = 0)); [by apply keeps_given_refl|].
    destruct (np.getitem2 (board s) (randint rnd k) (randint rnd (S k)))
      as [v|e]; [|by apply keeps_given_refl].
    destruct (bool_decide (v = 0)); [by apply IH|].
    assert (Hpos : in_grid (randint rnd k) (randint rnd (S k)))
      by (split; apply Hrnd).
    destruct (write_keeps_given s 0 (randint rnd k) (randint rnd (S k)) Hs Hpos
                (above_int64_min 0 ltac:(lia)))
      as (legal & s' & -> & Hkeep).
    destruct legal; [|by apply IH].
    eapply keeps_given_trans; [exact Hkeep|]. apply IH, Hkeep.
Qed.

(** C6: the code breaks the claim.  [_is_move_legal] guards the given
    cells by comparing the index pair with the recorded positions, and
    [write(0, 8, 8)] is refused on the board above, whose cell (8,8) is
    given; but numpy resolves the row index -1 to the same row, so
    [write(0, -1, 8)] passes the guard and clears the given cell.  The
    solver makes that very call: on this board, which has no solution,
    the cursor retreats from (0,0) to (-1,8), the solver reads 9 there,
    fails with the trial 10, and clears the cell with [write(0, -1, 8)]
    before it stops with an [IndexError]. *)
Lemma solve_clears_given_cell :
  Sudoku_init Standard (Some dead_end_board) = Ok dead_end_sudoku
  /\ (8, 8) ∈ given_numbers_indices dead_end_sudoku
  /\ np.getitem2 (board dead_end_sudoku) 8 8 = Ok 9
  /\ write dead_end_sudoku 0 8 8 = Ok (false, dead_end_sudoku)
  /\ (∃ s', write dead_end_sudoku 0 (-1) 8 = Ok (true, s')
            /\ np.getitem2 (board s') 8 8 = Ok 0)
  /\ (solve 20 dead_end_sudoku).2 = Crashed IndexError
  /\ np.getitem2 (board (solve 20 dead_end_sudoku).1) 8 8 = Ok 0.
Proof.
  split; [reflexivity|]. split.
  { apply list_elem_of_In. vm_compute. tauto. }
  split; [reflexivity|]. split; [reflexivity|].
  split; [eexists; split; reflexivity|]. split; reflexivity.
Qed.

(** ** C10: writing a cell's own value *)

Lemma occurs_elsewhere_repeated s v row column G :
  in_grid row column -> G row column = true ->
  np.getitem2 (board s) row column = Ok v ->
  occurs_elsewhere s v row column G -> repeated_on s v G.
Proof.
  intros Hpos HG Hv (r & c & Hin & HG' & Hne & Hv').
  exists r, c, row, column. auto 10.
Qed.

Lemma repeated_after_repeated s v row column G :
  np.getitem2 (board s) row column = Ok v ->
  repeated_after s v row column G -> repeated_on s v G.
Proof.
  intros Hv (r1 & c1 & r2 & c2 & H1 & H2 & G1 & G2 & Hne & V1 & V2).
  exists r1, c1, r2, c2. repeat (split; [assumption|]).
  unfold holds_after in V1, V2.
  split; [clear V2; revert V1 | clear V1; revert V2];
    case_decide as Heq; auto; by injection Heq as -> ->.
Qed.

Lemma setitem2_same b row column v :
  np.shape_is_9x9 b = true -> in_grid row column -> np.fits_int64 v = true ->
  np.getitem2 b row column = Ok v -> np.setitem2 b row column v = Ok b.
Proof.
  intros Hb Hpos Hfits. rewrite (shape_tab b Hb). generalize (cellN b). intros f.
  rewrite (getitem2_tab f row column Hpos),
    (setitem2_tab f row column Hpos v Hfits).
  intros [= <-]. f_equal. grid_cases Hpos; reflexivity.
Qed.

(** C10: on a 9x9 grid that satisfies the invariant, at a grid position
    that is not given and holds a value v in 1..9, [write] of v returns
    True and the grid afterwards is the grid before. *)
Theorem write_own_value s v row column :
  well_shaped s -> region_invariant s -> in_grid row column ->
  (row, column) ∉ given_numbers_indices s ->
  np.getitem2 (board s) row column = Ok v -> 1 <= v <= 9 ->
  write s v row column = Ok (true, s).
Proof.
  intros Hs (Hrow & Hcol & Hbox & Hdiag) Hpos Hfree Hv Hrange.
  assert (Hnz : v ≠ 0) by lia.
  assert (Hlegal : _is_move_legal s v row column = Ok true).
  { apply (is_move_legal_iff s v row column Hs Hpos (above_int64_min v ltac:(lia))).
    split; [exact Hfree|]. right. split; [lia|].
    split.
    { intros H. apply (Hrow row v Hnz).
      apply (occurs_elsewhere_repeated s v row column); auto.
      apply Z.eqb_refl. }
    split.
    { intros H. apply (Hcol column v Hnz).
      apply (occurs_elsewhere_repeated s v row column); auto.
      apply Z.eqb_refl. }
    split.
    { intros H. apply (Hbox row column v Hnz).
      apply (occurs_elsewhere_repeated s v row column); auto.
      unfold in_box. by rewrite !Z.eqb_refl. }
    intros Hcls. destruct (Hdiag Hcls) as [Hd Ha].
    split; intros H; [apply (Hd v Hnz) | apply (Ha v Hnz)];
      by apply (repeated_after_repeated s v row column). }
  unfold write. rewrite Hlegal. step.
  rewrite (setitem2_same (board s) row column v Hs Hpos
             (fits_int64_small v ltac:(lia)) Hv). step.
  by destruct s.
Qed.

Lemma one_cell_sudoku_written :
  write empty_sudoku 4 2 7 = Ok (true, one_cell_sudoku).
Proof. reflexivity. Qed.

Lemma one_cell_sudoku_holds r c v :
  in_grid r c -> v ≠ 0 ->
  np.getitem2 (board one_cell_sudoku) r c = Ok v -> (r, c) = (2, 7).
Proof.
  intros Hin Hv Hg.
  grid_cases Hin; vm_compute in Hg; first [reflexivity | congruence].
Qed.

Lemma one_cell_sudoku_invariant : region_invariant one_cell_sudoku.
Proof.
  assert (H : ∀ G, once_on one_cell_sudoku G).
  { intros G v Hv (r1 & c1 & r2 & c2 & H1 & H2 & _ & _ & Hne & V1 & V2).
    apply (one_cell_sudoku_holds _ _ _ H1 Hv) in V1.
    apply (one_cell_sudoku_holds _ _ _ H2 Hv) in V2. congruence. }
  repeat split; intros; apply H.
Qed.

Lemma write_own_value_witness :
  region_invariant one_cell_sudoku
  /\ write one_cell_sudoku 4 2 7 = Ok (true, one_cell_sudoku).
Proof.
  split; [exact one_cell_sudoku_invariant|].
  apply (write_own_value one_cell_sudoku 4 2 7).
  - reflexivity.
  - exact one_cell_sudoku_invariant.
  - unfold in_grid. lia.
  - apply not_elem_of_nil.
  - reflexivity.
  - lia.
Defined.

(** ** C2: construction *)

Lemma index_nonneg n i :
  0 <= i ->
  np.index n i = if i <? Z.of_nat n then Ok (Z.to_nat i) else Raise IndexError.
Proof.
  intros Hi. unfold np.index.
  destruct (Z.leb_spec 0 i); [|lia]. destruct (Z.ltb_spec i (Z.of_nat n)); simpl.
  - reflexivity.
  - destruct (Z.ltb_spec i 0); [lia|]. by rewrite andb_false_r.
Qed.

Lemma getitem_nonneg {A} (a : list A) i x :
  0 <= i -> np.getitem a i = Ok x <-> a !! Z.to_nat i = Some x.
Proof.
  intros Hi. unfold np.getitem. rewrite (index_nonneg _ _ Hi).
  destruct (Z.ltb_spec i (Z.of_nat (length a))) as [Hlt|Hge]; step.
  - destruct (a !! Z.to_nat i); split; congruence.
  - split; [discriminate|]. intros Hx. apply lookup_lt_Some in Hx. lia.
Qed.

Lemma getitem2_nonneg a i j x :
  0 <= i -> 0 <= j ->
  np.getitem2 a i j = Ok x <->
  ∃ r, a !! Z.to_nat i = Some r /\ r !! Z.to_nat j = Some x.
Proof.
  intros Hi Hj. unfold np.getitem2. split.
  - destruct (np.getitem a i) as [r|e] eqn:Hr; step; [|discriminate].
    intros H. exists r. split; [by apply getitem_nonneg in Hr|by apply getitem_nonneg in H].
  - intros (r & Hr & Hx). apply (getitem_nonneg a i r Hi) in Hr. rewrite Hr. step.
    by apply getitem_nonneg.
Qed.

Lemma nonzero_row_spec r : ∀ i j0 row column,
  (row, column) ∈ np.nonzero_row i j0 r <->
  row = i /\ ∃ k x, r !! k = Some x /\ x ≠ 0 /\ column = j0 + Z.of_nat k.
Proof.
  induction r as [|y r IH]; intros i j0 row column; simpl.
  - split; [by intros H%elem_of_nil|]. by intros (_ & k & x & H & _).
  - rewrite elem_of_app, IH. split.
    + intros [H|(-> & k & x & Hk & Hx & ->)].
      * case_bool_decide as Hy; [by apply elem_of_nil in H|].
        apply list_elem_of_singleton in H as [= -> ->].
        split; [reflexivity|]. exists 0%nat, y. split; [reflexivity|]. split; [exact Hy|lia].
      * split; [reflexivity|]. exists (S k), x. split; [exact Hk|]. split; [exact Hx|lia].
    + intros (-> & [|k] & x & Hk & Hx & ->).
      * left. injection Hk as ->. rewrite bool_decide_eq_false_2 by exact Hx.
        apply list_elem_of_singleton. f_equal. lia.
      * right. split; [reflexivity|]. exists k, x. split; [exact Hk|]. split; [exact Hx|lia].
Qed.

Lemma nonzero_from_spec a : ∀ i0 row column,
  (row, column) ∈ np.nonzero_from i0 a <->
  ∃ k r x, a !! k = Some r /\ row = i0 + Z.of_nat k
           /\ r !! Z.to_nat column = Some x /\ 0 <= column /\ x ≠ 0.
Proof.
  induction a as [|r a IH]; intros i0 row column; simpl.
  - split; [by intros H%elem_of_nil|]. by intros (k & ? & ? & H & _).
  - rewrite elem_of_app, nonzero_row_spec, IH. split.
    + intros [(-> & k & x & Hk & Hx & ->)|(k & r' & x & Hk & -> & Hx & Hc & Hnz)].
      * exists 0%nat, r, x. rewrite Z.add_0_l, Nat2Z.id.
        split; [reflexivity|]. split; [lia|]. split; [exact Hk|]. split; [lia|exact Hx].
      * exists (S k), r', x. split; [exact Hk|]. split; [lia|]. auto.
    + intros ([|k] & r' & x & Hk & -> & Hx & Hc & Hnz).
      * left. injection Hk as ->. split; [lia|].
        exists (Z.to_nat column), x. split; [exact Hx|]. split; [exact Hnz|lia].
      * right. exists k, r', x. split; [exact Hk|]. split; [lia|]. auto.
Qed.

(** The positions recorded as given are the positions holding a
    non-zero entry. *)
Lemma nonzero_spec a row column :
  (row, column) ∈ np.nonzero a <->
  0 <= row /\ 0 <= column /\ ∃ v, np.getitem2 a row column = Ok v /\ v ≠ 0.
Proof.
  unfold np.nonzero. rewrite nonzero_from_spec. split.
  - intros (k & r & x & Hk & -> & Hx & Hc & Hnz).
    split; [lia|]. split; [exact Hc|]. exists x. split; [|exact Hnz].
    apply getitem2_nonneg; [lia|exact Hc|]. exists r. by rewrite Z.add_0_l, Nat2Z.id.
  - intros (Hr & Hc & v & Hv & Hnz).
    apply getitem2_nonneg in Hv as (r & Hrow & Hcell); [|exact Hr|exact Hc].
    exists (Z.to_nat row), r, v. split; [exact Hrow|]. split; [lia|]. auto.
Qed.

(** C2, as stated, fails: a 9x9 board holding 10 and -3 is accepted. *)
Lemma construction_accepts_out_of_range :
  np.getitem2 out_of_range_board 0 0 = Ok 10
  /\ np.getitem2 out_of_range_board 1 1 = Ok (-3)
  /\ Sudoku_init Standard (Some out_of_range_board)
     = Ok (mkSudoku Standard out_of_range_board [(0, 0); (1, 1)]).
Proof. repeat split; reflexivity. Qed.

(** C2 (amended): construction from a matrix fails (with the assertion
    error) iff the matrix is not 9x9; the entries are not inspected.  For
    every 9x9 matrix it succeeds, keeps the matrix as the board and records
    as given exactly the grid positions holding a non-zero entry.  Without
    a matrix the board is empty and nothing is given. *)
Theorem Sudoku_init_spec cls a :
  (Sudoku_init cls (Some a) = Raise AssertionError <->
   ¬ (length a = 9%nat /\ Forall (λ r, length r = 9%nat) a))
  /\ (length a = 9%nat /\ Forall (λ r, length r = 9%nat) a ->
      ∃ s, Sudoku_init cls (Some a) = Ok s
           /\ class_of s = cls /\ board s = a
           /\ ∀ row column,
                (row, column) ∈ given_numbers_indices s <->
                in_grid row column
                /\ ∃ v, np.getitem2 a row column = Ok v /\ v ≠ 0)
  /\ Sudoku_init cls None = Ok (mkSudoku cls (np.zeros 9 9) []).
Proof.
  rewrite <- shape_is_9x9_spec. unfold Sudoku_init.
  split; [|split; [|reflexivity]].
  - destruct (np.shape_is_9x9 a); split; congruence.
  - intros Ha. rewrite Ha. eexists. split; [reflexivity|].
    cbn [class_of board given_numbers_indices].
    split; [reflexivity|]. split; [reflexivity|].
    intros row column. rewrite nonzero_spec. split.
    + intros (Hr & Hc & v & Hv & Hnz). split; [|eauto].
      rewrite (shape_tab a Ha) in Hv.
      apply getitem2_nonneg in Hv as (r & Hrow & Hcell); [|exact Hr|exact Hc].
      apply lookup_lt_Some in Hrow as Hlt. change (length (tab (cellN a))) with 9%nat in Hlt.
      assert (Hlen : length r = 9%nat).
      { pose proof (tab_shape (cellN a)) as [_ Hall]%shape_is_9x9_spec.
        rewrite Forall_forall in Hall. eapply Hall, list_elem_of_lookup_2, Hrow. }
      apply lookup_lt_Some in Hcell. unfold in_grid. lia.
    + intros ([[Hr _] [Hc _]] & H). auto.
Qed.

Lemma Sudoku_init_spec_witness :
  ∃ s, Sudoku_init Diagonal (Some corners_board) = Ok s
       /\ (8, 8) ∈ given_numbers_indices s.
Proof.
  destruct (Sudoku_init_spec Diagonal corners_board) as (_ & Hok & _).
  destruct Hok as (s & Hs & _ & _ & Hgiven).
  { split; [reflexivity|]. repeat constructor. }
  exists s. split; [exact Hs|]. apply Hgiven.
  split; [unfold in_grid; lia|]. exists 5. split; [reflexivity|lia].
Defined.

(** ** C7: backtracking in the solver loop *)

Lemma next_backward s (Hgiven : given_in_grid s) depth :
  ∀ row column,
    0 <= column < 9 -> 0 <= rank row column < Z.of_nat depth ->
    ∃ r' c', _next_row_column depth s row column Backward = Ok (r', c')
             /\ previous_free s row column r' c'.
Proof.
  induction depth as [|depth IH]; intros row column Hc Hrank; [lia|].
  cbn [_next_row_column].
  destruct (neighbour s row column Backward) as [nr nc] eqn:Hn.
  assert (Hnb : 0 <= nc < 9 /\ rank nr nc = rank row column - 1).
  { unfold neighbour in Hn. unfold rank.
    case_bool_decide; injection Hn as <- <-; lia. }
  destruct Hnb as [Hnc Hnrank].
  unfold is_given. case_bool_decide as Hg.
  - assert (Hin : in_grid nr nc) by (by apply Hgiven).
    destruct (IH nr nc Hnc) as (r' & c' & Hnext & Hc' & Hfree & Hlow & Hbetween).
    { destruct Hin. unfold rank in *. lia. }
    exists r', c'. split; [exact Hnext|].
    split; [exact Hc'|]. split; [exact Hfree|]. split; [lia|].
    intros r c Hcr Hr.
    destruct (decide (rank r c = rank nr nc)) as [Heq|Hne].
    + assert ((r, c) = (nr, nc)) as ->; [|exact Hg].
      unfold rank in Heq. f_equal; lia.
    + apply Hbetween; [exact Hcr|lia].
  - exists nr, nc. split; [reflexivity|].
    split; [exact Hnc|]. split; [exact Hg|]. split; [lia|].
    intros r c _ Hr. lia.
Qed.

Lemma getitem2_total b r c :
  np.shape_is_9x9 b = true -> -1 <= r < 9 -> 0 <= c < 9 ->
  ∃ v, np.getitem2 b r c = Ok v.
Proof.
  intros Hb Hr Hc. rewrite (shape_tab b Hb). generalize (cellN b). intros f.
  destruct (decide (r = -1)) as [->|Hne].
  - apply grid_index in Hc.
    repeat (destruct Hc as [Hc|Hc]); subst; eexists; reflexivity.
  - eexists. apply getitem2_tab. unfold in_grid. lia.
Qed.

(** C7, as stated, fails where the cell read holds the largest 64-bit
    integer: the value is a numpy integer, and adding one to it wraps.
    On the board above, trial 9 fails at (0,0), the cursor retreats to
    (-1,8), which addresses the cell (8,8), and the next trial is -2**63,
    not 2**63. *)
Lemma backtrack_wraps_at_int64_max :
  Sudoku_init Standard (Some wrapping_board) = Ok wrapping_sudoku
  /\ write wrapping_sudoku 9 0 0 = Ok (false, wrapping_sudoku)
  /\ np.getitem2 (board wrapping_sudoku) (-1) 8 = Ok (2 ^ 63 - 1)
  /\ _solve_iterative_body wrapping_sudoku 0 0 9
     = Continue wrapping_sudoku (-1) 8 (- 2 ^ 63)
  /\ - 2 ^ 63 ≠ (2 ^ 63 - 1) + 1.
Proof. repeat split; vm_compute; congruence. Qed.

(** C7 (amended): in a pass of the solver loop at a grid position, when
    the trial number is 9 (or more) and [write] refuses it, the solver
    calls [write(0, cursor)] (which clears the cell unless it is given),
    moves the cursor to the nearest position before it that is not given,
    and continues with the value held there plus one as the next trial;
    the addition is made on 64-bit integers, so it is the value plus one
    for every value below 2**63 - 1, in particular for every value in
    0..9. *)
Theorem backtrack_pass s row column number :
  well_shaped s -> given_in_grid s -> in_grid row column -> 9 <= number ->
  write s number row column = Ok (false, s) ->
  ∃ cleared s2 r' c' v,
    write s 0 row column = Ok (cleared, s2)
    /\ ((row, column) ∉ given_numbers_indices s ->
        cleared = true /\ np.getitem2 (board s2) row column = Ok 0)
    /\ _next_row_column recursion_limit s2 row column Backward = Ok (r', c')
    /\ previous_free s2 row column r' c'
    /\ np.getitem2 (board s2) r' c' = Ok v
    /\ _solve_iterative_body s row column number
       = Continue s2 r' c' (np.wrap_int64 (v + 1))
    /\ (np.int64_min <= v < np.int64_max -> np.wrap_int64 (v + 1) = v + 1)
    /\ (0 <= v <= 9 -> np.wrap_int64 (v + 1) = v + 1).
Proof.
  intros Hs Hgiven Hpos Hnine Hfail.
  assert (Hzero : np.int64_min <= 0) by (apply above_int64_min; lia).
  destruct (write_effect s 0 row column Hs Hpos Hzero)
    as (cleared & s2 & Hlegal & Hwrite & Htrue & Hfalse).
  destruct (write_keeps_given s 0 row column Hs Hpos Hzero)
    as (cleared' & s2' & Hwrite' & Hkeep).
  rewrite Hwrite in Hwrite'. injection Hwrite' as <- <-.
  destruct Hkeep as (Hs2 & _ & Hg2 & _).
  assert (Hgiven2 : given_in_grid s2).
  { unfold given_in_grid. by rewrite Hg2. }
  destruct (next_backward s2 Hgiven2 recursion_limit row column)
    as (r' & c' & Hnext & Hprev).
  { apply Hpos. }
  { destruct Hpos. unfold rank, recursion_limit. lia. }
  destruct (getitem2_total (board s2) r' c' Hs2) as [v Hv].
  { destruct Hprev as (Hc' & _ & Hlow & _), Hpos. unfold rank in Hlow. lia. }
  { apply Hprev. }
  exists cleared, s2, r', c', v.
  split; [exact Hwrite|]. split.
  { intros Hfree.
    assert (cleared = true) as ->.
    { assert (Hok : _is_move_legal s 0 row column = Ok true).
      { apply (is_move_legal_iff s 0 row column Hs Hpos Hzero).
        split; [exact Hfree|by left]. }
      congruence. }
    split; [reflexivity|]. by apply Htrue. }
  split; [exact Hnext|]. split; [exact Hprev|]. split; [exact Hv|].
  split.
  { unfold _solve_iterative_body. rewrite Hfail.
    destruct (Z.ltb_spec number 9); [lia|].
    rewrite Hwrite. unfold move_cursor. rewrite Hnext. by rewrite Hv. }
  split; intros Hrange; apply wrap_int64_fits;
    unfold np.int64_min, np.int64_max in *; lia.
Qed.

Lemma backtrack_pass_witness :
  write search_sudoku 9 0 2 = Ok (false, search_sudoku)
  /\ ∃ s2 r' c' v,
       previous_free s2 0 2 r' c'
       /\ _solve_iterative_body search_sudoku 0 2 9
          = Continue s2 r' c' (np.wrap_int64 (v + 1)).
Proof.
  assert (Hfail : write search_sudoku 9 0 2 = Ok (false, search_sudoku))
    by (vm_compute; reflexivity).
  split; [exact Hfail|].
  assert (Hs : well_shaped search_sudoku) by (vm_compute; reflexivity).
  assert (Hg : given_in_grid search_sudoku).
  { intros r c H. apply list_elem_of_In in H. simpl in H. unfold in_grid.
    destruct H as [[= <- <-]|[[= <- <-]|[]]]; lia. }
  assert (Hpos : in_grid 0 2) by (unfold in_grid; lia).
  assert (Hnine : 9 <= 9) by lia.
  destruct (backtrack_pass search_sudoku 0 2 9 Hs Hg Hpos Hnine Hfail) as
    (cleared & s2 & r' & c' & v & _ & _ & _ & Hprev & _ & Hbody & _).
  exists s2, r', c', v. split; [exact Hprev | exact Hbody].
Defined.

(** ** A run that has ended is not changed by more passes *)

Lemma get_start_loop_more fuel : ∀ fuel' s row column x,
  _get_start_loop fuel s row column = Some x -> (fuel <= fuel')%nat ->
  _get_start_loop fuel' s row column = Some x.
Proof.
  induction fuel as [|fuel IH]; intros fuel' s row column x Hrun Hle;
    [discriminate|].
  destruct fuel' as [|fuel']; [lia|]. cbn [_get_start_loop] in *.
  destruct (np.getitem2 (board s) row column) as [v|e]; [|exact Hrun].
  destruct (bool_decide (v = 0)); [exact Hrun|].
  destruct (_next_row_column recursion_limit s row column Forward)
    as [[row' column']|e]; [|exact Hrun].
  apply IH; [exact Hrun|lia].
Qed.

Lemma solve_iterative_loop_more fuel : ∀ fuel' s row column number s' e,
  _solve_iterative_loop fuel s row column number = (s', e) -> e ≠ Unfinished ->
  (fuel <= fuel')%nat ->
  _solve_iterative_loop fuel' s row column number = (s', e).
Proof.
  induction fuel as [|fuel IH]; intros fuel' s row column number s' e Hrun He Hle.
  - cbn [_solve_iterative_loop] in Hrun.
    destruct fuel'; cbn [_solve_iterative_loop]; destruct (is_solved s); congruence.
  - destruct fuel' as [|fuel']; [lia|]. cbn [_solve_iterative_loop] in *.
    destruct (is_solved s); [exact Hrun|].
    destruct (_solve_iterative_body s row column number); [|exact Hrun].
    apply IH; [exact Hrun|exact He|lia].
Qed.

Lemma solve_more fuel fuel' s s' e :
  solve fuel s = (s', e) -> e ≠ Unfinished -> (fuel <= fuel')%nat ->
  solve fuel' s = (s', e).
Proof.
  unfold solve, _get_start_row_column, _solve_iterative. intros Hrun He Hle.
  destruct (negb (is_solved s)); [|exact Hrun].
  destruct (_get_start_loop fuel s 0 0) as [start|] eqn:Hstart; [|congruence].
  rewrite (get_start_loop_more fuel fuel' s 0 0 start Hstart Hle).
  destruct start as [[row column]|err]; [|exact Hrun].
  by apply (solve_iterative_loop_more fuel).
Qed.

(** ** Exceptions and the frame of the solver and the maker *)

Lemma index_raises n i e : np.index n i = Raise e -> e = IndexError.
Proof.
  unfold np.index. destruct (_ && _); [discriminate|].
  destruct (_ && _); [discriminate|]. congruence.
Qed.

Lemma getitem_raises {A} (a : list A) i e :
  np.getitem a i = Raise e -> e = IndexError.
Proof.
  unfold np.getitem. destruct (np.index (length a) i) as [k|e'] eqn:Hk; step.
  - destruct (a !! k); congruence.
  - intros [= <-]. by apply index_raises in Hk.
Qed.

Lemma setitem_raises {A} (a : list A) i x e :
  np.setitem a i x = Raise e -> e = IndexError.
Proof.
  unfold np.setitem. destruct (np.index (length a) i) as [k|e'] eqn:Hk; step.
  - discriminate.
  - intros [= <-]. by apply index_raises in Hk.
Qed.

Lemma getitem2_raises a i j e : np.getitem2 a i j = Raise e -> e = IndexError.
Proof.
  unfold np.getitem2. destruct (np.getitem a i) as [r|e'] eqn:Hr; step.
  - apply getitem_raises.
  - intros [= <-]. by apply getitem_raises in Hr.
Qed.

Lemma setitem2_raises a i j x e :
  np.fits_int64 x = true -> np.setitem2 a i j x = Raise e -> e = IndexError.
Proof.
  intros Hx. rewrite (setitem2_fits a i j x Hx).
  destruct (np.getitem a i) as [r|e'] eqn:Hr; step.
  - destruct (np.setitem r j x) as [r'|e'] eqn:Hr'; step.
    + apply setitem_raises.
    + intros [= <-]. by apply setitem_raises in Hr'.
  - intros [= <-]. by apply getitem_raises in Hr.
Qed.

Lemma column_raises a j e : np.column a j = Raise e -> e = IndexError.
Proof.
  unfold np.column. induction a as [|r a IH]; cbn [mapM]; [discriminate|].
  destruct (np.getitem r j) as [y|e'] eqn:Hy; step.
  - destruct (mapM (λ r0, np.getitem r0 j) a) as [k|e'']; step; [discriminate|].
    intros [= <-]. by apply IH.
  - intros [= <-]. by apply getitem_raises in Hy.
Qed.

Lemma is_move_legal_raises s number row column e :
  np.int64_min <= number ->
  _is_move_legal s number row column = Raise e -> e = IndexError.
Proof.
  intros Hlow.
  unfold _is_move_legal, Sudoku_is_move_legal, DiagonalSudoku_is_move_legal.
  destruct (class_of s);
    (destruct (is_given s row column); [discriminate|]);
    (destruct (bool_decide (number = 0)); [discriminate|]);
    (destruct (Z.ltb_spec 9 number) as [Hbig|Hle]; [discriminate|]);
    (assert (Hfits : np.fits_int64 number = true)
       by (apply fits_int64_spec; unfold np.int64_max; lia));
    (destruct (np.setitem2 (board s) row column number) as [bc|e1] eqn:H1; step;
       [|intros [= <-]; by apply setitem2_raises in H1]);
    (destruct (np.setitem2 (_get_region s row column) _ _ number)
       as [reg|e2] eqn:H2; step;
       [|intros [= <-]; by apply setitem2_raises in H2]);
    (destruct (np.getitem bc row) as [brow|e3] eqn:H3; step;
       [|intros [= <-]; by apply getitem_raises in H3]);
    (destruct (1 <? np.count_eq number brow)%nat; [discriminate|]);
    (destruct (np.column bc column) as [bcol|e4] eqn:H4; step;
       [|intros [= <-]; by apply column_raises in H4]);
    repeat (destruct (1 <? _)%nat; [discriminate|]); discriminate.
Qed.

Lemma same_frame_refl s : same_frame s s.
Proof. by repeat split. Qed.

Lemma same_frame_trans s1 s2 s3 :
  same_frame s1 s2 -> same_frame s2 s3 -> same_frame s1 s3.
Proof.
  intros (Hc & Hg & Hs) (Hc' & Hg' & Hs').
  split; [congruence|]. split; [congruence|auto].
Qed.

Lemma setitem_length {A} (a : list A) i x a' :
  np.setitem a i x = Ok a' -> length a' = length a.
Proof.
  unfold np.setitem. destruct (np.index (length a) i); step; [|discriminate].
  intros [= <-]. apply length_insert.
Qed.

Lemma setitem2_shape a i j x a' :
  np.setitem2 a i j x = Ok a' -> np.shape_is_9x9 a = true ->
  np.shape_is_9x9 a' = true.
Proof.
  unfold np.setitem2, np.getitem, np.setitem, np.setitem_int.
  destruct (np.index (length a) i) as [k|]; step; [|discriminate].
  destruct (a !! k) as [r|] eqn:Hk; step; [|discriminate].
  destruct (np.index (length r) j) as [k'|]; step; [|discriminate].
  destruct (np.fits_int64 x); step; [|discriminate].
  intros [= <-] [Hlen Hrows]%shape_is_9x9_spec. apply shape_is_9x9_spec.
  split; [by rewrite length_insert|].
  apply Forall_insert; [exact Hrows|]. rewrite length_insert.
  rewrite Forall_forall in Hrows. eapply Hrows, list_elem_of_lookup_2, Hk.
Qed.

(** A number the check accepts is 0 or at most 9. *)
Lemma is_move_legal_accepts s number row column :
  _is_move_legal s number row column = Ok true -> number <= 9.
Proof.
  unfold _is_move_legal, Sudoku_is_move_legal, DiagonalSudoku_is_move_legal.
  destruct (class_of s);
    (destruct (is_given s row column); [discriminate|]);
    (case_bool_decide; [lia|]);
    (destruct (Z.ltb_spec 9 number); [discriminate|lia]).
Qed.

Lemma write_same_frame s number row column :
  match write s number row column with
  | Ok (_, s') => same_frame s s'
  | Raise e => np.int64_min <= number -> e = IndexError
  end.
Proof.
  unfold write.
  destruct (_is_move_legal s number row column) as [legal|e] eqn:Hl; step;
    [|intros Hlow; by apply is_move_legal_raises in Hl].
  destruct legal; [|apply same_frame_refl].
  apply is_move_legal_accepts in Hl.
  destruct (np.setitem2 (board s) row column number) as [b'|e] eqn:Hb; step.
  - split; [reflexivity|]. split; [reflexivity|].
    intros Hs. by apply (setitem2_shape _ _ _ _ _ Hb).
  - intros Hlow. apply setitem2_raises in Hb; [exact Hb|].
    apply fits_int64_spec. unfold np.int64_max. lia.
Qed.

Lemma next_row_column_raises depth : ∀ s row column d e,
  _next_row_column depth s row column d = Raise e -> e = RecursionError.
Proof.
  induction depth as [|depth IH]; intros s row column d e;
    cbn [_next_row_column]; [congruence|].
  destruct (neighbour s row column d) as [nr nc].
  destruct (is_given s nr nc); [apply IH|discriminate].
Qed.

(** The trial numbers of the solver loop are 64-bit integers: the loop
    starts at 1, adds one below 9 and otherwise reads a cell. *)
Lemma solve_pass_frame s row column number :
  match _solve_iterative_body s row column number with
  | Continue s' _ _ number' =>
      same_frame s s' /\ (np.int64_min <= number -> np.int64_min <= number')
  | Abort s' e =>
      same_frame s s' /\ (np.int64_min <= number -> index_or_recursion e)
  end.
Proof.
  unfold _solve_iterative_body, move_cursor.
  pose proof (write_same_frame s number row column) as Hw.
  destruct (write s number row column) as [[[] s1]|e];
    [| |split; [apply same_frame_refl | intros Hlow; left; by apply Hw]].
  - destruct (_next_row_column recursion_limit s1 row column Forward)
      as [[row' column']|e] eqn:Hn.
    + split; [exact Hw|]. intros _. by apply above_int64_min.
    + split; [exact Hw|]. intros _. right. by apply next_row_column_raises in Hn.
  - destruct (number <? 9); [split; [apply same_frame_refl | lia]|].
    pose proof (write_same_frame s 0 row column) as Hw0.
    assert (Hzero : np.int64_min <= 0) by (by apply above_int64_min).
    destruct (write s 0 row column) as [[cleared s2]|e];
      [|split; [apply same_frame_refl | intros _; left; by apply Hw0]].
    destruct (_next_row_column recursion_limit s2 row column Backward)
      as [[row' column']|e] eqn:Hn;
      [|split; [exact Hw0 | intros _; right; by apply next_row_column_raises in Hn]].
    destruct (np.getitem2 (board s2) row' column') as [v|e] eqn:Hv.
    + split; [exact Hw0|]. intros _. apply wrap_int64_range.
    + split; [exact Hw0|]. intros _. left. by apply getitem2_raises in Hv.
Qed.

Lemma solve_iterative_loop_frame fuel : ∀ s row column number,
  let r := _solve_iterative_loop fuel s row column number in
  same_frame s r.1
  /\ (r.2 = Finished -> is_solved r.1 = true)
  /\ (np.int64_min <= number -> ∀ e, r.2 = Crashed e -> index_or_recursion e).
Proof.
  induction fuel as [|fuel IH]; intros s row column number;
    cbn [_solve_iterative_loop]; destruct (is_solved s) eqn:Hsolved; cbn zeta.
  - split; [apply same_frame_refl|]. split; [auto|discriminate].
  - split; [apply same_frame_refl|]. split; discriminate.
  - split; [apply same_frame_refl|]. split; [auto|discriminate].
  - pose proof (solve_pass_frame s row column number) as Hpass.
    destruct (_solve_iterative_body s row column number)
      as [s' row' column' number'|s' e].
    + destruct Hpass as [Hf0 Hlow'].
      destruct (IH s' row' column' number') as (Hf & Hfin & Hcr).
      split; [eapply same_frame_trans; eassumption|].
      split; [assumption|]. intros Hlow. by apply Hcr, Hlow'.
    + destruct Hpass as [Hf He]. split; [exact Hf|].
      split; [discriminate|]. intros Hlow e' [= <-]. by apply He.
Qed.

Lemma get_start_loop_raises fuel : ∀ s row column e,
  _get_start_loop fuel s row column = Some (Raise e) -> index_or_recursion e.
Proof.
  induction fuel as [|fuel IH]; intros s row column e;
    cbn [_get_start_loop]; [discriminate|].
  destruct (np.getitem2 (board s) row column) as [v|e'] eqn:Hv.
  - destruct (bool_decide (v = 0)); [discriminate|].
    destruct (_next_row_column recursion_limit s row column Forward)
      as [[row' column']|e'] eqn:Hn; [apply IH|].
    intros [= <-]. right. by apply next_row_column_raises in Hn.
  - intros [= <-]. left. by apply getitem2_raises in Hv.
Qed.

Lemma solve_frame fuel s :
  same_frame s (solve fuel s).1
  /\ ((solve fuel s).2 = Finished -> is_solved (solve fuel s).1 = true)
  /\ (∀ e, (solve fuel s).2 = Crashed e -> index_or_recursion e).
Proof.
  unfold solve, _get_start_row_column, _solve_iterative.
  destruct (is_solved s) eqn:Hsolved; cbn [negb].
  - split; [apply same_frame_refl|]. split; [auto|discriminate].
  - destruct (_get_start_loop fuel s 0 0) as [[[row column]|e]|] eqn:Hstart.
    + destruct (solve_iterative_loop_frame fuel s row column 1)
        as (Hf & Hfin & Hcr).
      split; [exact Hf|]. split; [exact Hfin|].
      apply Hcr. by apply above_int64_min.
    + split; [apply same_frame_refl|]. split; [discriminate|].
      intros e' [= <-]. by apply get_start_loop_raises in Hstart.
    + split; [apply same_frame_refl|]. split; discriminate.
Qed.

Lemma remove_numbers_loop_frame rnd fuel : ∀ s n k,
  let r := _remove_numbers_loop fuel rnd s n k in
  same_frame s r.1.1 /\ (∀ e, r.2 = Crashed e -> e = IndexError).
Proof.
  induction fuel as [|fuel IH]; intros s n k; cbn [_remove_numbers_loop];
    destruct (bool_decide (n = 0)); cbn zeta;
    try (split; [apply same_frame_refl | discriminate]).
  destruct (np.getitem2 (board s) (randint rnd k) (randint rnd (S k)))
    as [v|e] eqn:Hv;
    [|split; [apply same_frame_refl|]; intros e' [= <-];
      by apply getitem2_raises in Hv].
  destruct (bool_decide (v = 0)); [apply IH|].
  pose proof (write_same_frame s 0 (randint rnd k) (randint rnd (S k))) as Hw.
  destruct (write s 0 (randint rnd k) (randint rnd (S k))) as [[[] s']|e].
  - destruct (IH s' (n - 1) (S (S k))) as [Hf He].
    split; [eapply same_frame_trans; eassumption | exact He].
  - apply IH.
  - split; [apply same_frame_refl|]. intros e' [= <-].
    apply Hw. by apply above_int64_min.
Qed.

(** ** The variant token *)

Lemma class_of_type_spec sudoku_type :
  (sudoku_type = "standard"%string /\ class_of_type sudoku_type = Ok Standard)
  \/ (sudoku_type = "diagonal"%string /\ class_of_type sudoku_type = Ok Diagonal)
  \/ (sudoku_type ≠ "standard"%string /\ sudoku_type ≠ "diagonal"%string
      /\ class_of_type sudoku_type = Raise ValueError).
Proof.
  unfold class_of_type.
  case_bool_decide as H1; [left; by subst|].
  case_bool_decide as H2; [right; left; by subst|].
  right; right. auto.
Qed.

Lemma Sudoku_init_class cls a :
  match Sudoku_init cls a with
  | Ok s => class_of s = cls
  | Raise e => e = AssertionError
  end.
Proof.
  destruct a as [a|]; simpl; [|reflexivity].
  destruct (np.shape_is_9x9 a); reflexivity.
Qed.

(** With the class fixed, what [create_random_sudoku] does after the
    seeding: it raises nothing but assertion, index or recursion errors,
    and a grid it returns has that class. *)
Lemma maker_pipeline fuel rnd hints cls b k :
  match
    match Sudoku_init cls (Some b) with
    | Raise e => Raises e
    | Ok sudoku =>
        match solve fuel sudoku with
        | (_, Unfinished) => Diverges
        | (_, Crashed e) => Raises e
        | (solved, Finished) =>
            match _remove_numbers fuel rnd solved hints k with
            | (_, _, Unfinished) => Diverges
            | (_, _, Crashed e) => Raises e
            | (puzzle, _, Finished) =>
                of_result (Sudoku_init (class_of puzzle) (Some (board puzzle)))
            end
        end
    end
  with
  | Returns puzzle => class_of puzzle = cls
  | Raises e => e ≠ ValueError
  | Diverges => True
  end.
Proof.
  pose proof (Sudoku_init_class cls (Some b)) as Hinit.
  destruct (Sudoku_init cls (Some b)) as [sudoku|e]; [|by subst].
  pose proof (solve_frame fuel sudoku) as (Hframe & _ & Hcrash).
  destruct (solve fuel sudoku) as [solved [| e |]]; cbn [fst snd] in *.
  - unfold _remove_numbers.
    pose proof (remove_numbers_loop_frame rnd fuel solved (81 - hints) k)
      as [Hframe' Hcrash'].
    destruct (_remove_numbers_loop fuel rnd solved (81 - hints) k)
      as [[puzzle k'] [| e |]]; cbn [fst snd] in *.
    + pose proof (Sudoku_init_class (class_of puzzle) (Some (board puzzle))) as Hfin.
      destruct (Sudoku_init (class_of puzzle) (Some (board puzzle))) as [final|e];
        cbn [of_result]; [|by subst].
      destruct Hframe as [Hc _], Hframe' as [Hc' _]. congruence.
    + by rewrite (Hcrash' e eq_refl).
    + exact I.
  - destruct (Hcrash e eq_refl); by subst.
  - exact I.
Qed.

(** ** Counting cells *)

Lemma count_if_ext {A} (P Q : A -> bool) l :
  (∀ x, x ∈ l -> P x = Q x) -> count_if P l = count_if Q l.
Proof.
  induction l as [|x l IH]; intros H; simpl; [reflexivity|].
  rewrite (H x) by (by left). rewrite IH; [reflexivity|].
  intros y Hy. apply H. by right.
Qed.

Lemma count_if_le {A} (P : A -> bool) l : (count_if P l <= length l)%nat.
Proof. induction l as [|x l IH]; simpl; [lia|]. destruct (P x); lia. Qed.

Lemma count_if_fmap {A B} (f : A -> B) (P : B -> bool) l :
  count_if P (f <$> l) = count_if (λ x, P (f x)) l.
Proof.
  induction l as [|x l IH]; [reflexivity|].
  rewrite fmap_cons. cbn [count_if]. by rewrite IH.
Qed.

Lemma count_if_negb {A} (P : A -> bool) l :
  (count_if P l + count_if (λ x, negb (P x)) l = length l)%nat.
Proof. induction l as [|x l IH]; simpl; [reflexivity|]. destruct (P x); simpl; lia. Qed.

Lemma count_if_all {A} (P : A -> bool) l :
  (∀ x, x ∈ l -> P x = true) -> count_if P l = length l.
Proof.
  induction l as [|x l IH]; intros H; simpl; [reflexivity|].
  rewrite (H x) by (by left). rewrite IH; [reflexivity|].
  intros y Hy. apply H. by right.
Qed.

Lemma count_if_pos {A} (P : A -> bool) l :
  (0 < count_if P l)%nat -> ∃ x, x ∈ l /\ P x = true.
Proof.
  induction l as [|x l IH]; simpl; [lia|].
  destruct (P x) eqn:Hx.
  - intros _. exists x. split; [by left|exact Hx].
  - intros H. destruct (IH H) as (y & Hy & HP). exists y. split; [by right|exact HP].
Qed.

(** Two predicates that differ at one element of a duplicate-free list. *)
Lemma count_if_flip {A} (P Q : A -> bool) l p :
  NoDup l -> p ∈ l -> P p = true -> Q p = false ->
  (∀ q, q ∈ l -> q ≠ p -> Q q = P q) ->
  count_if P l = S (count_if Q l).
Proof.
  induction l as [|x l IH]; intros Hnd Hin HP HQ Hsame; [by apply elem_of_nil in Hin|].
  apply NoDup_cons in Hnd as [Hx Hnd]. simpl.
  apply elem_of_cons in Hin as [->|Hin].
  - rewrite HP, HQ. simpl. f_equal. apply count_if_ext.
    intros y Hy. symmetry. apply Hsame; [by right|]. intros ->. contradiction.
  - assert (Hne : x ≠ p) by (intros ->; contradiction).
    rewrite (Hsame x); [|by left|exact Hne].
    rewrite (IH Hnd Hin HP HQ); [lia|].
    intros q Hq. apply Hsame. by right.
Qed.

(** The members of a duplicate-free list [g] among those of [l]. *)
Lemma count_if_members {A} `{EqDecision A} (g l : list A) :
  NoDup g -> NoDup l -> (∀ x, x ∈ g -> x ∈ l) ->
  count_if (λ x, bool_decide (x ∈ g)) l = length g.
Proof.
  revert l. induction g as [|a g IH]; intros l Hg Hl Hsub.
  - rewrite (count_if_ext _ (λ _, false)).
    + clear. induction l as [|x l IHl]; [reflexivity | exact IHl].
    + intros x _. apply bool_decide_eq_false_2, not_elem_of_nil.
  - apply NoDup_cons in Hg as [Ha Hg]. simpl.
    rewrite (count_if_flip _ (λ x, bool_decide (x ∈ g)) l a Hl).
    + f_equal. apply IH; [exact Hg|exact Hl|]. intros x Hx. apply Hsub. by right.
    + apply Hsub. by left.
    + apply bool_decide_eq_true_2. by left.
    + by apply bool_decide_eq_false_2.
    + intros q _ Hne. apply bool_decide_ext. rewrite elem_of_cons. tauto.
Qed.

Lemma all_grid_NoDup : NoDup all_grid.
Proof. apply (bool_decide_unpack _). vm_compute. exact I. Qed.

Lemma all_grid_spec r c : (r, c) ∈ all_grid <-> in_grid r c.
Proof.
  split; [|intros H; by apply list_elem_of_In, in_all_grid].
  intros H.
  assert (Hall : Forall (λ p : Z * Z, in_grid p.1 p.2) all_grid).
  { apply Forall_forall. intros p Hp. apply list_elem_of_In in Hp.
    vm_compute in Hp. unfold in_grid.
    repeat (destruct Hp as [<-|Hp]; [simpl; lia|]). destruct Hp. }
  rewrite Forall_forall in Hall. apply (Hall _ H).
Qed.

Lemma count_cells b : (count_nonzero b + count_empty b = 81)%nat.
Proof. unfold count_nonzero, count_empty. by rewrite count_if_negb. Qed.

Lemma nonzero_row_NoDup r : ∀ i j, NoDup (np.nonzero_row i j r).
Proof.
  induction r as [|x r IH]; intros i j; simpl; [constructor|].
  apply NoDup_app. split; [|split; [|apply IH]].
  - case_bool_decide; [constructor|]. apply NoDup_singleton.
  - intros [i' j'] Hin Hin'.
    apply nonzero_row_spec in Hin' as (-> & k & y & _ & _ & ->).
    case_bool_decide; [by apply elem_of_nil in Hin|].
    apply list_elem_of_singleton in Hin. injection Hin. lia.
Qed.

Lemma nonzero_from_NoDup a : ∀ i, NoDup (np.nonzero_from i a).
Proof.
  induction a as [|r a IH]; intros i; simpl; [constructor|].
  apply NoDup_app. split; [apply nonzero_row_NoDup|]. split; [|apply IH].
  intros [i' j'] Hin Hin'.
  apply nonzero_row_spec in Hin as (-> & _).
  apply nonzero_from_spec in Hin' as (k & r' & y & _ & Hrow & _). lia.
Qed.

Lemma nonzero_in_grid b row column :
  np.shape_is_9x9 b = true -> (row, column) ∈ np.nonzero b -> in_grid row column.
Proof.
  intros Hb Hin. apply nonzero_spec in Hin as (Hr & Hc & v & Hv & _).
  rewrite (shape_tab b Hb) in Hv.
  apply getitem2_nonneg in Hv as (r & Hrow & Hcell); [|exact Hr|exact Hc].
  apply lookup_lt_Some in Hrow as Hlt.
  change (length (tab (cellN b))) with 9%nat in Hlt.
  assert (Hlen : length r = 9%nat).
  { pose proof (tab_shape (cellN b)) as Hall.
    apply shape_is_9x9_spec in Hall as [_ Hall].
    rewrite Forall_forall in Hall. eapply Hall, list_elem_of_lookup_2, Hrow. }
  apply lookup_lt_Some in Hcell. unfold in_grid. lia.
Qed.

Lemma nonzero_at_spec b row column :
  nonzero_at b (row, column) = true <->
  ∃ v, np.getitem2 b row column = Ok v /\ v ≠ 0.
Proof.
  unfold nonzero_at. simpl. destruct (np.getitem2 b row column) as [v|e].
  - rewrite negb_true_iff, bool_decide_eq_false. split.
    + intros H. eauto.
    + by intros (v' & [= <-] & H).
  - split; [discriminate|]. by intros (v & H & _).
Qed.

(** The recorded positions are as many as the non-empty cells. *)
Lemma nonzero_length b :
  np.shape_is_9x9 b = true -> length (np.nonzero b) = count_nonzero b.
Proof.
  intros Hb. unfold count_nonzero.
  rewrite <- (count_if_members (np.nonzero b) all_grid).
  - apply count_if_ext. intros [r c] Hin. apply all_grid_spec in Hin.
    apply eq_true_iff_eq. rewrite nonzero_at_spec, bool_decide_eq_true, nonzero_spec.
    destruct Hin as [[? ?] [? ?]]. tauto.
  - apply nonzero_from_NoDup.
  - exact all_grid_NoDup.
  - intros [r c] Hin. by apply all_grid_spec, (nonzero_in_grid b).
Qed.

Lemma is_given_spec s row column :
  is_given s row column = true <-> (row, column) ∈ given_numbers_indices s.
Proof. unfold is_given. apply bool_decide_eq_true. Qed.

(** What a successful [write(0, ...)] on a non-empty cell does to the
    counts. *)
Lemma removal_counts s row column s' :
  well_shaped s -> in_grid row column ->
  nonzero_at (board s) (row, column) = true ->
  write s 0 row column = Ok (true, s') ->
  count_nonzero (board s) = S (count_nonzero (board s'))
  /\ removable s = S (removable s').
Proof.
  intros Hs Hpos Hnz Hwrite.
  destruct (write_effect s 0 row column Hs Hpos int64_min_zero)
    as (legal & s2 & Hlegal & Hwrite2 & Htrue & _).
  rewrite Hwrite in Hwrite2. injection Hwrite2 as <- <-.
  destruct (Htrue eq_refl) as (Hzero & Hother & Hgiven & _ & _).
  assert (Hfree : is_given s row column = false).
  { destruct (is_given s row column) eqn:Hg; [|reflexivity].
    apply is_given_spec in Hg.
    rewrite (write_given s 0 row column Hg) in Hwrite. discriminate. }
  assert (Hin : (row, column) ∈ all_grid) by (by apply all_grid_spec).
  assert (Hz' : nonzero_at (board s') (row, column) = false).
  { unfold nonzero_at. simpl. by rewrite Hzero. }
  assert (Hsame : ∀ q, q ∈ all_grid -> q ≠ (row, column) ->
                       nonzero_at (board s') q = nonzero_at (board s) q).
  { intros [r c] Hq Hne. apply all_grid_spec in Hq.
    unfold nonzero_at. simpl. by rewrite (Hother r c Hq Hne). }
  split.
  - apply (count_if_flip _ _ all_grid (row, column) all_grid_NoDup Hin Hnz Hz'), Hsame.
  - apply (count_if_flip _ _ all_grid (row, column) all_grid_NoDup Hin).
    + simpl. by rewrite Hnz, Hfree.
    + simpl. by rewrite Hz'.
    + intros q Hq Hne. rewrite (Hsame q Hq Hne). unfold is_given. by rewrite Hgiven.
Qed.

Lemma write_zero_result s row column :
  well_shaped s -> in_grid row column ->
  ∃ s', write s 0 row column = Ok (negb (is_given s row column), s').
Proof.
  intros Hs Hpos.
  destruct (write_effect s 0 row column Hs Hpos int64_min_zero)
    as (legal & s' & Hlegal & Hwrite & _).
  exists s'. rewrite Hwrite. do 2 f_equal.
  pose proof (is_move_legal_iff s 0 row column Hs Hpos int64_min_zero) as Hiff.
  destruct (is_given s row column) eqn:Hg; simpl.
  - apply is_given_spec in Hg. destruct legal; [|reflexivity].
    apply Hiff in Hlegal as [Hfree _]. contradiction.
  - destruct legal; [reflexivity|].
    assert (Hok : _is_move_legal s 0 row column = Ok true); [|congruence].
    apply Hiff. split; [|by left]. intros Hin. apply is_given_spec in Hin. congruence.
Qed.

(** The removal loop cannot finish unless enough cells are removable;
    when it finishes it has emptied exactly [n] cells. *)
Lemma remove_numbers_loop_finished rnd (Hrnd : draws_in_range rnd) fuel :
  ∀ s n k s' k',
    well_shaped s ->
    _remove_numbers_loop fuel rnd s n k = (s', k', Finished) ->
    0 <= n <= Z.of_nat (removable s)
    /\ Z.of_nat (count_nonzero (board s')) = Z.of_nat (count_nonzero (board s)) - n.
Proof.
  induction fuel as [|fuel IH]; intros s n k s' k' Hs;
    cbn [_remove_numbers_loop]; case_bool_decide as Hn; try discriminate;
    try (intros [= <- <-]; subst; lia).
  assert (Hpos : in_grid (randint rnd k) (randint rnd (S k))) by (split; apply Hrnd).
  destruct (getitem2_total (board s) (randint rnd k) (randint rnd (S k)) Hs)
    as [v Hv]; [destruct Hpos; lia | apply Hpos |].
  rewrite Hv. case_bool_decide as Hvz; [by apply IH|].
  destruct (write_zero_result s _ _ Hs Hpos) as [s1 Hwrite]. rewrite Hwrite.
  destruct (is_given s (randint rnd k) (randint rnd (S k))); cbn [negb];
    [by apply IH|].
  assert (Hnz : nonzero_at (board s) (randint rnd k, randint rnd (S k)) = true).
  { apply nonzero_at_spec. eauto. }
  destruct (removal_counts s _ _ s1 Hs Hpos Hnz Hwrite) as [Hcount Hrem].
  intros Hrun. apply IH in Hrun as [Hbound Hres].
  - rewrite Hcount, Hrem. lia.
  - destruct (write_keeps_given s 0 _ _ Hs Hpos int64_min_zero) as (? & ? & Hw & Hk).
    rewrite Hwrite in Hw. injection Hw as <- <-. apply Hk.
Qed.

(** ** The removal loop under a fair random source *)

Lemma fair_next rnd k : fair rnd k -> fair rnd (S (S k)).
Proof.
  intros Hfair j0 r c Hin.
  destruct (Hfair (S j0) r c Hin) as (j & Hj & Hr & Hc).
  destruct j as [|j]; [lia|]. exists j. split; [lia|].
  replace (S (S k) + 2 * j)%nat with (k + 2 * S j)%nat by lia. auto.
Qed.

(** One pass of the removal loop at a grid position. *)
Lemma remove_numbers_loop_pass rnd fuel s n k :
  draws_in_range rnd -> well_shaped s -> n ≠ 0 ->
  let row := randint rnd k in
  let column := randint rnd (S k) in
  ∃ s1, write s 0 row column = Ok (negb (is_given s row column), s1)
        /\ _remove_numbers_loop (S fuel) rnd s n k =
           if nonzero_at (board s) (row, column) && negb (is_given s row column)
           then _remove_numbers_loop fuel rnd s1 (n - 1) (S (S k))
           else _remove_numbers_loop fuel rnd s n (S (S k)).
Proof.
  intros Hrnd Hs Hn row column.
  assert (Hpos : in_grid row column) by (split; apply Hrnd).
  destruct (write_zero_result s row column Hs Hpos) as [s1 Hwrite].
  exists s1. split; [exact Hwrite|].
  cbn [_remove_numbers_loop]. rewrite (bool_decide_eq_false_2 _ Hn).
  fold row column. unfold nonzero_at. cbn [fst snd].
  destruct (getitem2_total (board s) row column Hs) as [v ->];
    [destruct Hpos; lia | apply Hpos |].
  case_bool_decide; cbn [negb andb]; [reflexivity|].
  rewrite Hwrite. by destruct (is_given s row column).
Qed.

Lemma remove_numbers_loop_terminates rnd (Hrnd : draws_in_range rnd) m :
  ∀ s k, well_shaped s -> fair rnd k -> (m <= removable s)%nat ->
    ∃ fuel s' k',
      _remove_numbers_loop fuel rnd s (Z.of_nat m) k = (s', k', Finished).
Proof.
  induction m as [|m IHm]; intros s k Hs Hfair Hm.
  { exists 0%nat, s, k. reflexivity. }
  assert (Hn : Z.of_nat (S m) ≠ 0) by lia.
  assert (Hex : ∃ p, p ∈ all_grid
    /\ nonzero_at (board s) p && negb (is_given s p.1 p.2) = true).
  { apply (count_if_pos (λ p, nonzero_at (board s) p && negb (is_given s p.1 p.2))).
    unfold removable in Hm. lia. }
  destruct Hex as ([r c] & Hin & Hp).
  apply all_grid_spec in Hin.
  destruct (Hfair 0%nat r c Hin) as (j & _ & Hr & Hc).
  clear Hin. revert k Hfair Hr Hc.
  induction j as [|j IHj]; intros k Hfair Hr Hc.
  - destruct (remove_numbers_loop_pass rnd 0 s _ k Hrnd Hs Hn) as (s1 & Hwrite & _).
    rewrite Nat.mul_0_r, Nat.add_0_r in Hr, Hc. rewrite Hr, Hc in Hwrite.
    simpl in Hp. apply andb_true_iff in Hp as [Hnz Hfree]. rewrite Hfree in Hwrite.
    destruct (removal_counts s r c s1 Hs ltac:(split; [rewrite <- Hr|rewrite <- Hc]; apply Hrnd) Hnz Hwrite)
      as [_ Hrem].
    destruct (write_keeps_given s 0 r c Hs
                ltac:(split; [rewrite <- Hr|rewrite <- Hc]; apply Hrnd)
                int64_min_zero)
      as (? & ? & Hw & Hs1 & _).
    rewrite Hwrite in Hw. injection Hw as <- <-.
    destruct (IHm s1 (S (S k)) Hs1 (fair_next _ _ Hfair) ltac:(lia))
      as (fuel & s' & k' & Hrun).
    exists (S fuel), s', k'.
    destruct (remove_numbers_loop_pass rnd fuel s _ k Hrnd Hs Hn) as (s1' & Hwrite' & ->).
    rewrite Hr, Hc in *. rewrite Hnz, Hfree in *. cbn [andb].
    rewrite Hwrite in Hwrite'. injection Hwrite' as <-.
    replace (Z.of_nat (S m) - 1) with (Z.of_nat m) by lia. exact Hrun.
  - destruct (remove_numbers_loop_pass rnd 0 s _ k Hrnd Hs Hn) as (s1 & Hwrite & _).
    destruct (nonzero_at (board s) (randint rnd k, randint rnd (S k))
              && negb (is_given s (randint rnd k) (randint rnd (S k)))) eqn:Hthis.
    + apply andb_true_iff in Hthis as [Hnz Hfree]. rewrite Hfree in Hwrite.
      assert (Hpos : in_grid (randint rnd k) (randint rnd (S k)))
        by (split; apply Hrnd).
      destruct (removal_counts s _ _ s1 Hs Hpos Hnz Hwrite) as [_ Hrem].
      destruct (write_keeps_given s 0 _ _ Hs Hpos int64_min_zero) as (? & ? & Hw & Hs1 & _).
      rewrite Hwrite in Hw. injection Hw as <- <-.
      destruct (IHm s1 (S (S k)) Hs1 (fair_next _ _ Hfair) ltac:(lia))
        as (fuel & s' & k' & Hrun).
      exists (S fuel), s', k'.
      destruct (remove_numbers_loop_pass rnd fuel s _ k Hrnd Hs Hn)
        as (s1' & Hwrite' & ->).
      rewrite Hnz, Hfree in *. cbn [andb].
      rewrite Hwrite in Hwrite'. injection Hwrite' as <-.
      replace (Z.of_nat (S m) - 1) with (Z.of_nat m) by lia. exact Hrun.
    + destruct (IHj (S (S k)) (fair_next _ _ Hfair)) as (fuel & s' & k' & Hrun).
      { rewrite <- Hr. f_equal. lia. }
      { rewrite <- Hc. f_equal. lia. }
      exists (S fuel), s', k'.
      destruct (remove_numbers_loop_pass rnd fuel s _ k Hrnd Hs Hn)
        as (s1' & _ & ->).
      rewrite Hthis. exact Hrun.
Qed.

Lemma remove_numbers_loop_more rnd fuel : ∀ fuel' s n k r,
  _remove_numbers_loop fuel rnd s n k = r -> r.2 ≠ Unfinished ->
  (fuel <= fuel')%nat ->
  _remove_numbers_loop fuel' rnd s n k = r.
Proof.
  induction fuel as [|fuel IH]; intros fuel' s n k r Hrun He Hle.
  - cbn [_remove_numbers_loop] in Hrun.
    destruct fuel'; cbn [_remove_numbers_loop];
      destruct (bool_decide (n = 0)); subst; try reflexivity; by destruct He.
  - destruct fuel' as [|fuel']; [lia|]. cbn [_remove_numbers_loop] in *.
    destruct (bool_decide (n = 0)); [exact Hrun|].
    destruct (np.getitem2 (board s) (randint rnd k) (randint rnd (S k)))
      as [v|e]; [|exact Hrun].
    destruct (bool_decide (v = 0)); [apply IH; [exact Hrun|exact He|lia]|].
    destruct (write s 0 (randint rnd k) (randint rnd (S k))) as [[[] s1]|e];
      [| |exact Hrun]; (apply IH; [exact Hrun|exact He|lia]).
Qed.

Lemma remove_numbers_loop_no_crash rnd (Hrnd : draws_in_range rnd) fuel :
  ∀ s n k e, well_shaped s ->
    (_remove_numbers_loop fuel rnd s n k).2 ≠ Crashed e.
Proof.
  induction fuel as [|fuel IH]; intros s n k e Hs.
  - cbn [_remove_numbers_loop]. destruct (bool_decide (n = 0)); discriminate.
  - destruct (decide (n = 0)) as [->|Hn]; [discriminate|].
    destruct (remove_numbers_loop_pass rnd fuel s n k Hrnd Hs Hn)
      as (s1 & Hwrite & ->).
    assert (Hpos : in_grid (randint rnd k) (randint rnd (S k)))
      by (split; apply Hrnd).
    destruct (write_keeps_given s 0 _ _ Hs Hpos int64_min_zero) as (? & ? & Hw & Hs1 & _).
    rewrite Hwrite in Hw. injection Hw as <- <-.
    destruct (_ && _); by apply IH.
Qed.

(** ** Seeding *)

Lemma create_board_loop_more rnd fuel : ∀ fuel' b numbers k x,
  _create_board_loop fuel rnd b numbers k = Some x -> (fuel <= fuel')%nat ->
  _create_board_loop fuel' rnd b numbers k = Some x.
Proof.
  induction fuel as [|fuel IH]; intros fuel' b numbers k x Hrun Hle.
  - destruct numbers; [|discriminate]. by destruct fuel'.
  - destruct fuel' as [|fuel']; [lia|].
    destruct numbers as [|n0 rest]; [exact Hrun|].
    cbn [_create_board_loop] in *.
    destruct (np.getitem2 b (randint rnd k) (randint rnd (S k))) as [v|e];
      [|exact Hrun].
    destruct (bool_decide (v = 0)).
    + destruct (np.setitem2 b (randint rnd k) (randint rnd (S k)) n0);
        [|exact Hrun].
      apply IH; [exact Hrun|lia].
    + apply IH; [exact Hrun|lia].
Qed.

Lemma placement_count b row column v b' :
  np.shape_is_9x9 b = true -> in_grid row column ->
  np.getitem2 b row column = Ok 0 -> v ≠ 0 ->
  np.setitem2 b row column v = Ok b' ->
  np.shape_is_9x9 b' = true /\ count_nonzero b' = S (count_nonzero b).
Proof.
  intros Hb Hpos Hzero Hv Hset.
  destruct (setitem2_frame b row column v Hb Hpos (setitem2_ok_fits _ _ _ _ _ Hset))
    as (b2 & Hset2 & Hshape & Hsame & Hother).
  rewrite Hset in Hset2. injection Hset2 as <-.
  split; [exact Hshape|].
  apply (count_if_flip _ _ all_grid (row, column) all_grid_NoDup).
  - by apply all_grid_spec.
  - apply nonzero_at_spec. eauto.
  - unfold nonzero_at. simpl. by rewrite Hzero.
  - intros [r c] Hq Hne. apply all_grid_spec in Hq.
    unfold nonzero_at. simpl. by rewrite (Hother r c Hq Hne).
Qed.

Lemma create_board_loop_spec rnd (Hrnd : draws_in_range rnd) fuel :
  ∀ b numbers k b' k',
    np.shape_is_9x9 b = true -> Forall (λ n, n ≠ 0) numbers ->
    _create_board_loop fuel rnd b numbers k = Some (Ok (b', k')) ->
    np.shape_is_9x9 b' = true
    /\ count_nonzero b' = (count_nonzero b + length numbers)%nat.
Proof.
  induction fuel as [|fuel IH]; intros b numbers k b' k' Hb Hnum.
  - destruct numbers; [|discriminate]. intros [= <- <-]. simpl. split; [exact Hb|lia].
  - destruct numbers as [|n0 rest].
    { intros [= <- <-]. simpl. split; [exact Hb|lia]. }
    cbn [_create_board_loop].
    assert (Hpos : in_grid (randint rnd k) (randint rnd (S k)))
      by (split; apply Hrnd).
    destruct (np.getitem2 b (randint rnd k) (randint rnd (S k))) as [v|e] eqn:Hv;
      [|discriminate].
    case_bool_decide as Hz.
    + subst v.
      destruct (np.setitem2 b (randint rnd k) (randint rnd (S k)) n0)
        as [b1|e] eqn:Hset; [|discriminate].
      apply Forall_cons in Hnum as [Hn0 Hrest].
      destruct (placement_count b _ _ n0 b1 Hb Hpos Hv Hn0 Hset) as [Hb1 Hcount].
      intros Hrun. apply IH in Hrun as [Hb' Hc]; [|exact Hb1|exact Hrest].
      split; [exact Hb'|]. rewrite Hc, Hcount. simpl. lia.
    + intros Hrun. apply IH in Hrun; assumption.
Qed.

(** The board the seeding returns is 9x9 and holds exactly 8 entries. *)
Lemma create_board_spec rnd fuel b k :
  draws_in_range rnd -> shuffle_permutes rnd ->
  _create_board fuel rnd = Some (Ok (b, k)) ->
  np.shape_is_9x9 b = true /\ count_nonzero b = 8%nat.
Proof.
  intros Hrnd Hperm. unfold _create_board. intros Hrun.
  pose proof (Hperm (seqZ 1 9)) as Hp.
  apply (create_board_loop_spec rnd Hrnd) in Hrun as [Hb Hc].
  - split; [exact Hb|]. rewrite Hc.
    rewrite length_take, (Permutation_length Hp). reflexivity.
  - reflexivity.
  - apply Forall_take. rewrite Hp. by repeat constructor.
Qed.

Lemma create_board_more rnd fuel fuel' x :
  _create_board fuel rnd = Some x -> (fuel <= fuel')%nat ->
  _create_board fuel' rnd = Some x.
Proof. apply create_board_loop_more. Qed.

(** In a solved grid every cell is non-empty. *)
Lemma solved_nonzero s p :
  well_shaped s -> is_solved s = true -> p ∈ all_grid ->
  nonzero_at (board s) p = true.
Proof.
  intros Hs Hsolved Hin. destruct p as [r c]. apply all_grid_spec in Hin.
  destruct (getitem2_total (board s) r c Hs) as [v Hv];
    [destruct Hin; lia | apply Hin |].
  apply nonzero_at_spec. exists v. split; [exact Hv|]. intros ->.
  apply getitem2_nonneg in Hv as (row & Hrow & Hcell); [|apply Hin..].
  unfold is_solved in Hsolved. apply negb_true_iff in Hsolved.
  assert (np.contains_zero (board s) = true); [|congruence].
  unfold np.contains_zero. apply existsb_exists. exists row.
  split; [eapply list_elem_of_In, list_elem_of_lookup_2, Hrow|].
  apply existsb_exists. exists 0.
  split; [eapply list_elem_of_In, list_elem_of_lookup_2, Hcell|].
  by apply bool_decide_eq_true.
Qed.

Lemma solved_counts s :
  well_shaped s -> is_solved s = true ->
  NoDup (given_numbers_indices s) -> given_in_grid s ->
  count_nonzero (board s) = 81%nat
  /\ (removable s + length (given_numbers_indices s) = 81)%nat.
Proof.
  intros Hs Hsolved Hnd Hgrid. split.
  - unfold count_nonzero. rewrite count_if_all; [reflexivity|].
    intros p Hp. by apply solved_nonzero.
  - unfold removable.
    rewrite (count_if_ext _ (λ p, negb (bool_decide (p ∈ given_numbers_indices s)))).
    + pose proof (count_if_negb (λ p, bool_decide (p ∈ given_numbers_indices s))
                    all_grid) as Hsum.
      rewrite (count_if_members _ all_grid Hnd all_grid_NoDup) in Hsum.
      * change (length all_grid) with 81%nat in Hsum. lia.
      * intros [r c] Hin. by apply all_grid_spec, Hgrid.
    + intros [r c] Hp. rewrite (solved_nonzero s _ Hs Hsolved Hp). reflexivity.
Qed.

(** ** C1: how many cells the maker removes *)

(** C1 (amended): let the seeding have produced its board and the solver
    have completed it, and let the random source keep drawing every grid
    position.  Then for every [hints] in 8..81 the removal loop terminates:
    it empties exactly [81 - hints] cells of the full grid, and
    [create_random_sudoku] returns a grid with exactly [hints] non-empty
    cells, all of them given, and [81 - hints] empty cells. *)
Theorem create_random_sudoku_hints rnd hints sudoku_type cls fuel0 b k solved :
  draws_in_range rnd -> shuffle_permutes rnd ->
  _create_board fuel0 rnd = Some (Ok (b, k)) ->
  class_of_type sudoku_type = Ok cls ->
  solve fuel0 (mkSudoku cls b (np.nonzero b)) = (solved, Finished) ->
  fair rnd k -> 8 <= hints <= 81 ->
  ∃ fuel removed k' puzzle,
    _remove_numbers fuel rnd solved hints k = (removed, k', Finished)
    /\ count_empty (board solved) = 0%nat
    /\ Z.of_nat (count_empty (board removed)) = 81 - hints
    /\ create_random_sudoku fuel rnd hints sudoku_type = Returns puzzle
    /\ board puzzle = board removed
    /\ Z.of_nat (count_nonzero (board puzzle)) = hints
    /\ Z.of_nat (length (given_numbers_indices puzzle)) = hints
    /\ Z.of_nat (count_empty (board puzzle)) = 81 - hints.
Proof.
  intros Hrnd Hperm Hseed Hcls Hsolve Hfair Hhints.
  destruct (create_board_spec rnd fuel0 b k Hrnd Hperm Hseed) as [Hb Hb8].
  set (s0 := mkSudoku cls b (np.nonzero b)) in *.
  assert (Hinit : Sudoku_init cls (Some b) = Ok s0).
  { unfold Sudoku_init. by rewrite Hb. }
  pose proof (solve_frame fuel0 s0) as (Hframe & Hfin & _).
  rewrite Hsolve in Hframe, Hfin. cbn [fst snd] in Hframe, Hfin.
  destruct Hframe as (Hclass & Hgiven & Hshape).
  assert (Hs : well_shaped solved) by (by apply Hshape).
  assert (Hsolved : is_solved solved = true) by (by apply Hfin).
  destruct (solved_counts solved Hs Hsolved) as [Hfull Hrem].
  { rewrite Hgiven. apply nonzero_from_NoDup. }
  { intros r c. rewrite Hgiven. by apply nonzero_in_grid. }
  rewrite Hgiven in Hrem. cbn [s0 given_numbers_indices] in Hrem.
  rewrite (nonzero_length b Hb), Hb8 in Hrem.
  destruct (remove_numbers_loop_terminates rnd Hrnd (Z.to_nat (81 - hints))
              solved k Hs Hfair) as (fuel1 & removed & k' & Hrun); [lia|].
  rewrite Z2Nat.id in Hrun by lia.
  destruct (remove_numbers_loop_finished rnd Hrnd fuel1 solved _ k removed k' Hs Hrun)
    as [_ Hcount].
  pose proof (remove_numbers_loop_frame rnd fuel1 solved (81 - hints) k) as [Hframe' _].
  rewrite Hrun in Hframe'. cbn [fst] in Hframe'.
  destruct Hframe' as (Hclass' & _ & Hshape').
  assert (Hs' : well_shaped removed) by (by apply Hshape').
  set (fuel := Nat.max fuel0 fuel1).
  assert (Hrun' : _remove_numbers fuel rnd solved hints k = (removed, k', Finished)).
  { apply (remove_numbers_loop_more rnd fuel1); [exact Hrun|discriminate|lia]. }
  pose proof (count_cells (board solved)) as Hcells.
  pose proof (count_cells (board removed)) as Hcells'.
  exists fuel, removed, k',
    (mkSudoku (class_of removed) (board removed) (np.nonzero (board removed))).
  split; [exact Hrun'|]. split; [lia|]. split; [lia|]. split.
  { unfold create_random_sudoku.
    rewrite (create_board_more rnd fuel0 fuel _ Hseed) by lia.
    rewrite Hcls, Hinit.
    rewrite (solve_more fuel0 fuel s0 solved Finished Hsolve) by (discriminate || lia).
    rewrite Hrun'. unfold Sudoku_init. by rewrite Hs'. }
  cbn [board given_numbers_indices].
  split; [reflexivity|]. split; [lia|]. split; [|lia].
  rewrite (nonzero_length _ Hs'). lia.
Qed.

(** ** Sample random sources *)

Lemma cycle_draws (t : nat) :
  cycle_randint (2 * t) = (Z.of_nat t `div` 9) `mod` 9
  /\ cycle_randint (S (2 * t)) = Z.of_nat t `mod` 9.
Proof.
  unfold cycle_randint. cbn zeta. split.
  - destruct (Z.eqb_spec (Z.of_nat (2 * t) `mod` 2) 0) as [_|Hne].
    + f_equal. Z.to_euclidean_division_equations. lia.
    + exfalso. apply Hne. Z.to_euclidean_division_equations. lia.
  - destruct (Z.eqb_spec (Z.of_nat (S (2 * t)) `mod` 2) 0) as [He|_].
    + exfalso. revert He. Z.to_euclidean_division_equations. lia.
    + f_equal. Z.to_euclidean_division_equations. lia.
Qed.

Lemma cycle_source_in_range : draws_in_range cycle_source.
Proof.
  intros k. cbn [randint cycle_source]. unfold cycle_randint. cbn zeta.
  destruct (_ =? _); apply Z.mod_pos_bound; lia.
Qed.

Lemma stuck_source_in_range : draws_in_range stuck_source.
Proof.
  intros k. cbn [randint stuck_source].
  destruct (k <? 16)%nat; [apply cycle_source_in_range|lia].
Qed.

Lemma cycle_source_permutes : shuffle_permutes cycle_source.
Proof. intros l. reflexivity. Qed.

Lemma cycle_source_fair : fair cycle_source 16.
Proof.
  intros j0 r c [Hr Hc].
  set (t := (81 * (j0 + 1) + 9 * Z.to_nat r + Z.to_nat c)%nat).
  exists (t - 8)%nat. split; [lia|].
  replace (16 + 2 * (t - 8))%nat with (2 * t)%nat by lia.
  cbn [randint cycle_source].
  destruct (cycle_draws t) as [-> ->]. subst t.
  split; Z.to_euclidean_division_equations; lia.
Qed.

Lemma cycle_source_seeds :
  _create_board 4000 cycle_source = Some (Ok (seed_board, 16%nat)).
Proof. vm_compute. reflexivity. Qed.

Lemma stuck_source_seeds :
  _create_board 4000 stuck_source = Some (Ok (seed_board, 16%nat)).
Proof. vm_compute. reflexivity. Qed.

Lemma seed_sudoku_solved :
  solve 4000 seed_sudoku = (solved_seed_sudoku, Finished).
Proof. vm_compute. reflexivity. Qed.

(** When the seeding and the solving complete and the removal loop never
    ends, the maker neither returns nor raises, whatever the fuel. *)
Lemma maker_diverges rnd hints sudoku_type cls fuel0 b k s0 solved :
  _create_board fuel0 rnd = Some (Ok (b, k)) ->
  class_of_type sudoku_type = Ok cls ->
  Sudoku_init cls (Some b) = Ok s0 ->
  solve fuel0 s0 = (solved, Finished) ->
  (∀ fuel, (_remove_numbers fuel rnd solved hints k).2 = Unfinished) ->
  ∀ fuel, create_random_sudoku fuel rnd hints sudoku_type = Diverges.
Proof.
  intros Hseed Hcls Hinit Hsolve Hloop fuel. unfold create_random_sudoku.
  destruct (_create_board fuel rnd) as [x|] eqn:Hx; [|reflexivity].
  assert (x = Ok (b, k)) as ->.
  { destruct (Nat.le_ge_cases fuel fuel0) as [Hle|Hle].
    - rewrite (create_board_more rnd fuel fuel0 x Hx Hle) in Hseed. congruence.
    - rewrite (create_board_more rnd fuel0 fuel _ Hseed Hle) in Hx. congruence. }
  rewrite Hcls, Hinit.
  destruct (solve fuel s0) as [s' e] eqn:Hrun.
  assert (He : e = Unfinished \/ e ≠ Unfinished)
    by (destruct e; [right|right|left]; congruence).
  destruct He as [->|He]; [reflexivity|].
  assert (Hsame : (s', e) = (solved, Finished)).
  { destruct (Nat.le_ge_cases fuel fuel0) as [Hle|Hle].
    - rewrite (solve_more fuel fuel0 s0 s' e Hrun He Hle) in Hsolve. exact Hsolve.
    - rewrite (solve_more fuel0 fuel s0 solved Finished Hsolve) in Hrun;
        [by symmetry | discriminate | exact Hle]. }
  injection Hsame as -> ->.
  specialize (Hloop fuel).
  destruct (_remove_numbers fuel rnd solved hints k) as [[puzzle k'] e'].
  cbn [snd] in Hloop. by subst e'.
Qed.

Lemma stuck_source_loops fuel : ∀ k,
  (16 <= k)%nat ->
  (_remove_numbers_loop fuel stuck_source solved_seed_sudoku 1 k).2 = Unfinished.
Proof.
  assert (Hs : well_shaped solved_seed_sudoku) by reflexivity.
  assert (Hg : is_given solved_seed_sudoku 0 0 = true) by reflexivity.
  induction fuel as [|fuel IH]; intros k Hk; [reflexivity|].
  destruct (remove_numbers_loop_pass stuck_source fuel solved_seed_sudoku 1 k
              stuck_source_in_range Hs) as (s1 & _ & ->); [lia|].
  assert (Hdraw : ∀ i, (16 <= i)%nat -> randint stuck_source i = 0).
  { intros i Hi. cbn [randint stuck_source].
    destruct (Nat.ltb_spec i 16); [lia|reflexivity]. }
  rewrite !Hdraw by lia. rewrite Hg, andb_false_r. apply IH. lia.
Qed.

(** C1, as stated, fails twice.  With [hints = 0] the loop has to remove
    81 cells, but the 8 seeded cells are given and [write] refuses them:
    after 73 removals no draw can succeed and the loop never ends (here
    with a source that keeps drawing every position).  And with a source
    that keeps drawing the same given cell the loop never ends even for
    [hints = 80]. *)
Lemma create_random_sudoku_diverges :
  (∀ fuel, create_random_sudoku fuel cycle_source 0 "standard" = Diverges)
  /\ (∀ fuel, create_random_sudoku fuel stuck_source 80 "standard" = Diverges).
Proof.
  assert (Hs : well_shaped solved_seed_sudoku) by reflexivity.
  assert (Hcls : class_of_type "standard" = Ok Standard) by reflexivity.
  assert (Hinit : Sudoku_init Standard (Some seed_board) = Ok seed_sudoku)
    by reflexivity.
  split.
  - apply (maker_diverges cycle_source 0 "standard" Standard 4000 seed_board 16
             seed_sudoku solved_seed_sudoku cycle_source_seeds Hcls Hinit
             seed_sudoku_solved).
    intros fuel. unfold _remove_numbers.
    destruct (_remove_numbers_loop fuel cycle_source solved_seed_sudoku (81 - 0) 16)
      as [[s' k'] e] eqn:Hrun.
    destruct e as [|e|]; [| |reflexivity]; exfalso.
    + apply (remove_numbers_loop_finished cycle_source cycle_source_in_range)
        in Hrun as [Hbound _]; [|exact Hs].
      assert (Hrem : removable solved_seed_sudoku = 73%nat) by (vm_compute; reflexivity).
      rewrite Hrem in Hbound. lia.
    + apply (remove_numbers_loop_no_crash cycle_source cycle_source_in_range fuel
               solved_seed_sudoku (81 - 0) 16 e Hs).
      by rewrite Hrun.
  - apply (maker_diverges stuck_source 80 "standard" Standard 4000 seed_board 16
             seed_sudoku solved_seed_sudoku stuck_source_seeds Hcls Hinit
             seed_sudoku_solved).
    intros fuel. unfold _remove_numbers. change (81 - 80) with 1.
    by apply stuck_source_loops.
Qed.

Lemma create_random_sudoku_hints_witness :
  ∃ fuel puzzle,
    create_random_sudoku fuel cycle_source 17 "standard" = Returns puzzle
    /\ Z.of_nat (count_nonzero (board puzzle)) = 17
    /\ Z.of_nat (length (given_numbers_indices puzzle)) = 17
    /\ Z.of_nat (count_empty (board puzzle)) = 81 - 17.
Proof.
  assert (Hcls : class_of_type "standard" = Ok Standard) by reflexivity.
  assert (Hhints : 8 <= 17 <= 81) by lia.
  destruct (create_random_sudoku_hints cycle_source 17 "standard" Standard 4000
              seed_board 16 solved_seed_sudoku
              cycle_source_in_range cycle_source_permutes cycle_source_seeds
              Hcls seed_sudoku_solved cycle_source_fair Hhints)
    as (fuel & removed & k' & puzzle & _ & _ & _ & Hret & _ & Hnz & Hgiven & Hempty).
  exists fuel, puzzle. auto.
Defined.

(** * Further properties of the code *)

(** ** [_get_region] *)

Lemma box_origin (x : Z) :
  0 <= x < 9 -> x - x `mod` 3 = 0 \/ x - x `mod` 3 = 3 \/ x - x `mod` 3 = 6.
Proof. intros H. apply grid_index in H. repeat (destruct H as [H|H]); subst; auto. Qed.

Lemma small_index (i : Z) : 0 <= i < 3 -> i = 0 \/ i = 1 \/ i = 2.
Proof. lia. Qed.

(** X1: at a grid position of a 9x9 grid, [_get_region] is the 3x3 box of
    the position: it has three rows of three cells, its cell [(i, j)] is
    the cell of the board at the box origin plus [(i, j)], and all
    positions of a box get the same region. *)
Theorem get_region_is_box s row column :
  well_shaped s -> in_grid row column ->
  length (_get_region s row column) = 3%nat
  /\ Forall (λ r, length r = 3%nat) (_get_region s row column)
  /\ (∀ i j, 0 <= i < 3 -> 0 <= j < 3 ->
        np.getitem2 (_get_region s row column) i j =
        np.getitem2 (board s) (row - row `mod` 3 + i) (column - column `mod` 3 + j))
  /\ (∀ r c, in_box row column r c = true ->
        _get_region s r c = _get_region s row column).
Proof.
  intros Hs [Hr Hc]. apply well_shaped_tab in Hs as (f & ->).
  generalize (class_of s) (given_numbers_indices s). clear s. intros cls given.
  unfold _get_region. cbn [board].
  assert (Hsame : ∀ r c, in_box row column r c = true ->
    np.slice2 (tab f) (r - r `mod` 3) (r - r `mod` 3 + 3)
      (c - c `mod` 3) (c - c `mod` 3 + 3) =
    np.slice2 (tab f) (row - row `mod` 3) (row - row `mod` 3 + 3)
      (column - column `mod` 3) (column - column `mod` 3 + 3)).
  { intros r c Hbox. unfold in_box in Hbox.
    apply andb_true_iff in Hbox as [H1 H2].
    apply Z.eqb_eq in H1, H2. by rewrite H1, H2. }
  revert Hsame.
  destruct (box_origin row Hr) as [-> | [-> | ->]];
    destruct (box_origin column Hc) as [-> | [-> | ->]];
    intros Hsame;
    (split; [reflexivity|]);
    (split; [do 3 (apply List.Forall_cons; [reflexivity|]); apply List.Forall_nil|]);
    (split; [|exact Hsame]);
    intros i j Hi Hj;
    destruct (small_index i Hi) as [-> | [-> | ->]];
    destruct (small_index j Hj) as [-> | [-> | ->]]; reflexivity.
Qed.

Lemma get_region_is_box_witness :
  np.getitem2 (_get_region puzzle_sudoku 4 7) 2 0 = np.getitem2 puzzle_board 5 6
  /\ _get_region puzzle_sudoku 3 8 = _get_region puzzle_sudoku 4 7.
Proof.
  assert (Hs : well_shaped puzzle_sudoku) by reflexivity.
  assert (Hpos : in_grid 4 7) by (unfold in_grid; lia).
  destruct (get_region_is_box puzzle_sudoku 4 7 Hs Hpos) as (_ & _ & Hcell & Hsame).
  split.
  - apply (Hcell 2 0); lia.
  - apply Hsame. reflexivity.
Defined.

(** ** Negative row indices *)

Lemma not_given_outside s row column :
  given_in_grid s -> ¬ in_grid row column -> is_given s row column = false.
Proof.
  intros Hg Hout. unfold is_given. apply bool_decide_eq_false_2.
  intros Hin. by apply Hout, Hg.
Qed.

Lemma last_rows_index (x : Z) : -3 <= x <= -1 -> x = -3 \/ x = -2 \/ x = -1.
Proof. lia. Qed.

Section NegativeRows.
Variable cls : sudoku_class.
Variable f : nat -> nat -> Z.
Variable given : list (Z * Z).
Variables row column : Z.
Hypothesis Hrow : -3 <= row <= -1.
Hypothesis Hcol : 0 <= column < 9.

Lemma setitem2_tab_negative v :
  np.setitem2 (tab f) row column v = np.setitem2 (tab f) (row + 9) column v.
Proof using Hrow Hcol.
  apply grid_index in Hcol.
  destruct (last_rows_index row Hrow) as [-> | [-> | ->]];
    repeat (destruct Hcol as [Hcol|Hcol]); subst; reflexivity.
Qed.

Lemma getitem2_tab_negative :
  np.getitem2 (tab f) row column = np.getitem2 (tab f) (row + 9) column.
Proof using Hrow Hcol.
  apply grid_index in Hcol.
  destruct (last_rows_index row Hrow) as [-> | [-> | ->]];
    repeat (destruct Hcol as [Hcol|Hcol]); subst; reflexivity.
Qed.

Lemma get_region_negative :
  _get_region (mkSudoku cls (tab f) given) row column = [].
Proof using Hrow Hcol.
  apply grid_index in Hcol.
  destruct (last_rows_index row Hrow) as [-> | [-> | ->]];
    repeat (destruct Hcol as [Hcol|Hcol]); subst; reflexivity.
Qed.

End NegativeRows.

Lemma setitem2_empty i j v : np.setitem2 [] i j v = Raise IndexError.
Proof.
  assert (Hi : np.index 0 i = Raise IndexError).
  { unfold np.index. change (- Z.of_nat 0) with 0. change (Z.of_nat 0) with 0.
    destruct (Z.leb_spec 0 i), (Z.ltb_spec i 0); simpl; try reflexivity; lia. }
  unfold np.setitem2, np.getitem. cbn [length]. by rewrite Hi.
Qed.

(** A number other than 0 (a 64-bit integer, at most 9) written through a
    negative index of one of the last three rows: the region is empty and
    the legality check raises. *)
Lemma write_negative_raises s number row column :
  well_shaped s -> given_in_grid s -> -3 <= row <= -1 -> 0 <= column < 9 ->
  number ≠ 0 -> np.int64_min <= number <= 9 ->
  write s number row column = Raise IndexError.
Proof.
  intros Hs Hg Hrow Hcol Hn0 Hn9.
  assert (Hfree : is_given s row column = false).
  { apply not_given_outside; [exact Hg|]. unfold in_grid. lia. }
  assert (Hin : in_grid (row + 9) column) by (unfold in_grid; lia).
  assert (Hfits : np.fits_int64 number = true).
  { apply fits_int64_spec. unfold np.int64_max. lia. }
  destruct s as [cls b given]. unfold well_shaped in Hs. cbn [board] in Hs.
  unfold write, _is_move_legal, Sudoku_is_move_legal, DiagonalSudoku_is_move_legal.
  rewrite Hfree, (bool_decide_eq_false_2 _ Hn0).
  destruct (Z.ltb_spec 9 number); [lia|].
  cbn [board class_of]. rewrite (shape_tab b Hs).
  rewrite (setitem2_tab_negative _ row column Hrow Hcol).
  rewrite (setitem2_tab _ _ _ Hin _ Hfits). step.
  rewrite !(get_region_negative _ _ _ row column Hrow Hcol).
  rewrite setitem2_empty. by destruct cls.
Qed.

(** A number below the 64-bit integers: the assignment to the copy of
    the board, which comes first, raises. *)
Lemma write_negative_overflow s number row column :
  well_shaped s -> given_in_grid s -> -3 <= row <= -1 -> 0 <= column < 9 ->
  number < np.int64_min ->
  write s number row column = Raise OverflowError.
Proof.
  intros Hs Hg Hrow Hcol Hlow.
  assert (Hfree : is_given s row column = false).
  { apply not_given_outside; [exact Hg|]. unfold in_grid. lia. }
  assert (Hin : in_grid (row + 9) column) by (unfold in_grid; lia).
  assert (Hfits : np.fits_int64 number = false).
  { apply fits_int64_low; unfold np.int64_min in *; lia. }
  assert (Hn0 : number ≠ 0) by (unfold np.int64_min in Hlow; lia).
  destruct s as [cls b given]. unfold well_shaped in Hs. cbn [board] in Hs.
  unfold write, _is_move_legal, Sudoku_is_move_legal, DiagonalSudoku_is_move_legal.
  rewrite Hfree, (bool_decide_eq_false_2 _ Hn0).
  destruct (Z.ltb_spec 9 number); [unfold np.int64_min in Hlow; lia|].
  cbn [board class_of]. rewrite (shape_tab b Hs).
  rewrite (setitem2_tab_negative _ row column Hrow Hcol).
  rewrite (setitem2_tab_overflow _ _ _ Hin _ Hfits). by destruct cls.
Qed.

(** 0 written through a negative index of one of the last three rows:
    no legality check is made and the cell is cleared. *)
Lemma write_zero_negative s row column :
  well_shaped s -> given_in_grid s -> -3 <= row <= -1 -> 0 <= column < 9 ->
  ∃ b', np.setitem2 (board s) (row + 9) column 0 = Ok b'
        /\ write s 0 row column
           = Ok (true, mkSudoku (class_of s) b' (given_numbers_indices s)).
Proof.
  intros Hs Hg Hrow Hcol.
  assert (Hfree : is_given s row column = false).
  { apply not_given_outside; [exact Hg|]. unfold in_grid. lia. }
  assert (Hin : in_grid (row + 9) column) by (unfold in_grid; lia).
  destruct (setitem2_frame (board s) (row + 9) column 0 Hs Hin fits_int64_zero)
    as (b' & Hset & _).
  exists b'. split; [exact Hset|].
  assert (Hneg : np.setitem2 (board s) row column 0 = Ok b').
  { rewrite <- Hset. rewrite (shape_tab _ Hs).
    apply setitem2_tab_negative; assumption. }
  unfold write, _is_move_legal, Sudoku_is_move_legal, DiagonalSudoku_is_move_legal.
  rewrite Hfree. cbn [bool_decide decide_rel]. 
  destruct (class_of s) eqn:Hc; step; rewrite Hneg; step; reflexivity.
Qed.

(** X2: on a 9x9 grid whose given positions are grid positions, a row
    index in -3..-1 addresses one of the last three rows but is never a
    given position, and its region is empty.  So [write] of a number other
    than 0 that is at most 9 and not below -2^63 raises [IndexError] at
    the region, [write] of a number below -2^63 raises [OverflowError] at
    the assignment to the copy of the board, which comes first, while
    [write] of 0 returns True and clears the addressed cell, given or not;
    every other cell stays as it is. *)
Theorem negative_row_write s row column :
  well_shaped s -> given_in_grid s -> -3 <= row <= -1 -> 0 <= column < 9 ->
  _get_region s row column = []
  /\ (∀ number, number ≠ 0 -> np.int64_min <= number <= 9 ->
        write s number row column = Raise IndexError)
  /\ (∀ number, number < np.int64_min ->
        write s number row column = Raise OverflowError)
  /\ ∃ s', write s 0 row column = Ok (true, s')
           /\ np.getitem2 (board s') (row + 9) column = Ok 0
           /\ (∀ r c, in_grid r c -> (r, c) ≠ (row + 9, column) ->
                 np.getitem2 (board s') r c = np.getitem2 (board s) r c)
           /\ given_numbers_indices s' = given_numbers_indices s.
Proof.
  intros Hs Hg Hrow Hcol. split; [|split; [|split]].
  - apply well_shaped_tab in Hs as (f & ->). by apply get_region_negative.
  - intros number Hn0 Hn9. by apply write_negative_raises.
  - intros number Hlow. by apply write_negative_overflow.
  - destruct (write_zero_negative s row column Hs Hg Hrow Hcol) as (b' & Hset & Hw).
    assert (Hin : in_grid (row + 9) column) by (unfold in_grid; lia).
    destruct (setitem2_frame (board s) (row + 9) column 0 Hs Hin fits_int64_zero)
      as (b2 & Hset2 & _ & Hcell & Hother).
    rewrite Hset in Hset2. injection Hset2 as <-.
    eexists. split; [exact Hw|]. cbn [board given_numbers_indices]. auto.
Qed.

Lemma negative_row_write_witness :
  (8, 8) ∈ given_numbers_indices dead_end_sudoku
  /\ write dead_end_sudoku 4 (-1) 8 = Raise IndexError
  /\ write dead_end_sudoku (- 2 ^ 63 - 1) (-1) 8 = Raise OverflowError
  /\ ∃ s', write dead_end_sudoku 0 (-1) 8 = Ok (true, s')
           /\ np.getitem2 (board s') 8 8 = Ok 0.
Proof.
  assert (Hs : well_shaped dead_end_sudoku) by reflexivity.
  assert (Hg : given_in_grid dead_end_sudoku).
  { intros r c Hin. apply (nonzero_in_grid dead_end_board); [reflexivity|exact Hin]. }
  assert (Hrow : -3 <= -1 <= -1) by lia.
  assert (Hcol : 0 <= 8 < 9) by lia.
  destruct (negative_row_write dead_end_sudoku (-1) 8 Hs Hg Hrow Hcol)
    as (_ & Hraise & Hover & s' & Hw & Hcell & _).
  split; [apply list_elem_of_In; vm_compute; tauto|].
  split; [apply Hraise; [lia | unfold np.int64_min; lia]|].
  split; [apply Hover; unfold np.int64_min; lia|].
  exists s'. split; [exact Hw | exact Hcell].
Defined.

(** ** [is_solved] *)

Lemma zero_cell_not_solved s row column :
  well_shaped s -> in_grid row column ->
  np.getitem2 (board s) row column = Ok 0 -> is_solved s = false.
Proof.
  intros Hs Hpos Hzero. destruct (is_solved s) eqn:Hsolved; [|reflexivity].
  assert (Hnz : nonzero_at (board s) (row, column) = true).
  { apply solved_nonzero; [exact Hs | exact Hsolved | by apply all_grid_spec]. }
  apply nonzero_at_spec in Hnz as (v & Hv & Hne). congruence.
Qed.

Lemma no_zero_solved s :
  well_shaped s ->
  (∀ row column, in_grid row column -> np.getitem2 (board s) row column ≠ Ok 0) ->
  is_solved s = true.
Proof.
  intros Hs Hall. unfold is_solved. apply negb_true_iff.
  destruct (np.contains_zero (board s)) eqn:Hz; [|reflexivity]. exfalso.
  unfold np.contains_zero in Hz.
  apply existsb_exists in Hz as (r & Hr & Hz).
  apply existsb_exists in Hz as (x & Hx & Hz).
  apply bool_decide_eq_true in Hz. subst x.
  apply list_elem_of_In, list_elem_of_lookup_1 in Hr as [i Hi].
  apply list_elem_of_In, list_elem_of_lookup_1 in Hx as [j Hj].
  apply shape_is_9x9_spec in Hs as Hshape. destruct Hshape as [Hlen Hrows].
  apply lookup_lt_Some in Hi as Hilt.
  assert (Hrlen : length r = 9%nat).
  { rewrite Forall_forall in Hrows. eapply Hrows, list_elem_of_lookup_2, Hi. }
  apply lookup_lt_Some in Hj as Hjlt.
  apply (Hall (Z.of_nat i) (Z.of_nat j)); [unfold in_grid; lia|].
  apply getitem2_nonneg; [lia..|]. exists r. by rewrite !Nat2Z.id.
Qed.

(** X3: on a 9x9 grid [is_solved] returns True iff no grid position holds
    0, that is iff the grid has no empty cell. *)
Theorem is_solved_spec s :
  well_shaped s ->
  (is_solved s = true <->
   ∀ row column, in_grid row column -> np.getitem2 (board s) row column ≠ Ok 0)
  /\ (is_solved s = true <-> count_empty (board s) = 0%nat).
Proof.
  intros Hs.
  assert (H1 : is_solved s = true <->
    ∀ row column, in_grid row column -> np.getitem2 (board s) row column ≠ Ok 0).
  { split.
    - intros Hsolved row column Hpos Hzero.
      rewrite (zero_cell_not_solved s row column Hs Hpos Hzero) in Hsolved.
      discriminate.
    - intros Hall. by apply no_zero_solved. }
  split; [exact H1|]. split.
  - intros Hsolved. pose proof (count_cells (board s)) as Hsum.
    assert (count_nonzero (board s) = 81%nat); [|lia].
    unfold count_nonzero. rewrite count_if_all; [reflexivity|].
    intros p Hp. by apply solved_nonzero.
  - intros Hcount. apply H1. intros row column Hpos Hzero.
    assert (Hex : ∃ p, p ∈ all_grid /\ negb (nonzero_at (board s) p) = true).
    { exists (row, column). split; [by apply all_grid_spec|].
      unfold nonzero_at. cbn [fst snd]. by rewrite Hzero. }
    destruct Hex as (p & Hp & Hneg).
    assert (0 < count_empty (board s))%nat; [|lia].
    unfold count_empty. clear - Hp Hneg.
    induction all_grid as [|q l IH]; [by apply elem_of_nil in Hp|].
    cbn [count_if]. apply elem_of_cons in Hp as [<-|Hp].
    + rewrite Hneg. lia.
    + specialize (IH Hp). lia.
Qed.

Lemma is_solved_spec_witness :
  is_solved solved_seed_sudoku = true
  /\ count_empty (board solved_seed_sudoku) = 0%nat
  /\ is_solved puzzle_sudoku = false.
Proof.
  assert (Hs : well_shaped solved_seed_sudoku) by reflexivity.
  assert (Hp : well_shaped puzzle_sudoku) by reflexivity.
  destruct (is_solved_spec solved_seed_sudoku Hs) as [_ Hcount].
  destruct (is_solved_spec puzzle_sudoku Hp) as [Hcells _].
  split; [reflexivity|]. split; [by apply Hcount|].
  destruct (is_solved puzzle_sudoku) eqn:Hsolved; [|reflexivity].
  exfalso. apply (proj1 Hcells eq_refl 0 8); [unfold in_grid; lia | reflexivity].
Defined.

(** ** Moving the cursor *)

Lemma next_forward s (Hs : well_shaped s) (Hgiven : given_in_grid s) depth :
  ∀ row column,
    0 <= column < 9 -> -1 <= rank row column <= 80 ->
    80 - rank row column < Z.of_nat depth ->
    ∃ r' c', _next_row_column depth s row column Forward = Ok (r', c')
             /\ next_free s row column r' c'.
Proof.
  assert (Hsize : Z.of_nat (length (board s)) = 9).
  { apply shape_is_9x9_spec in Hs as [-> _]. reflexivity. }
  induction depth as [|depth IH]; intros row column Hc Hrank Hdepth; [lia|].
  cbn [_next_row_column].
  destruct (neighbour s row column Forward) as [nr nc] eqn:Hn.
  assert (Hnb : 0 <= nc < 9 /\ rank nr nc = rank row column + 1).
  { unfold neighbour in Hn. rewrite Hsize in Hn. injection Hn as <- <-.
    unfold rank. Z.to_euclidean_division_equations. lia. }
  destruct Hnb as [Hnc Hnrank].
  unfold is_given. case_bool_decide as Hg.
  - assert (Hin : in_grid nr nc) by (by apply Hgiven).
    destruct (IH nr nc Hnc) as (r' & c' & Hnext & Hc' & Hfree & Hlow & Hbetween).
    { destruct Hin. unfold rank in *. lia. }
    { lia. }
    exists r', c'. split; [exact Hnext|].
    split; [exact Hc'|]. split; [exact Hfree|]. split; [lia|].
    intros r c Hcr Hr.
    destruct (decide (rank r c = rank nr nc)) as [Heq|Hne].
    + assert ((r, c) = (nr, nc)) as ->; [|exact Hg].
      unfold rank in Heq. f_equal; lia.
    + apply Hbetween; [exact Hcr|lia].
  - exists nr, nc. split; [reflexivity|].
    split; [exact Hnc|]. split; [exact Hg|]. split; [lia|].
    intros r c _ Hr. lia.
Qed.

(** X4: on a 9x9 grid whose given positions are grid positions, moving the
    cursor forward from a grid position never raises: it returns the
    nearest later position in row-major order that is not given, every
    position in between being given, or (9,0) when there is none.
    Moving backward from there leads back to the start when the start is
    not given. *)
Theorem next_row_column_forward s row column :
  well_shaped s -> given_in_grid s -> in_grid row column ->
  ∃ r' c',
    _next_row_column recursion_limit s row column Forward = Ok (r', c')
    /\ next_free s row column r' c'
    /\ (in_grid r' c' \/ (r', c') = (9, 0))
    /\ ((row, column) ∉ given_numbers_indices s ->
        _next_row_column recursion_limit s r' c' Backward = Ok (row, column)).
Proof.
  intros Hs Hg [Hr Hc].
  destruct (next_forward s Hs Hg recursion_limit row column Hc)
    as (r' & c' & Hnext & Hfree); [unfold rank; lia | unfold rank, recursion_limit; lia|].
  exists r', c'. split; [exact Hnext|]. split; [exact Hfree|].
  destruct Hfree as (Hc' & Hfree' & Hrank & Hbetween). split.
  - unfold rank in Hrank. destruct (decide (r' = 9)) as [->|Hne].
    + right. f_equal. lia.
    + left. unfold in_grid. lia.
  - intros Hstart.
    destruct (next_backward s Hg recursion_limit r' c' Hc')
      as (r2 & c2 & Hback & Hc2 & Hfree2 & Hrank2 & Hbetween2);
      [unfold rank in *; unfold recursion_limit; lia|].
    rewrite Hback. f_equal.
    destruct (Z.lt_trichotomy (rank r2 c2) (rank row column)) as [Hlt|[Heq|Hgt]].
    + exfalso. apply Hstart. apply Hbetween2; [exact Hc|lia].
    + unfold rank in Heq. f_equal; lia.
    + exfalso. apply Hfree2. apply Hbetween; [exact Hc2|lia].
Qed.

Lemma next_row_column_forward_witness :
  _next_row_column recursion_limit search_sudoku 0 0 Forward = Ok (0, 2)
  /\ _next_row_column recursion_limit search_sudoku 0 2 Backward = Ok (0, 0).
Proof.
  assert (Hs : well_shaped search_sudoku) by reflexivity.
  assert (Hg : given_in_grid search_sudoku).
  { intros r c H. apply list_elem_of_In in H. simpl in H. unfold in_grid.
    destruct H as [[= <- <-]|[[= <- <-]|[]]]; lia. }
  assert (Hpos : in_grid 0 0) by (unfold in_grid; lia).
  destruct (next_row_column_forward search_sudoku 0 0 Hs Hg Hpos)
    as (r' & c' & Hnext & _ & _ & Hback).
  assert (Hn : _next_row_column recursion_limit search_sudoku 0 0 Forward = Ok (0, 2))
    by (vm_compute; reflexivity).
  rewrite Hn in Hnext. injection Hnext as <- <-.
  split; [reflexivity|]. apply Hback.
  intros H. apply list_elem_of_In in H. simpl in H.
  destruct H as [[= ]|[[= ]|[]]].
Defined.

(** ** [_get_start_row_column] *)

Lemma getitem2_past_grid b column :
  np.shape_is_9x9 b = true -> np.getitem2 b 9 column = Raise IndexError.
Proof.
  intros Hb. apply shape_is_9x9_spec in Hb as [Hlen _].
  unfold np.getitem2, np.getitem, np.index. rewrite Hlen. reflexivity.
Qed.

Lemma get_start_loop_spec s (Hs : well_shaped s) (Hg : given_in_grid s)
    (Hfilled : given_filled s) fuel :
  ∀ row column,
    0 <= column < 9 -> 0 <= rank row column <= 81 ->
    81 - rank row column < Z.of_nat fuel ->
    (∀ r c, in_grid r c -> rank r c < rank row column ->
            np.getitem2 (board s) r c ≠ Ok 0) ->
    (is_solved s = true /\ _get_start_loop fuel s row column = Some (Raise IndexError))
    \/ (is_solved s = false /\
        ∃ r c, _get_start_loop fuel s row column = Some (Ok (r, c))
               /\ in_grid r c
               /\ np.getitem2 (board s) r c = Ok 0
               /\ ∀ r2 c2, in_grid r2 c2 -> rank r2 c2 < rank r c ->
                           np.getitem2 (board s) r2 c2 ≠ Ok 0).
Proof.
  induction fuel as [|fuel IH]; intros row column Hc Hrank Hfuel Hbefore; [lia|].
  cbn [_get_start_loop].
  destruct (decide (rank row column = 81)) as [Hend|Hin].
  - assert ((row, column) = (9, 0)) as [= -> ->] by (unfold rank in Hend; f_equal; lia).
    rewrite (getitem2_past_grid _ _ Hs). left. split; [|reflexivity].
    apply (no_zero_solved s Hs). intros r c Hpos. apply Hbefore; [exact Hpos|].
    destruct Hpos. unfold rank. lia.
  - assert (Hpos : in_grid row column) by (unfold rank in *; unfold in_grid; lia).
    destruct (getitem2_total (board s) row column Hs) as [v Hv];
      [destruct Hpos; lia | exact Hc |].
    rewrite Hv. case_bool_decide as Hz.
    + subst v. right. split; [by apply (zero_cell_not_solved s row column)|].
      exists row, column. auto.
    + destruct (next_forward s Hs Hg recursion_limit row column Hc)
        as (r' & c' & -> & Hc' & Hfree & Hrank' & Hbetween);
        [lia | unfold recursion_limit; lia |].
      apply IH; [exact Hc' | lia | lia |].
      intros r c Hrc Hlt.
      destruct (Z.lt_trichotomy (rank r c) (rank row column)) as [Hl|[He|Hgt]].
      * by apply Hbefore.
      * assert ((r, c) = (row, column)) as [= -> ->].
        { destruct Hrc as [_ ?]. unfold rank in He. f_equal; lia. }
        rewrite Hv. congruence.
      * apply Hfilled, Hbetween; [apply Hrc|lia].
Qed.

(** X5: on a 9x9 grid that is not solved, whose given positions are grid
    positions holding non-zero values, [_get_start_row_column] returns
    within 82 passes the first empty cell in row-major order: the cell it
    returns holds 0 and every grid position before it holds a non-zero
    value. *)
Theorem get_start_row_column_first_empty s :
  well_shaped s -> given_in_grid s -> given_filled s -> is_solved s = false ->
  ∃ row column,
    (∀ fuel, (82 <= fuel)%nat ->
       _get_start_row_column fuel s = Some (Ok (row, column)))
    /\ in_grid row column
    /\ np.getitem2 (board s) row column = Ok 0
    /\ ∀ r c, in_grid r c -> rank r c < rank row column ->
              np.getitem2 (board s) r c ≠ Ok 0.
Proof.
  intros Hs Hg Hfilled Hopen.
  destruct (get_start_loop_spec s Hs Hg Hfilled 82 0 0)
    as [[Hsolved _]|(_ & row & column & Hrun & Hpos & Hzero & Hfirst)];
    [lia | unfold rank; lia | unfold rank; lia | | congruence |].
  { intros r c [? ?]. unfold rank. lia. }
  exists row, column. split; [|auto].
  intros fuel Hfuel. unfold _get_start_row_column.
  by apply (get_start_loop_more 82 fuel).
Qed.

Lemma get_start_row_column_first_empty_witness :
  ∃ row column,
    _get_start_row_column 82 puzzle_sudoku = Some (Ok (row, column))
    /\ np.getitem2 puzzle_board row column = Ok 0.
Proof.
  assert (Hs : well_shaped puzzle_sudoku) by reflexivity.
  assert (Hg : given_in_grid puzzle_sudoku).
  { intros r c Hin. apply (nonzero_in_grid puzzle_board); [reflexivity|exact Hin]. }
  assert (Hf : given_filled puzzle_sudoku).
  { intros r c Hin. apply nonzero_spec in Hin as (_ & _ & v & Hv & Hne).
    cbn [board puzzle_sudoku]. rewrite Hv. congruence. }
  assert (Hopen : is_solved puzzle_sudoku = false) by reflexivity.
  destruct (get_start_row_column_first_empty puzzle_sudoku Hs Hg Hf Hopen)
    as (row & column & Hrun & _ & Hzero & _).
  exists row, column. split; [apply Hrun; lia | exact Hzero].
Defined.

(** X6: called on a 9x9 grid without empty cell, [_get_start_row_column]
    runs past the last cell and raises [IndexError]; [solve] calls it only
    after [is_solved] returned False. *)
Theorem get_start_row_column_full_grid s :
  well_shaped s -> given_in_grid s -> is_solved s = true ->
  (∀ fuel, (82 <= fuel)%nat ->
     _get_start_row_column fuel s = Some (Raise IndexError))
  /\ solve 0 s = (s, Finished).
Proof.
  intros Hs Hg Hsolved.
  assert (Hfilled : given_filled s).
  { intros r c Hin Hzero.
    rewrite (zero_cell_not_solved s r c Hs (Hg r c Hin) Hzero) in Hsolved.
    discriminate. }
  split.
  - destruct (get_start_loop_spec s Hs Hg Hfilled 82 0 0)
      as [[_ Hrun]|(Hopen & _)];
      [lia | unfold rank; lia | unfold rank; lia | | | congruence].
    { intros r c [? ?]. unfold rank. lia. }
    intros fuel Hfuel. unfold _get_start_row_column.
    by apply (get_start_loop_more 82 fuel).
  - unfold solve. by rewrite Hsolved.
Qed.

Lemma get_start_row_column_full_grid_witness :
  _get_start_row_column 82 solved_seed_sudoku = Some (Raise IndexError).
Proof.
  assert (Hs : well_shaped solved_seed_sudoku) by reflexivity.
  assert (Hg : given_in_grid solved_seed_sudoku).
  { intros r c Hin. apply (nonzero_in_grid seed_board); [reflexivity|exact Hin]. }
  assert (Hsolved : is_solved solved_seed_sudoku = true) by reflexivity.
  apply (get_start_row_column_full_grid solved_seed_sudoku Hs Hg Hsolved). lia.
Defined.

(** ** [write] and the invariant of the grid *)

Lemma write_cases s number row column legal s' :
  well_shaped s -> in_grid row column ->
  write s number row column = Ok (legal, s') ->
  (legal = false /\ s' = s)
  \/ (legal = true /\ legal_condition s number row column
      /\ written s s' number row column).
Proof.
  intros Hs Hpos Hwrite.
  destruct (Z.lt_ge_cases number np.int64_min) as [Hover|Hlow].
  { destruct (decide ((row, column) ∈ given_numbers_indices s)) as [Hg|Hfree].
    - rewrite (write_given s number row column Hg) in Hwrite.
      injection Hwrite as <- <-. by left.
    - rewrite (write_overflow s number row column Hs Hpos Hfree Hover) in Hwrite.
      discriminate. }
  destruct (write_effect s number row column Hs Hpos Hlow)
    as (legal2 & s2 & Hlegal & Hwrite2 & Htrue & Hfalse).
  rewrite Hwrite in Hwrite2. injection Hwrite2 as <- <-.
  destruct legal.
  - right. split; [reflexivity|].
    split; [by apply (is_move_legal_iff s number row column Hs Hpos Hlow)|].
    destruct (Htrue eq_refl) as (H1 & H2 & H3 & H4 & H5).
    unfold written. auto.
  - left. split; [reflexivity | by apply Hfalse].
Qed.

Lemma once_on_written s s' number row column G :
  written s s' number row column ->
  once_on s G ->
  (number ≠ 0 -> G row column = true ->
   ¬ occurs_elsewhere s number row column G) ->
  once_on s' G.
Proof.
  intros (_ & _ & _ & Hcell & Hother) Honce Hfree v Hv
    (r1 & c1 & r2 & c2 & H1 & H2 & G1 & G2 & Hne & V1 & V2).
  destruct (decide ((r1, c1) = (row, column))) as [E1|N1];
    destruct (decide ((r2, c2) = (row, column))) as [E2|N2].
  - congruence.
  - injection E1 as -> ->. rewrite Hcell in V1. injection V1 as ->.
    rewrite (Hother r2 c2 H2 N2) in V2.
    apply (Hfree Hv G1). exists r2, c2. auto.
  - injection E2 as -> ->. rewrite Hcell in V2. injection V2 as ->.
    rewrite (Hother r1 c1 H1 N1) in V1.
    apply (Hfree Hv G2). exists r1, c1. auto.
  - rewrite (Hother r1 c1 H1 N1) in V1. rewrite (Hother r2 c2 H2 N2) in V2.
    apply (Honce v Hv). exists r1, c1, r2, c2. auto 10.
Qed.

Lemma occurs_elsewhere_after s number row column G :
  in_grid row column -> G row column = true ->
  occurs_elsewhere s number row column G -> repeated_after s number row column G.
Proof.
  intros Hpos HG (r & c & Hin & HG' & Hne & Hv).
  exists row, column, r, c.
  split; [exact Hpos|]. split; [exact Hin|]. split; [exact HG|].
  split; [exact HG'|]. split; [congruence|].
  unfold holds_after. split.
  - by rewrite decide_True.
  - by rewrite decide_False.
Qed.

Lemma written_keeps_invariant s s' number row column :
  in_grid row column -> region_invariant s ->
  legal_condition s number row column ->
  written s s' number row column -> region_invariant s'.
Proof.
  intros Hpos (Hrow & Hcol & Hbox & Hdiag) (_ & Hlegal) Hw.
  assert (Hcls : class_of s' = class_of s) by apply Hw.
  split; [|split; [|split]].
  - intros R. apply (once_on_written s s' number row column); [exact Hw|apply Hrow|].
    intros Hn HG. destruct Hlegal as [?|(_ & H & _)]; [contradiction|].
    unfold in_row in HG. apply Z.eqb_eq in HG. by subst R.
  - intros C. apply (once_on_written s s' number row column); [exact Hw|apply Hcol|].
    intros Hn HG. destruct Hlegal as [?|(_ & _ & H & _)]; [contradiction|].
    unfold in_column in HG. apply Z.eqb_eq in HG. by subst C.
  - intros R C. apply (once_on_written s s' number row column); [exact Hw|apply Hbox|].
    intros Hn HG. destruct Hlegal as [?|(_ & _ & _ & H & _)]; [contradiction|].
    intros (r & c & Hin & HG' & Hne & Hv). apply H. exists r, c.
    repeat (split; [auto|]); [|exact Hv].
    unfold in_box in *. apply andb_true_iff in HG as [E1 E2].
    apply andb_true_iff in HG' as [E3 E4].
    apply Z.eqb_eq in E1, E2, E3, E4. apply andb_true_iff.
    split; apply Z.eqb_eq; congruence.
  - rewrite Hcls. intros Hd. destruct (Hdiag Hd) as [Hmain Hanti].
    split.
    + apply (once_on_written s s' number row column); [exact Hw|exact Hmain|].
      intros Hn HG Hocc. destruct Hlegal as [?|(_ & _ & _ & _ & H)]; [contradiction|].
      apply (proj1 (H Hd)). by apply occurs_elsewhere_after.
    + apply (once_on_written s s' number row column); [exact Hw|exact Hanti|].
      intros Hn HG Hocc. destruct Hlegal as [?|(_ & _ & _ & _ & H)]; [contradiction|].
      apply (proj2 (H Hd)). by apply occurs_elsewhere_after.
Qed.

Lemma written_keeps_range s s' number row column :
  cells_in_range s -> 0 <= number <= 9 ->
  written s s' number row column -> cells_in_range s'.
Proof.
  intros Hrange Hn (_ & _ & _ & Hcell & Hother) r c v Hin Hv.
  destruct (decide ((r, c) = (row, column))) as [[= -> ->]|Hne].
  - rewrite Hcell in Hv. injection Hv as <-. exact Hn.
  - rewrite (Hother r c Hin Hne) in Hv. by apply (Hrange r c).
Qed.

Lemma legal_number_range s number row column :
  legal_condition s number row column -> 0 <= number -> 0 <= number <= 9.
Proof. intros (_ & [->|(H & _)]) Hn; lia. Qed.

(** X7: [write] keeps the invariant of the grid.  On a 9x9 grid in which
    no non-zero value occurs twice in a row, a column, a box (or, for a
    [DiagonalSudoku], a diagonal), a [write] at a grid position, accepted
    or refused, leaves a grid with the same property; and when all cells
    hold values in 0..9 and the number is not negative, they still do
    afterwards. *)
Theorem write_keeps_invariant s number row column legal s' :
  well_shaped s -> in_grid row column -> region_invariant s ->
  write s number row column = Ok (legal, s') ->
  well_shaped s' /\ region_invariant s'
  /\ (cells_in_range s -> 0 <= number -> cells_in_range s').
Proof.
  intros Hs Hpos Hinv Hwrite.
  destruct (write_cases s number row column legal s' Hs Hpos Hwrite)
    as [[_ ->]|(_ & Hlegal & Hw)]; [auto|].
  split; [apply Hw|]. split.
  - by apply (written_keeps_invariant s s' number row column).
  - intros Hrange Hn.
    apply (written_keeps_range s s' number row column); [exact Hrange| |exact Hw].
    by apply (legal_number_range s number row column).
Qed.

Lemma write_keeps_invariant_witness :
  ∃ s', write one_cell_sudoku 5 0 0 = Ok (true, s') /\ region_invariant s'.
Proof.
  assert (Hs : well_shaped one_cell_sudoku) by reflexivity.
  assert (Hpos : in_grid 0 0) by (unfold in_grid; lia).
  assert (Hw : ∃ s', write one_cell_sudoku 5 0 0 = Ok (true, s'))
    by (eexists; vm_compute; reflexivity).
  destruct Hw as [s' Hw]. exists s'. split; [exact Hw|].
  apply (write_keeps_invariant one_cell_sudoku 5 0 0 true s' Hs Hpos
           one_cell_sudoku_invariant Hw).
Defined.

Lemma fupd_undo f row column (Hpos : in_grid row column) v :
  tab (fupd (fupd f (Z.to_nat row) (Z.to_nat column) v)
         (Z.to_nat row) (Z.to_nat column) (f (Z.to_nat row) (Z.to_nat column)))
  = tab f.
Proof. grid_cases Hpos; reflexivity. Qed.

(** X8: erasing undoes a placement.  On a 9x9 grid, when [write] puts a
    number into an empty cell at a grid position, a following [write] of 0
    at the same position succeeds and gives back the grid as it was: this
    is what the solver relies on when it backtracks. *)
Theorem write_then_erase s number row column s1 :
  well_shaped s -> in_grid row column ->
  np.getitem2 (board s) row column = Ok 0 ->
  write s number row column = Ok (true, s1) ->
  write s1 0 row column = Ok (true, s).
Proof.
  intros Hs Hpos Hzero Hwrite.
  assert (Hfree : is_given s row column = false).
  { destruct (is_given s row column) eqn:Hg; [|reflexivity].
    apply is_given_spec in Hg.
    rewrite (write_given s number row column Hg) in Hwrite. discriminate. }
  destruct s as [cls b given]. unfold well_shaped in Hs. cbn [board] in *.
  rewrite (shape_tab b Hs) in Hzero, Hwrite |- *. set (f := cellN b) in *.
  rewrite (getitem2_tab f row column Hpos) in Hzero. injection Hzero as Hzero.
  unfold write in Hwrite.
  destruct (_is_move_legal (mkSudoku cls (tab f) given) number row column)
    as [[]|]; cbn [mbind result_bind] in Hwrite; try discriminate.
  cbn [board class_of given_numbers_indices] in Hwrite.
  assert (Hfits : np.fits_int64 number = true).
  { destruct (np.fits_int64 number) eqn:Hf; [reflexivity|].
    rewrite (setitem2_tab_overflow f row column Hpos number Hf) in Hwrite.
    discriminate. }
  rewrite (setitem2_tab f row column Hpos number Hfits) in Hwrite.
  cbn [mbind result_bind] in Hwrite. injection Hwrite as <-.
  unfold write, _is_move_legal, Sudoku_is_move_legal, DiagonalSudoku_is_move_legal.
  unfold is_given in *. cbn [given_numbers_indices class_of board] in *.
  rewrite Hfree. cbn [bool_decide decide_rel].
  assert (Hset : np.setitem2
            (tab (fupd f (Z.to_nat row) (Z.to_nat column) number)) row column 0
          = Ok (tab f)).
  { rewrite (setitem2_tab _ row column Hpos 0 fits_int64_zero). f_equal.
    rewrite <- Hzero at 1. by apply fupd_undo. }
  destruct cls; step; rewrite Hset; reflexivity.
Qed.

Lemma write_then_erase_witness :
  write empty_sudoku 4 2 7 = Ok (true, one_cell_sudoku)
  /\ write one_cell_sudoku 0 2 7 = Ok (true, empty_sudoku).
Proof.
  assert (Hs : well_shaped empty_sudoku) by reflexivity.
  assert (Hpos : in_grid 2 7) by (unfold in_grid; lia).
  assert (Hzero : np.getitem2 (board empty_sudoku) 2 7 = Ok 0) by reflexivity.
  assert (Hw : write empty_sudoku 4 2 7 = Ok (true, one_cell_sudoku)) by reflexivity.
  split; [exact Hw|].
  apply (write_then_erase empty_sudoku 4 2 7 one_cell_sudoku Hs Hpos Hzero Hw).
Defined.

(** ** The solver loop: what a search keeps *)

Lemma next_row_column_unfold depth s row column d :
  _next_row_column (S depth) s row column d =
  let '(new_row, new_column) := neighbour s row column d in
  if is_given s new_row new_column
  then _next_row_column depth s new_row new_column d
  else Ok (new_row, new_column).
Proof. reflexivity. Qed.

Lemma getitem2_negative b row column :
  np.shape_is_9x9 b = true -> -3 <= row <= -1 -> 0 <= column < 9 ->
  np.getitem2 b row column = np.getitem2 b (row + 9) column.
Proof.
  intros Hb Hrow Hcol. rewrite (shape_tab b Hb).
  by apply getitem2_tab_negative.
Qed.

Lemma write_too_big s number row column :
  is_given s row column = false -> 9 < number ->
  write s number row column = Ok (false, s).
Proof.
  intros Hfree Hbig.
  unfold write, _is_move_legal, Sudoku_is_move_legal, DiagonalSudoku_is_move_legal.
  rewrite Hfree. rewrite bool_decide_eq_false_2 by lia.
  destruct (Z.ltb_spec 9 number); [|lia]. by destruct (class_of s).
Qed.

Lemma write_past_grid s number column :
  well_shaped s -> given_in_grid s -> number ≠ 0 -> number <= 9 ->
  write s number 9 column = Raise IndexError.
Proof.
  intros Hs Hg Hn0 Hn9.
  assert (Hfree : is_given s 9 column = false).
  { apply not_given_outside; [exact Hg|]. unfold in_grid. lia. }
  assert (Hset : np.setitem2 (board s) 9 column number = Raise IndexError).
  { apply shape_is_9x9_spec in Hs as [Hlen _].
    unfold np.setitem2, np.getitem, np.index. rewrite Hlen. reflexivity. }
  unfold write, _is_move_legal, Sudoku_is_move_legal, DiagonalSudoku_is_move_legal.
  rewrite Hfree, (bool_decide_eq_false_2 _ Hn0).
  destruct (Z.ltb_spec 9 number); [lia|].
  rewrite Hset. by destruct (class_of s).
Qed.

Lemma pass_in_grid s0 s row column number :
  search_state s0 s row column number -> in_grid row column ->
  is_solved s = false ->
  match _solve_iterative_body s row column number with
  | Continue s' r' c' n' =>
      search_state s0 s' r' c' n' \/ escaped_state s' r' c' n'
  | Abort _ _ => True
  end.
Proof.
  intros (Hkeep & Hg & Hinv & Hrange & Hnum & _) Hpos Hopen.
  assert (Hs : well_shaped s) by apply Hkeep.
  unfold _solve_iterative_body, move_cursor.
  destruct (write_keeps_given s number row column Hs Hpos
              ltac:(apply above_int64_min; lia))
    as (legal & s1 & Hwrite & Hk1).
  rewrite Hwrite.
  destruct (write_cases s number row column legal s1 Hs Hpos Hwrite)
    as [[-> ->]|(-> & Hlegal & Hw)].
  - (* the trial is refused *)
    destruct (Z.ltb_spec number 9) as [Hlt|Hge].
    { left. unfold search_state. repeat (split; [assumption || lia|]). by left. }
    destruct (write_keeps_given s 0 row column Hs Hpos int64_min_zero)
      as (cleared & s2 & Hwrite0 & Hk2).
    rewrite Hwrite0.
    assert (Hs2 : well_shaped s2) by apply Hk2.
    assert (Hg2 : given_in_grid s2).
    { unfold given_in_grid. destruct Hk2 as (_ & _ & -> & _). exact Hg. }
    assert (Hstate2 : region_invariant s2 /\ cells_in_range s2 /\ is_solved s2 = false).
    { destruct (write_cases s 0 row column cleared s2 Hs Hpos Hwrite0)
        as [[_ ->]|(_ & Hlegal0 & Hw0)]; [auto|].
      split; [by apply (written_keeps_invariant s s2 0 row column)|].
      split; [apply (written_keeps_range s s2 0 row column); [assumption|lia|assumption]|].
      apply (zero_cell_not_solved s2 row column Hs2 Hpos). apply Hw0. }
    destruct Hstate2 as (Hinv2 & Hrange2 & Hopen2).
    destruct (next_backward s2 Hg2 recursion_limit row column)
      as (r' & c' & -> & Hc' & Hfree' & Hrank' & Hbetween');
      [apply Hpos | destruct Hpos; unfold rank, recursion_limit; lia |].
    destruct (getitem2_total (board s2) r' c' Hs2) as [v Hv];
      [destruct Hpos; unfold rank in Hrank'; lia | exact Hc' |].
    rewrite Hv.
    destruct (decide (rank r' c' = -1)) as [Hesc|Hin].
    + (* the cursor leaves the grid *)
      assert ((r', c') = (-1, 8)) as [= -> ->] by (unfold rank in Hesc; f_equal; lia).
      rewrite (getitem2_negative _ (-1) 8 Hs2) in Hv by lia.
      assert (Hv9 : 0 <= v <= 9).
      { apply (Hrange2 8 8); [unfold in_grid; lia | exact Hv]. }
      rewrite (wrap_int64_cell v Hv9).
      right. unfold escaped_state.
      split; [exact Hs2|]. split; [exact Hg2|]. split; [exact Hopen2|].
      split; [reflexivity|]. left. split; [reflexivity|]. split; [lia|].
      intros Hten. assert (v = 9) as -> by lia.
      destruct (getitem2_total (board s2) 8 7 Hs2) as [w Hw]; [lia..|].
      exists w. split; [exact Hw|].
      assert (Hw9 : 0 <= w <= 9).
      { apply (Hrange2 8 7); [unfold in_grid; lia | exact Hw]. }
      assert (w ≠ 9); [|lia]. intros ->.
      destruct Hinv2 as (Hrow2 & _).
      apply (Hrow2 8 9); [lia|].
      exists 8, 8, 8, 7. unfold in_grid, in_row.
      repeat (split; [lia || reflexivity || congruence|]). auto.
    + assert (Hin' : in_grid r' c').
      { destruct Hpos. unfold rank in *. unfold in_grid. lia. }
      pose proof (Hrange2 r' c' v Hin' Hv) as Hv9.
      rewrite (wrap_int64_cell v Hv9).
      left. unfold search_state.
      split; [by apply (keeps_given_trans s0 s s2)|].
      repeat (split; [assumption || lia|]). by left.
  - (* the trial is accepted *)
    assert (Hs1 : well_shaped s1) by apply Hw.
    assert (Hg1 : given_in_grid s1).
    { unfold given_in_grid. destruct Hw as (_ & _ & -> & _). exact Hg. }
    destruct (next_forward s1 Hs1 Hg1 recursion_limit row column)
      as (r' & c' & -> & Hc' & Hfree' & Hrank' & _);
      [apply Hpos | destruct Hpos; unfold rank; lia
       | destruct Hpos; unfold rank, recursion_limit; lia |].
    left. unfold search_state.
    split; [by apply (keeps_given_trans s0 s s1)|]. split; [exact Hg1|].
    split; [by apply (written_keeps_invariant s s1 number row column)|].
    split.
    { apply (written_keeps_range s s1 number row column); [assumption| |assumption].
      apply (legal_number_range s number row column); [assumption|lia]. }
    split; [lia|].
    unfold rank in Hrank'. destruct (decide (r' = 9)) as [->|Hne].
    + right. split; [f_equal; lia | reflexivity].
    + left. destruct Hpos. unfold in_grid. lia.
Qed.

Lemma pass_escaped s row column number :
  escaped_state s row column number ->
  match _solve_iterative_body s row column number with
  | Continue s' r' c' n' => escaped_state s' r' c' n'
  | Abort _ _ => True
  end.
Proof.
  intros (Hs & Hg & Hopen & -> & Hcase).
  unfold _solve_iterative_body, move_cursor.
  assert (Hraise : ∀ c n, 0 <= c < 9 -> 1 <= n <= 9 ->
                          write s n (-1) c = Raise IndexError).
  { intros c n Hc Hn.
    apply write_negative_raises; [assumption | assumption | lia | lia | lia |].
    split; [apply above_int64_min|]; lia. }
  destruct Hcase as [(-> & Hnum & Hten)|(-> & Hnum)];
    [|by rewrite Hraise by lia].
  destruct (decide (number = 10)) as [->|Hne];
    [|by rewrite Hraise by lia].
  destruct (Hten eq_refl) as (w & Hw & Hw8).
  assert (Hfree : is_given s (-1) 8 = false).
  { apply not_given_outside; [exact Hg|]. unfold in_grid. lia. }
  rewrite (write_too_big s 10 (-1) 8 Hfree) by lia.
  change (10 <? 9) with false. cbn iota.
  destruct (write_zero_negative s (-1) 8 Hs Hg) as (b' & Hset & ->); [lia..|].
  change (-1 + 9) with 8 in Hset.
  destruct (setitem2_frame (board s) 8 8 0 Hs) as (b2 & Hset2 & Hb' & Hcell & Hother);
    [unfold in_grid; lia | reflexivity |].
  rewrite Hset in Hset2. injection Hset2 as <-.
  set (s2 := mkSudoku (class_of s) b' (given_numbers_indices s)).
  assert (Hs2 : well_shaped s2) by exact Hb'.
  assert (Hg2 : given_in_grid s2) by exact Hg.
  assert (Hnext : _next_row_column recursion_limit s2 (-1) 8 Backward = Ok (-1, 7)).
  { change recursion_limit with (S 999). rewrite next_row_column_unfold.
    change (neighbour s2 (-1) 8 Backward) with (-1, 7). cbv beta iota zeta.
    rewrite (not_given_outside s2 (-1) 7 Hg2); [reflexivity|].
    unfold in_grid. lia. }
  rewrite Hnext.
  assert (Hv : np.getitem2 (board s2) (-1) 7 = Ok w).
  { rewrite (getitem2_negative _ (-1) 7 Hs2) by lia.
    change (-1 + 9) with 8. cbn [board s2].
    rewrite (Hother 8 7); [exact Hw | unfold in_grid; lia | congruence]. }
  rewrite Hv, (wrap_int64_cell w) by lia. unfold escaped_state.
  split; [exact Hs2|]. split; [exact Hg2|]. split.
  { apply (zero_cell_not_solved s2 8 8 Hs2); [unfold in_grid; lia | exact Hcell]. }
  split; [reflexivity|]. right. split; [reflexivity|lia].
Qed.

Lemma solve_iterative_loop_sound s0 fuel :
  ∀ s row column number s',
    search_state s0 s row column number \/ escaped_state s row column number ->
    _solve_iterative_loop fuel s row column number = (s', Finished) ->
    complete s' /\ keeps_given s0 s'.
Proof.
  assert (Hdone : ∀ s row column number,
    search_state s0 s row column number \/ escaped_state s row column number ->
    is_solved s = true -> complete s /\ keeps_given s0 s).
  { intros s row column number [(Hk & _ & Hinv & Hrange & _)|(_ & _ & Hopen & _)]
      Hsolved; [|congruence].
    split; [|exact Hk]. split; [apply Hk|]. auto. }
  induction fuel as [|fuel IH]; intros s row column number s' Hstate;
    cbn [_solve_iterative_loop]; destruct (is_solved s) eqn:Hsolved.
  - intros [= <-]. by apply (Hdone s row column number).
  - discriminate.
  - intros [= <-]. by apply (Hdone s row column number).
  - destruct Hstate as [Hsearch|Hesc].
    + destruct Hsearch as (Hk & Hg & Hinv & Hrange & Hnum & [Hpos|[[= -> ->] ->]]).
      * pose proof (pass_in_grid s0 s row column number) as Hpass.
        destruct (_solve_iterative_body s row column number)
          as [s1 r1 c1 n1|s1 e]; [|discriminate].
        apply IH, Hpass; [|exact Hpos|exact Hsolved].
        unfold search_state. auto 10.
      * unfold _solve_iterative_body.
        rewrite (write_past_grid s 1 0 (proj1 Hk) Hg) by lia. discriminate.
    + pose proof (pass_escaped s row column number Hesc) as Hpass.
      destruct (_solve_iterative_body s row column number)
        as [s1 r1 c1 n1|s1 e]; [|discriminate].
      apply IH. by right.
Qed.

Lemma getitem2_rows b row column v :
  np.shape_is_9x9 b = true -> np.getitem2 b row column = Ok v -> -9 <= row < 9.
Proof.
  intros Hb Hv. apply shape_is_9x9_spec in Hb as [Hlen _].
  unfold np.getitem2, np.getitem, np.index in Hv. rewrite Hlen in Hv.
  destruct (Z.leb_spec 0 row), (Z.ltb_spec row (Z.of_nat 9)),
    (Z.leb_spec (- Z.of_nat 9) row), (Z.ltb_spec row 0);
    cbn [andb mbind result_bind] in Hv; try discriminate; lia.
Qed.

Lemma get_start_loop_in_grid s (Hs : well_shaped s) (Hg : given_in_grid s) fuel :
  ∀ row column r c,
    0 <= column < 9 -> 0 <= rank row column ->
    _get_start_loop fuel s row column = Some (Ok (r, c)) -> in_grid r c.
Proof.
  induction fuel as [|fuel IH]; intros row column r c Hc Hrank;
    cbn [_get_start_loop]; [discriminate|].
  destruct (np.getitem2 (board s) row column) as [v|e] eqn:Hv; [|discriminate].
  apply (getitem2_rows _ _ _ _ Hs) in Hv as Hrow.
  assert (Hpos : in_grid row column) by (unfold rank in Hrank; unfold in_grid; lia).
  case_bool_decide.
  - by intros [= <- <-].
  - destruct (next_forward s Hs Hg recursion_limit row column Hc)
      as (r' & c' & -> & Hc' & _ & Hrank' & _);
      [destruct Hpos; unfold rank; lia
      | destruct Hpos; unfold rank, recursion_limit; lia |].
    apply IH; [exact Hc'|lia].
Qed.

(** ** Full grids *)

(** In a full valid grid a group of nine positions holds every digit. *)
Lemma every_digit_on_group s ps G :
  complete s -> enumerates ps G -> length ps = 9%nat -> once_on s G ->
  every_digit_on s G.
Proof.
  intros (Hs & Hsolved & _ & Hrange) (Hnd & Hlt & Hmem) Hlen Honce d Hd.
  assert (Hcell : ∀ p, p ∈ ps ->
    ∃ v, np.getitem2 (board s) (Z.of_nat p.1) (Z.of_nat p.2) = Ok v
         /\ 1 <= v <= 9
         /\ in_grid (Z.of_nat p.1) (Z.of_nat p.2)
         /\ G (Z.of_nat p.1) (Z.of_nat p.2) = true).
  { intros p Hp. pose proof (Hlt p Hp) as [H1 H2].
    assert (Hin : in_grid (Z.of_nat p.1) (Z.of_nat p.2)) by (unfold in_grid; lia).
    destruct (getitem2_total (board s) (Z.of_nat p.1) (Z.of_nat p.2) Hs)
      as [v Hv]; [lia..|].
    exists v. split; [exact Hv|].
    pose proof (Hrange _ _ _ Hin Hv).
    assert (v ≠ 0).
    { intros ->. rewrite (zero_cell_not_solved s _ _ Hs Hin Hv) in Hsolved.
      discriminate. }
    split; [lia|]. split; [exact Hin|].
    rewrite (Hmem _ _ Hin), !Nat2Z.id. apply memb_spec. by destruct p. }
  set (val := λ p : nat * nat,
    match np.getitem2 (board s) (Z.of_nat p.1) (Z.of_nat p.2) with
    | Ok v => v
    | Raise _ => 0
    end).
  assert (Hvals : NoDup (val <$> ps)).
  { apply NoDup_fmap_2_strong; [|exact Hnd].
    intros p q Hp Hq Heq.
    destruct (Hcell p Hp) as (v & Hv & Hv9 & Hin & HG).
    destruct (Hcell q Hq) as (w & Hw & Hw9 & Hin' & HG').
    unfold val in Heq. rewrite Hv, Hw in Heq. subst w.
    destruct (decide (p = q)) as [|Hne]; [assumption|]. exfalso.
    apply (Honce v); [lia|].
    exists (Z.of_nat p.1), (Z.of_nat p.2), (Z.of_nat q.1), (Z.of_nat q.2).
    repeat (split; [assumption|]). split; [|auto].
    intros [= E1 E2]. apply Hne. destruct p, q. simpl in *. f_equal; lia. }
  assert (Hincl : incl (seqZ 1 9) (val <$> ps)).
  { apply NoDup_length_incl.
    - by apply NoDup_ListNoDup.
    - by rewrite length_fmap, Hlen.
    - intros x Hx. apply list_elem_of_In, list_elem_of_fmap in Hx as (p & -> & Hp).
      destruct (Hcell p Hp) as (v & Hv & Hv9 & _).
      unfold val. rewrite Hv. apply list_elem_of_In, elem_of_seqZ. lia. }
  assert (Hd' : In d (val <$> ps)).
  { apply Hincl, list_elem_of_In, elem_of_seqZ. lia. }
  apply list_elem_of_In, list_elem_of_fmap in Hd' as (p & -> & Hp).
  destruct (Hcell p Hp) as (v & Hv & _ & Hin & HG).
  exists (Z.of_nat p.1), (Z.of_nat p.2). unfold val. rewrite Hv. auto.
Qed.

Lemma complete_every_digit s :
  complete s ->
  (∀ row column, in_grid row column ->
     every_digit_on s (in_row row)
     /\ every_digit_on s (in_column column)
     /\ every_digit_on s (in_box row column))
  /\ (class_of s = Diagonal ->
      every_digit_on s on_diagonal /\ every_digit_on s on_antidiagonal).
Proof.
  intros Hc. pose proof Hc as (_ & _ & (Hrow & Hcol & Hbox & Hdiag) & _).
  split.
  - intros row column Hpos. split; [|split].
    + apply (every_digit_on_group s _ _ Hc (row_enumerates row column Hpos));
        [reflexivity | apply Hrow].
    + apply (every_digit_on_group s _ _ Hc (column_enumerates row column Hpos));
        [reflexivity | apply Hcol].
    + apply (every_digit_on_group s _ _ Hc (box_enumerates row column Hpos));
        [|apply Hbox].
      destruct Hpos as [Hr Hc']. apply grid_index in Hr, Hc'.
      repeat (destruct Hr as [Hr|Hr]); repeat (destruct Hc' as [Hc'|Hc']);
        subst; reflexivity.
  - intros Hd. destruct (Hdiag Hd) as [Hmain Hanti]. split.
    + apply (every_digit_on_group s _ _ Hc diagonal_enumerates);
        [reflexivity | exact Hmain].
    + apply (every_digit_on_group s _ _ Hc antidiagonal_enumerates);
        [reflexivity | exact Hanti].
Qed.

(** ** [solve] *)

Lemma solve_sound s0 fuel s' :
  well_shaped s0 -> given_in_grid s0 -> region_invariant s0 -> cells_in_range s0 ->
  solve fuel s0 = (s', Finished) ->
  complete s' /\ keeps_given s0 s'.
Proof.
  intros Hs Hg Hinv Hrange. unfold solve, _get_start_row_column, _solve_iterative.
  destruct (is_solved s0) eqn:Hsolved; cbn [negb].
  - intros [= <-]. split; [|by apply keeps_given_refl]. unfold complete. auto.
  - destruct (_get_start_loop fuel s0 0 0) as [[[row column]|e]|] eqn:Hstart;
      [|discriminate..].
    apply solve_iterative_loop_sound. left.
    assert (Hpos : in_grid row column).
    { apply (get_start_loop_in_grid s0 Hs Hg fuel 0 0 row column);
        [lia | unfold rank; lia | exact Hstart]. }
    unfold search_state.
    split; [by apply keeps_given_refl|]. repeat (split; [assumption || lia|]).
    by left.
Qed.

(** X9: the iterative solver is sound.  Started on a 9x9 grid whose cells
    hold values in 0..9, whose given positions are grid positions and in
    which no non-zero value occurs twice in a group, [solve] can only
    return with a full valid grid: no cell is empty, every row, column and
    box (and both diagonals of a [DiagonalSudoku]) holds each of 1..9, and
    the given cells hold what they held. *)
Theorem solve_returns_valid_grid s0 fuel s' :
  well_shaped s0 -> given_in_grid s0 -> region_invariant s0 -> cells_in_range s0 ->
  solve fuel s0 = (s', Finished) ->
  complete s'
  /\ keeps_given s0 s'
  /\ (∀ row column, in_grid row column ->
        every_digit_on s' (in_row row)
        /\ every_digit_on s' (in_column column)
        /\ every_digit_on s' (in_box row column))
  /\ (class_of s' = Diagonal ->
      every_digit_on s' on_diagonal /\ every_digit_on s' on_antidiagonal).
Proof.
  intros Hs Hg Hinv Hrange Hrun.
  destruct (solve_sound s0 fuel s' Hs Hg Hinv Hrange Hrun) as [Hc Hk].
  split; [exact Hc|]. split; [exact Hk|]. by apply complete_every_digit.
Qed.

Lemma one_cell_sudoku_in_range : cells_in_range one_cell_sudoku.
Proof.
  intros r c v Hin Hv.
  grid_cases Hin; vm_compute in Hv; injection Hv as <-; lia.
Qed.

Lemma solve_returns_valid_grid_witness :
  ∃ s', solve 4500 one_cell_sudoku = (s', Finished)
        /\ complete s' /\ every_digit_on s' (in_box 4 4).
Proof.
  assert (Hs : well_shaped one_cell_sudoku) by reflexivity.
  assert (Hg : given_in_grid one_cell_sudoku).
  { intros r c Hin. apply elem_of_nil in Hin. destruct Hin. }
  assert (Hpos : in_grid 4 4) by (unfold in_grid; lia).
  assert (Hrun : ∃ s', solve 4500 one_cell_sudoku = (s', Finished))
    by (eexists; vm_compute; reflexivity).
  destruct Hrun as [s' Hrun]. exists s'. split; [exact Hrun|].
  destruct (solve_returns_valid_grid one_cell_sudoku 4500 s' Hs Hg
              one_cell_sudoku_invariant one_cell_sudoku_in_range Hrun)
    as (Hc & _ & Hgroups & _).
  split; [exact Hc|]. exact (proj2 (proj2 (Hgroups 4 4 Hpos))).
Defined.

(** ** [_create_board] *)

Lemma create_board_loop_seeded rnd (Hrnd : draws_in_range rnd) fuel :
  ∀ b numbers k b' k',
    seeded b numbers -> NoDup numbers -> Forall (λ n, 1 <= n <= 9) numbers ->
    _create_board_loop fuel rnd b numbers k = Some (Ok (b', k')) ->
    seeded b' [].
Proof.
  induction fuel as [|fuel IH]; intros b numbers k b' k' Hseed Hnd Hnum.
  - destruct numbers; [|discriminate]. by intros [= <- <-].
  - destruct numbers as [|n0 rest]; [by intros [= <- <-]|].
    cbn [_create_board_loop].
    assert (Hpos : in_grid (randint rnd k) (randint rnd (S k)))
      by (split; apply Hrnd).
    destruct (np.getitem2 b (randint rnd k) (randint rnd (S k))) as [v|e] eqn:Hv;
      [|discriminate].
    case_bool_decide as Hz; [|by apply IH].
    subst v.
    destruct (np.setitem2 b (randint rnd k) (randint rnd (S k)) n0)
      as [b1|e] eqn:Hset; [|discriminate].
    apply IH.
    + destruct Hseed as (Hb & Hcells & Hdist).
      destruct (setitem2_frame b _ _ n0 Hb Hpos (setitem2_ok_fits _ _ _ _ _ Hset))
        as (b2 & Hset2 & Hb1 & Hnew & Hother).
      rewrite Hset in Hset2. injection Hset2 as <-.
      apply NoDup_cons in Hnd as [Hfresh _].
      apply Forall_cons in Hnum as [Hn0 _].
      split; [exact Hb1|]. split.
      * intros r c v Hin Hcell.
        destruct (decide ((r, c) = (randint rnd k, randint rnd (S k))))
          as [[= -> ->]|Hne].
        -- rewrite Hnew in Hcell. injection Hcell as <-. split; [lia|auto].
        -- rewrite (Hother r c Hin Hne) in Hcell.
           destruct (Hcells r c v Hin Hcell) as [Hr Hfree].
           split; [exact Hr|]. intros Hv0 Hin'. apply (Hfree Hv0). by right.
      * intros r1 c1 r2 c2 v H1 H2 V1 V2 Hv0.
        destruct (decide ((r1, c1) = (randint rnd k, randint rnd (S k))))
          as [E1|N1];
          destruct (decide ((r2, c2) = (randint rnd k, randint rnd (S k))))
          as [E2|N2].
        -- congruence.
        -- injection E1 as -> ->. rewrite Hnew in V1. injection V1 as <-.
           rewrite (Hother r2 c2 H2 N2) in V2.
           destruct (Hcells r2 c2 n0 H2 V2) as [_ Hfree].
           exfalso. apply (Hfree Hv0). by left.
        -- injection E2 as -> ->. rewrite Hnew in V2. injection V2 as <-.
           rewrite (Hother r1 c1 H1 N1) in V1.
           destruct (Hcells r1 c1 n0 H1 V1) as [_ Hfree].
           exfalso. apply (Hfree Hv0). by left.
        -- rewrite (Hother r1 c1 H1 N1) in V1. rewrite (Hother r2 c2 H2 N2) in V2.
           by apply (Hdist r1 c1 r2 c2 v).
    + by apply NoDup_cons in Hnd as [_ ?].
    + by apply Forall_cons in Hnum as [_ ?].
Qed.

Lemma create_board_loop_no_raise rnd (Hrnd : draws_in_range rnd) fuel :
  ∀ b numbers k e,
    np.shape_is_9x9 b = true -> Forall (λ n, 1 <= n <= 9) numbers ->
    _create_board_loop fuel rnd b numbers k ≠ Some (Raise e).
Proof.
  induction fuel as [|fuel IH]; intros b numbers k e Hb Hnum.
  - by destruct numbers.
  - destruct numbers as [|n0 rest]; [discriminate|].
    apply Forall_cons in Hnum as [Hn0 Hrest].
    cbn [_create_board_loop].
    assert (Hpos : in_grid (randint rnd k) (randint rnd (S k)))
      by (split; apply Hrnd).
    destruct (getitem2_total b (randint rnd k) (randint rnd (S k)) Hb)
      as [v ->]; [destruct Hpos; lia | apply Hpos |].
    destruct (setitem2_frame b _ _ n0 Hb Hpos (fits_int64_small n0 ltac:(lia)))
      as (b1 & -> & Hb1 & _).
    case_bool_decide; apply IH; auto using Forall_cons.
Qed.

Lemma empty_cell_exists b :
  (count_nonzero b < 81)%nat ->
  ∃ r c, in_grid r c /\ nonzero_at b (r, c) = false.
Proof.
  intros Hcount. pose proof (count_cells b) as Hsum.
  destruct (count_if_pos (λ p, negb (nonzero_at b p)) all_grid)
    as ([r c] & Hin & Hz); [unfold count_empty in Hsum; lia|].
  exists r, c. split; [by apply all_grid_spec|]. by apply negb_true_iff.
Qed.

Lemma create_board_loop_terminates rnd (Hrnd : draws_in_range rnd) numbers :
  ∀ b k,
    np.shape_is_9x9 b = true -> Forall (λ n, 1 <= n <= 9) numbers ->
    (count_nonzero b + length numbers <= 81)%nat -> fair rnd k ->
    ∃ fuel b' k', _create_board_loop fuel rnd b numbers k = Some (Ok (b', k')).
Proof.
  induction numbers as [|n0 rest IHn]; intros b k Hb Hnum Hcount Hfair.
  { exists 0%nat, b, k. reflexivity. }
  apply Forall_cons in Hnum as [Hn0 Hrest]. cbn [length] in Hcount.
  destruct (empty_cell_exists b) as (r & c & Hin & Hz); [lia|].
  destruct (Hfair 0%nat r c Hin) as (j & _ & Hr & Hc).
  clear Hin. revert k Hfair Hr Hc.
  induction j as [|j IHj]; intros k Hfair Hr Hc.
  - rewrite Nat.mul_0_r, Nat.add_0_r in Hr, Hc.
    assert (Hpos : in_grid r c) by (rewrite <- Hr, <- Hc; split; apply Hrnd).
    destruct (getitem2_total b r c Hb) as [v Hv];
      [destruct Hpos; lia | apply Hpos |].
    assert (v = 0) as ->.
    { unfold nonzero_at in Hz. cbn [fst snd] in Hz. rewrite Hv in Hz.
      apply negb_false_iff, bool_decide_eq_true in Hz. exact Hz. }
    destruct (np.setitem2 b r c n0) as [b1|e] eqn:Hset;
      [|destruct (setitem2_frame b r c n0 Hb Hpos (fits_int64_small n0 ltac:(lia)))
          as (? & ? & _); congruence].
    destruct (placement_count b r c n0 b1 Hb Hpos Hv ltac:(lia) Hset) as [Hb1 Hc1].
    destruct (IHn b1 (S (S k)) Hb1 Hrest ltac:(lia) (fair_next _ _ Hfair))
      as (fuel & b' & k' & Hrun).
    exists (S fuel), b', k'. cbn [_create_board_loop].
    rewrite Hr, Hc, Hv. rewrite bool_decide_eq_true_2 by reflexivity.
    by rewrite Hset.
  - assert (Hpos : in_grid (randint rnd k) (randint rnd (S k)))
      by (split; apply Hrnd).
    destruct (getitem2_total b (randint rnd k) (randint rnd (S k)) Hb)
      as [v Hv]; [destruct Hpos; lia | apply Hpos |].
    destruct (decide (v = 0)) as [->|Hv0].
    + destruct (np.setitem2 b (randint rnd k) (randint rnd (S k)) n0)
        as [b1|e] eqn:Hset;
        [|destruct (setitem2_frame b _ _ n0 Hb Hpos (fits_int64_small n0 ltac:(lia)))
            as (? & ? & _); congruence].
      destruct (placement_count b _ _ n0 b1 Hb Hpos Hv ltac:(lia) Hset) as [Hb1 Hc1].
      destruct (IHn b1 (S (S k)) Hb1 Hrest ltac:(lia) (fair_next _ _ Hfair))
        as (fuel & b' & k' & Hrun).
      exists (S fuel), b', k'. cbn [_create_board_loop].
      rewrite Hv. rewrite bool_decide_eq_true_2 by reflexivity.
      by rewrite Hset.
    + destruct (IHj (S (S k)) (fair_next _ _ Hfair)) as (fuel & b' & k' & Hrun).
      { rewrite <- Hr. f_equal. lia. }
      { rewrite <- Hc. f_equal. lia. }
      exists (S fuel), b', k'. cbn [_create_board_loop].
      rewrite Hv. by rewrite bool_decide_eq_false_2.
Qed.

Lemma shuffled_numbers rnd :
  shuffle_permutes rnd ->
  let numbers := shuffle rnd (seqZ 1 9) in
  let numbers := take (length numbers - 1) numbers in
  NoDup numbers /\ Forall (λ n, 1 <= n <= 9) numbers /\ length numbers = 8%nat.
Proof.
  intros Hperm. cbn zeta. pose proof (Hperm (seqZ 1 9)) as Hp.
  assert (Hnd : NoDup (shuffle rnd (seqZ 1 9))).
  { rewrite Hp. apply NoDup_seqZ. }
  assert (Hall : Forall (λ n, 1 <= n <= 9) (shuffle rnd (seqZ 1 9))).
  { rewrite Hp. apply Forall_forall. intros n Hn. apply elem_of_seqZ in Hn. lia. }
  split; [|split].
  - rewrite <- (take_drop (length (shuffle rnd (seqZ 1 9)) - 1)) in Hnd.
    by apply NoDup_app in Hnd as [? _].
  - by apply Forall_take.
  - rewrite length_take, (Permutation_length Hp). reflexivity.
Qed.

Lemma zeros_seeded numbers : seeded (np.zeros 9 9) numbers.
Proof.
  assert (Hzero : ∀ r c v, in_grid r c -> np.getitem2 (np.zeros 9 9) r c = Ok v -> v = 0).
  { intros r c v Hin Hv. grid_cases Hin; vm_compute in Hv; congruence. }
  split; [reflexivity|]. split.
  - intros r c v Hin Hv. rewrite (Hzero r c v Hin Hv). split; [lia|congruence].
  - intros r1 c1 r2 c2 v H1 H2 V1 _ Hv0. by rewrite (Hzero r1 c1 v H1 V1) in Hv0.
Qed.

Lemma create_board_seeded rnd fuel b k :
  draws_in_range rnd -> shuffle_permutes rnd ->
  _create_board fuel rnd = Some (Ok (b, k)) -> seeded b [].
Proof.
  intros Hrnd Hperm Hrun. unfold _create_board in Hrun.
  destruct (shuffled_numbers rnd Hperm) as (Hnd & Hall & _).
  eapply (create_board_loop_seeded rnd Hrnd); [apply zeros_seeded | | | exact Hrun];
    assumption.
Qed.

(** X10: with draws in 0..8 and a shuffle that permutes, a board returned
    by [_create_board] is 9x9 and holds exactly 8 non-zero cells; their
    values lie in 1..9 and are pairwise different, all other cells hold
    0. *)
Theorem create_board_returns_seed rnd fuel b k :
  draws_in_range rnd -> shuffle_permutes rnd ->
  _create_board fuel rnd = Some (Ok (b, k)) ->
  np.shape_is_9x9 b = true
  /\ count_nonzero b = 8%nat
  /\ count_empty b = 73%nat
  /\ (∀ r c v, in_grid r c -> np.getitem2 b r c = Ok v -> 0 <= v <= 9)
  /\ distinct_values b.
Proof.
  intros Hrnd Hperm Hrun.
  destruct (create_board_spec rnd fuel b k Hrnd Hperm Hrun) as [Hb H8].
  destruct (create_board_seeded rnd fuel b k Hrnd Hperm Hrun) as (_ & Hcells & Hdist).
  pose proof (count_cells b) as Hsum.
  split; [exact Hb|]. split; [exact H8|]. split; [lia|].
  split; [|exact Hdist]. intros r c v Hin Hv. by apply (Hcells r c v).
Qed.

Lemma create_board_returns_seed_witness :
  count_nonzero seed_board = 8%nat /\ distinct_values seed_board.
Proof.
  destruct (create_board_returns_seed cycle_source 4000 seed_board 16
              cycle_source_in_range cycle_source_permutes cycle_source_seeds)
    as (_ & H8 & _ & _ & Hdist).
  split; [exact H8 | exact Hdist].
Defined.

(** X11: [_create_board] never raises when the draws lie in 0..8, and it
    returns whenever the random source keeps drawing every grid position:
    the loop only waits for draws of empty cells, of which at least 74
    remain. *)
Theorem create_board_terminates rnd :
  draws_in_range rnd -> shuffle_permutes rnd ->
  (∀ fuel e, _create_board fuel rnd ≠ Some (Raise e))
  /\ (fair rnd 0 -> ∃ fuel b k, _create_board fuel rnd = Some (Ok (b, k))).
Proof.
  intros Hrnd Hperm. split.
  - intros fuel e. unfold _create_board.
    destruct (shuffled_numbers rnd Hperm) as (_ & Hall & _).
    by apply create_board_loop_no_raise.
  - intros Hfair. unfold _create_board.
    destruct (shuffled_numbers rnd Hperm) as (_ & Hall & Hlen).
    apply (create_board_loop_terminates rnd Hrnd); [reflexivity| | |exact Hfair].
    + exact Hall.
    + rewrite Hlen. vm_compute. lia.
Qed.

Lemma fair_earlier rnd k : fair rnd (S (S k)) -> fair rnd k.
Proof.
  intros Hfair j0 r c Hin.
  destruct (Hfair j0 r c Hin) as (j & Hj & Hr & Hc).
  exists (S j). split; [lia|].
  replace (k + 2 * S j)%nat with (S (S k) + 2 * j)%nat by lia. auto.
Qed.

Lemma cycle_source_fair_start : fair cycle_source 0.
Proof. do 8 apply fair_earlier. exact cycle_source_fair. Qed.

Lemma create_board_terminates_witness :
  ∃ fuel b k, _create_board fuel cycle_source = Some (Ok (b, k)).
Proof.
  exact (proj2 (create_board_terminates cycle_source cycle_source_in_range
                  cycle_source_permutes) cycle_source_fair_start).
Defined.

(** ** What [create_random_sudoku] returns *)

Lemma distinct_invariant s : distinct_values (board s) -> region_invariant s.
Proof.
  intros Hdist.
  assert (Honce : ∀ G, once_on s G).
  { intros G v Hv (r1 & c1 & r2 & c2 & H1 & H2 & _ & _ & Hne & V1 & V2).
    apply Hne. by apply (Hdist r1 c1 r2 c2 v). }
  repeat split; intros; apply Honce.
Qed.

Lemma cleared_from_refl s : cleared_from s s.
Proof. intros r c _. by left. Qed.

Lemma cleared_from_trans s1 s2 s3 :
  cleared_from s1 s2 -> cleared_from s2 s3 -> cleared_from s1 s3.
Proof.
  intros H12 H23 r c Hin.
  destruct (H23 r c Hin) as [E | E]; rewrite E; [apply (H12 r c Hin) | by right].
Qed.

Lemma cleared_keeps_invariant s s' :
  cleared_from s s' -> class_of s' = class_of s ->
  region_invariant s -> region_invariant s'.
Proof.
  intros Hclear Hcls (Hrow & Hcol & Hbox & Hdiag).
  assert (Honce : ∀ G, once_on s G -> once_on s' G).
  { intros G Hs v Hv (r1 & c1 & r2 & c2 & H1 & H2 & G1 & G2 & Hne & V1 & V2).
    apply (Hs v Hv). exists r1, c1, r2, c2.
    do 5 (split; [assumption|]). split.
    - destruct (Hclear r1 c1 H1) as [E | E]; congruence.
    - destruct (Hclear r2 c2 H2) as [E | E]; congruence. }
  split; [|split; [|split]]; intros; try (apply Honce; auto).
  rewrite Hcls in *. destruct Hdiag; [assumption|]. split; by apply Honce.
Qed.

Lemma cleared_keeps_range s s' :
  cleared_from s s' -> cells_in_range s -> cells_in_range s'.
Proof.
  intros Hclear Hrange r c v Hin Hv.
  destruct (Hclear r c Hin) as [E|E]; rewrite E in Hv.
  - by apply (Hrange r c).
  - injection Hv as <-. lia.
Qed.

Lemma written_zero_cleared s s' row column :
  written s s' 0 row column -> cleared_from s s'.
Proof.
  intros (_ & _ & _ & Hcell & Hother) r c Hin.
  destruct (decide ((r, c) = (row, column))) as [[= -> ->]|Hne];
    [by right | left; by apply Hother].
Qed.

Lemma remove_numbers_loop_cleared rnd (Hrnd : draws_in_range rnd) fuel :
  ∀ s n k, well_shaped s ->
    cleared_from s (_remove_numbers_loop fuel rnd s n k).1.1.
Proof.
  induction fuel as [|fuel IH]; intros s n k Hs.
  - cbn [_remove_numbers_loop].
    destruct (bool_decide (n = 0)); apply cleared_from_refl.
  - destruct (decide (n = 0)) as [->|Hn]; [apply cleared_from_refl|].
    destruct (remove_numbers_loop_pass rnd fuel s n k Hrnd Hs Hn)
      as (s1 & Hwrite & ->).
    assert (Hpos : in_grid (randint rnd k) (randint rnd (S k)))
      by (split; apply Hrnd).
    destruct (nonzero_at (board s) (randint rnd k, randint rnd (S k))
              && negb (is_given s (randint rnd k) (randint rnd (S k)))) eqn:Hcase;
      [|by apply IH].
    apply andb_true_iff in Hcase as [_ Hfree]. rewrite Hfree in Hwrite.
    destruct (write_cases s 0 _ _ true s1 Hs Hpos Hwrite)
      as [[? _]|(_ & _ & Hw)]; [discriminate|].
    eapply cleared_from_trans; [eapply written_zero_cleared, Hw|].
    apply IH. apply Hw.
Qed.

(** X12: with draws in 0..8 and a shuffle that permutes, a grid returned
    by [create_random_sudoku] is a proper puzzle: it is 9x9, its given
    positions are its non-empty cells, of which there are exactly [hints]
    with [hints] in 8..81, its values lie in 0..9 and none occurs twice in
    a group, and it has a solution: a full valid grid of the same class
    that agrees with it on every non-empty cell. *)
Theorem create_random_sudoku_returns_puzzle fuel rnd hints sudoku_type puzzle :
  draws_in_range rnd -> shuffle_permutes rnd ->
  create_random_sudoku fuel rnd hints sudoku_type = Returns puzzle ->
  well_shaped puzzle
  /\ given_numbers_indices puzzle = np.nonzero (board puzzle)
  /\ Z.of_nat (count_nonzero (board puzzle)) = hints
  /\ 8 <= hints <= 81
  /\ region_invariant puzzle
  /\ cells_in_range puzzle
  /\ ∃ full, complete full
       /\ class_of full = class_of puzzle
       /\ ∀ r c v, in_grid r c -> np.getitem2 (board puzzle) r c = Ok v ->
                   v ≠ 0 -> np.getitem2 (board full) r c = Ok v.
Proof.
  intros Hrnd Hperm. unfold create_random_sudoku.
  destruct (_create_board fuel rnd) as [[[b k]|e]|] eqn:Hseed; [|discriminate..].
  destruct (create_board_spec rnd fuel b k Hrnd Hperm Hseed) as [Hb Hb8].
  destruct (create_board_seeded rnd fuel b k Hrnd Hperm Hseed) as (_ & Hcells & Hdist).
  destruct (class_of_type sudoku_type) as [cls|e]; [|discriminate].
  unfold Sudoku_init at 1. rewrite Hb.
  set (s0 := mkSudoku cls b (np.nonzero b)).
  assert (Hs0 : well_shaped s0) by exact Hb.
  assert (Hg0 : given_in_grid s0) by (intros r c; by apply nonzero_in_grid).
  assert (Hinv0 : region_invariant s0) by (by apply distinct_invariant).
  assert (Hrange0 : cells_in_range s0).
  { intros r c v Hin Hv. by apply (Hcells r c v). }
  pose proof (solve_frame fuel s0) as (Hframe & _).
  pose proof (solve_sound s0 fuel) as Hsound.
  destruct (solve fuel s0) as [solved [| |]]; [|discriminate..].
  cbn [fst] in Hframe. destruct Hframe as (Hclass & Hgiven & _).
  destruct (Hsound solved Hs0 Hg0 Hinv0 Hrange0 eq_refl)
    as [(Hs & Hsolved & Hinv & Hrange) _].
  destruct (solved_counts solved Hs Hsolved) as [Hfull Hrem].
  { rewrite Hgiven. apply nonzero_from_NoDup. }
  { unfold given_in_grid. rewrite Hgiven. exact Hg0. }
  rewrite Hgiven in Hrem. cbn [s0 given_numbers_indices] in Hrem.
  rewrite (nonzero_length b Hb), Hb8 in Hrem.
  unfold _remove_numbers.
  pose proof (remove_numbers_loop_frame rnd fuel solved (81 - hints) k) as Hfr.
  pose proof (remove_numbers_loop_cleared rnd Hrnd fuel solved (81 - hints) k Hs)
    as Hclear.
  pose proof (remove_numbers_loop_finished rnd Hrnd fuel solved (81 - hints) k) as Hfin.
  destruct (_remove_numbers_loop fuel rnd solved (81 - hints) k)
    as [[removed k'] [| |]]; [|discriminate..].
  cbn zeta in Hfr. cbn [fst snd] in Hfr, Hclear.
  destruct Hfr as [(Hclass' & _ & Hshape') _].
  destruct (Hfin removed k' Hs eq_refl) as [Hn Hcount].
  assert (Hs' : well_shaped removed) by (by apply Hshape').
  unfold Sudoku_init. rewrite Hs'. cbn [of_result]. intros [= <-].
  cbn [board given_numbers_indices class_of].
  split; [exact Hs'|]. split; [reflexivity|].
  split; [unfold count_nonzero in *; cbn [board]; lia|].
  split; [lia|].
  assert (Hinv' : region_invariant removed)
    by (by apply (cleared_keeps_invariant solved)).
  split.
  { destruct Hinv' as (Hrow & Hcol & Hbox & Hdiag).
    split; [exact Hrow|]. split; [exact Hcol|]. split; [exact Hbox|exact Hdiag]. }
  split.
  { intros r c v Hin Hv.
    by apply (cleared_keeps_range solved removed Hclear Hrange r c). }
  exists solved. split; [unfold complete; auto|].
  split; [congruence|].
  intros r c v Hin Hv Hv0.
  destruct (Hclear r c Hin) as [E|E]; [by rewrite <- E | congruence].
Qed.

Lemma cycle_source_puzzle :
  ∃ puzzle, create_random_sudoku 4000 cycle_source 79 "standard" = Returns puzzle.
Proof. vm_compute. eexists. reflexivity. Qed.

Lemma create_random_sudoku_returns_puzzle_witness :
  ∃ puzzle,
    create_random_sudoku 4000 cycle_source 79 "standard" = Returns puzzle
    /\ region_invariant puzzle
    /\ Z.of_nat (count_nonzero (board puzzle)) = 79.
Proof.
  destruct cycle_source_puzzle as [puzzle Hrun].
  exists puzzle. split; [exact Hrun|].
  destruct (create_random_sudoku_returns_puzzle 4000 cycle_source 79 "standard"
              puzzle cycle_source_in_range cycle_source_permutes Hrun)
    as (_ & _ & Hcount & _ & Hinv & _).
  split; [exact Hinv | exact Hcount].
Defined.

(** ** [_remove_numbers] *)

(** X13: on a 9x9 grid and with draws in 0..8 [_remove_numbers] never
    raises.  It can only finish when [81 - hints] lies between 0 and the
    number of non-empty cells that are not given; it has then emptied
    exactly [81 - hints] cells, none of them given, and changed no other
    cell.  For any other [hints] (above 81, say) the loop never ends. *)
Theorem remove_numbers_spec rnd fuel s hints k :
  draws_in_range rnd -> well_shaped s ->
  let r := _remove_numbers fuel rnd s hints k in
  (∀ e, r.2 ≠ Crashed e)
  /\ (r.2 = Finished ->
      0 <= 81 - hints <= Z.of_nat (removable s)
      /\ cleared_from s r.1.1
      /\ keeps_given s r.1.1
      /\ Z.of_nat (count_nonzero (board r.1.1))
         = Z.of_nat (count_nonzero (board s)) - (81 - hints))
  /\ (¬ 0 <= 81 - hints <= Z.of_nat (removable s) -> r.2 = Unfinished).
Proof.
  intros Hrnd Hs. cbn zeta. unfold _remove_numbers.
  pose proof (remove_numbers_loop_no_crash rnd Hrnd fuel s (81 - hints) k) as Hsafe.
  pose proof (remove_numbers_loop_cleared rnd Hrnd fuel s (81 - hints) k Hs) as Hclear.
  pose proof (remove_numbers_keeps_given rnd Hrnd fuel s (81 - hints) k Hs) as Hkeep.
  pose proof (remove_numbers_loop_finished rnd Hrnd fuel s (81 - hints) k) as Hfin.
  destruct (_remove_numbers_loop fuel rnd s (81 - hints) k) as [[s' k'] e].
  cbn [fst snd] in *.
  assert (Hdone : e = Finished ->
                  0 <= 81 - hints <= Z.of_nat (removable s)
                  /\ Z.of_nat (count_nonzero (board s'))
                     = Z.of_nat (count_nonzero (board s)) - (81 - hints)).
  { intros ->. by apply (Hfin s' k'). }
  split; [intros e0; by apply Hsafe|].
  split; [intros He; destruct (Hdone He); auto|].
  intros Hout. destruct e as [|e|]; [|by destruct (Hsafe e Hs)|reflexivity].
  by destruct (Hdone eq_refl).
Qed.

Lemma remove_numbers_spec_witness :
  (_remove_numbers 50 cycle_source solved_seed_sudoku 82 16).2 = Unfinished.
Proof.
  assert (Hs : well_shaped solved_seed_sudoku) by reflexivity.
  apply (remove_numbers_spec cycle_source 50 solved_seed_sudoku 82 16
           cycle_source_in_range Hs). lia.
Defined.

(** ** The recursive strategy *)

Lemma solve_iterative_loop_unfold fuel s row column number :
  _solve_iterative_loop (S fuel) s row column number =
  if is_solved s then (s, Finished)
  else
    match _solve_iterative_body s row column number with
    | Continue s' row' column' number' =>
        _solve_iterative_loop fuel s' row' column' number'
    | Abort s' e => (s', Crashed e)
    end.
Proof. reflexivity. Qed.

Lemma solve_recursive_unfold depth s start_number row column :
  _solve_recursive (S depth) s start_number row column =
  match write s start_number row column with
  | Raise e => (s, Crashed e)
  | Ok (true, s1) =>
      if negb (is_solved s1) then
        match _next_row_column depth s1 row column Forward with
        | Raise e => (s1, Crashed e)
        | Ok (new_row, new_column) =>
            match np.getitem2 (board s1) new_row new_column with
            | Raise e => (s1, Crashed e)
            | Ok v =>
                _solve_recursive depth s1 (np.wrap_int64 (v + 1)) new_row new_column
            end
        end
      else (s1, Finished)
  | Ok (false, _) =>
      if start_number <? 9
      then _solve_recursive depth s (start_number + 1) row column
      else
        match write s 0 row column with
        | Raise e => (s, Crashed e)
        | Ok (_, s2) =>
            match _next_row_column depth s2 row column Backward with
            | Raise e => (s2, Crashed e)
            | Ok (new_row, new_column) =>
                match np.getitem2 (board s2) new_row new_column with
                | Raise e => (s2, Crashed e)
                | Ok v =>
                    _solve_recursive depth s2 (np.wrap_int64 (v + 1))
                      new_row new_column
                end
            end
      end
  end.
Proof.
  cbn [_solve_recursive].
  replace (start_number <=? 8) with (start_number <? 9); [reflexivity|].
  destruct (Z.ltb_spec start_number 9), (Z.leb_spec start_number 8);
    reflexivity || lia.
Qed.

Lemma next_row_column_agree d1 : ∀ d2 s row column d p q,
  _next_row_column d1 s row column d = Ok p ->
  _next_row_column d2 s row column d = Ok q -> p = q.
Proof.
  induction d1 as [|d1 IH]; intros d2 s row column d p q; [discriminate|].
  destruct d2 as [|d2]; [discriminate|].
  rewrite !next_row_column_unfold.
  destruct (neighbour s row column d) as [nr nc].
  destruct (is_given s nr nc); [apply IH | congruence].
Qed.

(** The recursion depth only decides whether [_next_row_column] raises. *)
Lemma next_row_column_depth d s row column dir p res :
  _next_row_column recursion_limit s row column dir = Ok p ->
  _next_row_column d s row column dir = res ->
  res = Ok p \/ res = Raise RecursionError.
Proof.
  intros Hlimit <-.
  destruct (_next_row_column d s row column dir) as [q|e] eqn:Hd.
  - left. f_equal. symmetry. eapply next_row_column_agree; eassumption.
  - right. f_equal. by apply next_row_column_raises in Hd.
Qed.

Lemma solve_recursive_simulated s0 depth :
  ∀ s number row column res,
    descent_state s0 s row column number \/ escaped_state s row column number ->
    _solve_recursive depth s number row column = res ->
    res.2 ≠ Crashed RecursionError ->
    _solve_iterative_loop (S depth) s row column number = res.
Proof.
  induction depth as [|d IH]; intros s number row column res Hstate Hrec Hne.
  { cbn [_solve_recursive] in Hrec. subst res. by destruct Hne. }
  assert (Hopen : is_solved s = false).
  { by destruct Hstate as [(_ & _ & H & _)|(_ & _ & H & _)]. }
  rewrite solve_iterative_loop_unfold, Hopen.
  rewrite solve_recursive_unfold in Hrec.
  destruct Hstate as [(Hsearch & Hpos & _ & Hfree & Htidy)|Hesc].
  - pose proof (pass_in_grid s0 s row column number Hsearch Hpos Hopen) as Hpass.
    destruct Hsearch as (Hkeep & Hg & Hinv & Hrange & Hnum & _).
    assert (Hs : well_shaped s) by apply Hkeep.
    unfold _solve_iterative_body, move_cursor in *.
    destruct (write_keeps_given s number row column Hs Hpos
                ltac:(apply above_int64_min; lia))
      as (legal & s1 & Hwrite & Hk1).
    rewrite Hwrite in *.
    destruct (write_cases s number row column legal s1 Hs Hpos Hwrite)
      as [[-> ->]|(-> & Hlegal & Hw)].
    + (* the trial is refused *)
      destruct (Z.ltb_spec number 9) as [Hlt|Hge].
      { apply (IH s (number + 1) row column res); [left|exact Hrec|exact Hne].
        destruct Hpass as [Hsearch'|(_ & _ & _ & -> & _)];
          [|destruct Hpos; lia].
        unfold descent_state. auto. }
      destruct (write_zero_result s row column Hs Hpos) as [s2 Hwrite0].
      unfold is_given in Hwrite0.
      rewrite (bool_decide_eq_false_2 _ Hfree) in Hwrite0. cbn [negb] in Hwrite0.
      rewrite Hwrite0 in *.
      destruct (write_cases s 0 row column true s2 Hs Hpos Hwrite0)
        as [[? _]|(_ & _ & Hw0)]; [discriminate|].
      assert (Hs2 : well_shaped s2) by apply Hw0.
      assert (Hgiven2 : given_numbers_indices s2 = given_numbers_indices s)
        by apply Hw0.
      assert (Hg2 : given_in_grid s2).
      { unfold given_in_grid. rewrite Hgiven2. exact Hg. }
      destruct (next_backward s2 Hg2 recursion_limit row column)
        as (r' & c' & Hnext & Hc' & Hfree' & Hrank' & Hbetween');
        [apply Hpos | destruct Hpos; unfold rank, recursion_limit; lia |].
      rewrite Hnext in *.
      destruct (next_row_column_depth d s2 row column Backward (r', c') _
                  Hnext eq_refl) as [Hd|Hd]; rewrite Hd in Hrec;
        [|subst res; by destruct Hne].
      destruct (getitem2_total (board s2) r' c' Hs2) as [v Hv];
        [destruct Hpos; unfold rank in Hrank'; lia | exact Hc' |].
      rewrite Hv in *.
      apply (IH s2 (np.wrap_int64 (v + 1)) r' c' res); [|exact Hrec|exact Hne].
      destruct Hpass as [Hsearch'|Hesc']; [left|by right].
      assert (Hin' : in_grid r' c').
      { destruct Hsearch' as (_ & _ & _ & _ & _ & [Hin'|[[= -> ->] _]]);
          [exact Hin'|].
        destruct Hpos. unfold rank in Hrank'. lia. }
      unfold descent_state. split; [exact Hsearch'|]. split; [exact Hin'|].
      split.
      { apply (zero_cell_not_solved s2 row column Hs2 Hpos). apply Hw0. }
      split; [exact Hfree'|].
      intros r c Hin Hnot Hlater.
      destruct (decide ((r, c) = (row, column))) as [[= -> ->]|Hother];
        [apply Hw0|].
      destruct Hw0 as (_ & _ & _ & _ & Hrest). rewrite (Hrest r c Hin Hother).
      rewrite Hgiven2 in Hnot.
      apply (Htidy r c Hin Hnot).
      destruct (Z.lt_ge_cases (rank row column) (rank r c)) as [Hlt|Hle];
        [exact Hlt|].
      exfalso. apply Hnot. rewrite <- Hgiven2. apply Hbetween'; [apply Hin|].
      split; [exact Hlater|].
      assert (rank r c ≠ rank row column); [|lia].
      intros Heq. apply Hother. destruct Hin, Hpos. unfold rank in Heq.
      f_equal; lia.
    + (* the trial is accepted *)
      assert (Hs1 : well_shaped s1) by apply Hw.
      assert (Hgiven1 : given_numbers_indices s1 = given_numbers_indices s)
        by apply Hw.
      assert (Hg1 : given_in_grid s1).
      { unfold given_in_grid. rewrite Hgiven1. exact Hg. }
      destruct (next_forward s1 Hs1 Hg1 recursion_limit row column)
        as (r' & c' & Hnext & Hc' & Hfree' & Hrank' & _);
        [apply Hpos | destruct Hpos; unfold rank; lia
         | destruct Hpos; unfold rank, recursion_limit; lia |].
      rewrite Hnext in *.
      destruct (is_solved s1) eqn:Hsolved1; cbn [negb] in Hrec.
      { subst res. destruct d; cbn [_solve_iterative_loop]; by rewrite Hsolved1. }
      destruct (next_row_column_depth d s1 row column Forward (r', c') _
                  Hnext eq_refl) as [Hd|Hd]; rewrite Hd in Hrec;
        [|subst res; by destruct Hne].
      destruct Hpass as [Hsearch'|(_ & _ & _ & -> & _)];
        [|destruct Hpos; unfold rank in Hrank'; lia].
      destruct (decide (r' = 9)) as [->|Hrow].
      { assert (c' = 0) as -> by (unfold rank in Hrank'; lia).
        rewrite (getitem2_past_grid _ 0 Hs1) in Hrec. subst res.
        rewrite solve_iterative_loop_unfold, Hsolved1.
        unfold _solve_iterative_body.
        rewrite (write_past_grid s1 1 0 Hs1 Hg1) by lia. reflexivity. }
      assert (Hin' : in_grid r' c').
      { destruct Hpos. unfold rank in Hrank'. unfold in_grid. lia. }
      assert (Hother : (r', c') ≠ (row, column)).
      { intros [= -> ->]. lia. }
      assert (Hzero : np.getitem2 (board s1) r' c' = Ok 0).
      { destruct Hw as (_ & _ & _ & _ & Hrest). rewrite (Hrest r' c' Hin' Hother).
        apply (Htidy r' c' Hin'); [by rewrite <- Hgiven1 | lia]. }
      rewrite Hzero in Hrec. change (np.wrap_int64 (0 + 1)) with 1 in Hrec.
      apply (IH s1 1 r' c' res); [left|exact Hrec|exact Hne].
      unfold descent_state. split; [exact Hsearch'|]. split; [exact Hin'|].
      split; [exact Hsolved1|]. split; [exact Hfree'|].
      intros r c Hin Hnot Hlater.
      destruct Hw as (_ & _ & _ & _ & Hrest). rewrite (Hrest r c Hin).
      * apply (Htidy r c Hin); [by rewrite <- Hgiven1 | lia].
      * intros [= -> ->]. lia.
  - (* the cursor has left the grid *)
    pose proof (pass_escaped s row column number Hesc) as Hpass.
    destruct Hesc as (Hs & Hg & _ & -> & Hcase).
    unfold _solve_iterative_body, move_cursor in *.
    assert (Hraise : ∀ c n, 0 <= c < 9 -> 1 <= n <= 9 ->
                            write s n (-1) c = Raise IndexError).
    { intros c n Hc Hn.
    apply write_negative_raises; [assumption | assumption | lia | lia | lia |].
    split; [apply above_int64_min|]; lia. }
    destruct Hcase as [(-> & Hnum & Hten)|(-> & Hnum)];
      [|rewrite Hraise in * by lia; exact Hrec].
    destruct (decide (number = 10)) as [->|Hne10];
      [|rewrite Hraise in * by lia; exact Hrec].
    assert (Hfree : is_given s (-1) 8 = false).
    { apply not_given_outside; [exact Hg|]. unfold in_grid. lia. }
    rewrite (write_too_big s 10 (-1) 8 Hfree) in * by lia.
    change (10 <? 9) with false in *. cbn iota in *.
    destruct (write_zero_negative s (-1) 8 Hs Hg) as (b' & Hset & Hwrite0); [lia..|].
    rewrite Hwrite0 in *.
    set (s2 := mkSudoku (class_of s) b' (given_numbers_indices s)) in *.
    assert (Hg2 : given_in_grid s2) by exact Hg.
    assert (Hnext : _next_row_column recursion_limit s2 (-1) 8 Backward = Ok (-1, 7)).
    { change recursion_limit with (S 999). rewrite next_row_column_unfold.
      change (neighbour s2 (-1) 8 Backward) with (-1, 7). cbv beta iota zeta.
      rewrite (not_given_outside s2 (-1) 7 Hg2); [reflexivity|].
      unfold in_grid. lia. }
    rewrite Hnext in *.
    destruct (next_row_column_depth d s2 (-1) 8 Backward (-1, 7) _
                Hnext eq_refl) as [Hd|Hd]; rewrite Hd in Hrec;
      [|subst res; by destruct Hne].
    destruct (np.getitem2 (board s2) (-1) 7) as [w|e]; [|exact Hrec].
    apply (IH s2 (np.wrap_int64 (w + 1)) (-1) 7 res); [by right|exact Hrec|exact Hne].
Qed.

Lemma constructed_grid s :
  well_shaped s -> as_constructed s ->
  given_in_grid s /\ given_filled s
  /\ ∀ r c, in_grid r c -> (r, c) ∉ given_numbers_indices s ->
            np.getitem2 (board s) r c = Ok 0.
Proof.
  intros Hs Hc. unfold given_in_grid, given_filled. rewrite Hc.
  split; [intros r c; by apply nonzero_in_grid|]. split.
  - intros r c Hin. apply nonzero_spec in Hin as (_ & _ & v & Hv & Hne).
    congruence.
  - intros r c Hin Hnot.
    destruct (getitem2_total (board s) r c Hs) as [v Hv];
      [destruct Hin; lia | apply Hin |].
    destruct (decide (v = 0)) as [->|Hne]; [exact Hv|].
    exfalso. apply Hnot, nonzero_spec.
    split; [apply Hin|]. split; [apply Hin|]. by exists v.
Qed.

Lemma get_start_loop_zero fuel : ∀ s row column r c,
  _get_start_loop fuel s row column = Some (Ok (r, c)) ->
  np.getitem2 (board s) r c = Ok 0.
Proof.
  induction fuel as [|fuel IH]; intros s row column r c;
    cbn [_get_start_loop]; [discriminate|].
  destruct (np.getitem2 (board s) row column) as [v|e] eqn:Hv; [|discriminate].
  case_bool_decide as Hz.
  - intros [= <- <-]. by rewrite <- Hz.
  - destruct (_next_row_column recursion_limit s row column Forward)
      as [[row' column']|e]; [apply IH|discriminate].
Qed.

Lemma solve_recursively_simulated s0 fuel s' e :
  well_shaped s0 -> as_constructed s0 -> region_invariant s0 -> cells_in_range s0 ->
  solve_recursively fuel s0 = (s', e) ->
  e ≠ Unfinished -> e ≠ Crashed RecursionError ->
  ∀ fuel', (fuel <= fuel')%nat -> (raised_recursion_limit < fuel')%nat ->
    solve fuel' s0 = (s', e).
Proof.
  intros Hs Hc Hinv Hrange Hrun Hend Hstack fuel' Hle Hlimit.
  destruct (constructed_grid s0 Hs Hc) as (Hg & Hfilled & Hempty).
  unfold solve_recursively in Hrun. unfold solve.
  unfold _get_start_row_column, _solve_iterative in *.
  destruct (is_solved s0) eqn:Hopen; cbn [negb] in *; [exact Hrun|].
  destruct (_get_start_loop fuel s0 0 0) as [start|] eqn:Hstart;
    [|injection Hrun as _ <-; by destruct Hend].
  rewrite (get_start_loop_more fuel fuel' s0 0 0 start Hstart Hle).
  destruct start as [[row column]|err]; [|exact Hrun].
  assert (Hpos : in_grid row column).
  { apply (get_start_loop_in_grid s0 Hs Hg fuel 0 0 row column);
      [lia | unfold rank; lia | exact Hstart]. }
  pose proof (get_start_loop_zero fuel s0 0 0 row column Hstart) as Hzero.
  apply (solve_iterative_loop_more (S raised_recursion_limit));
    [|exact Hend|exact (proj2 (Nat.le_succ_l _ _) Hlimit)].
  apply (solve_recursive_simulated s0); [left|exact Hrun|exact Hstack].
  unfold descent_state, search_state.
  split.
  { split; [by apply keeps_given_refl|]. split; [exact Hg|].
    split; [exact Hinv|]. split; [exact Hrange|]. split; [lia|by left]. }
  split; [exact Hpos|]. split; [exact Hopen|]. split.
  - intros Hin. by apply (Hfilled row column).
  - intros r c Hin Hnot _. by apply Hempty.
Qed.

Lemma seed_sudoku_valid :
  well_shaped seed_sudoku /\ as_constructed seed_sudoku
  /\ region_invariant seed_sudoku /\ cells_in_range seed_sudoku.
Proof.
  destruct (create_board_seeded cycle_source 4000 seed_board 16
              cycle_source_in_range cycle_source_permutes cycle_source_seeds)
    as (Hb & Hcells & Hdist).
  split; [exact Hb|]. split; [reflexivity|].
  split; [by apply distinct_invariant|].
  intros r c v Hin Hv. by apply (Hcells r c v).
Qed.

Lemma seed_sudoku_solved_recursively :
  solve_recursively 4000 seed_sudoku = (solved_seed_sudoku, Finished).
Proof. vm_compute. reflexivity. Qed.

(** X14: the two strategies of [solve] agree on a grid as the constructor
    builds it (9x9, values in 0..9, no value twice in a group).  Whenever
    the call with [use_recursion=True] ends without exhausting the stack,
    the default iterative call ends in the same way, returning or raising
    [IndexError], and leaves the same grid. *)
Theorem solve_strategies_agree s0 fuel s' e :
  well_shaped s0 -> as_constructed s0 -> region_invariant s0 -> cells_in_range s0 ->
  solve_recursively fuel s0 = (s', e) ->
  e ≠ Unfinished -> e ≠ Crashed RecursionError ->
  (∀ fuel', (fuel <= fuel')%nat -> (raised_recursion_limit < fuel')%nat ->
     solve fuel' s0 = (s', e))
  /\ (∀ fuel2 s2 e2, solve fuel2 s0 = (s2, e2) -> e2 ≠ Unfinished ->
        (s2, e2) = (s', e)).
Proof.
  intros Hs Hc Hinv Hrange Hrun Hend Hstack.
  pose proof (solve_recursively_simulated s0 fuel s' e Hs Hc Hinv Hrange Hrun
                Hend Hstack) as Hsim.
  split; [exact Hsim|].
  intros fuel2 s2 e2 Hrun2 Hend2.
  set (big := (fuel + fuel2 + S raised_recursion_limit)%nat).
  assert (H1 : solve big s0 = (s', e)).
  { apply Hsim; unfold big.
    - apply Nat.le_trans with (fuel + fuel2)%nat; apply Nat.le_add_r.
    - apply Nat.lt_le_trans with (S raised_recursion_limit);
        [apply Nat.lt_succ_diag_r|].
      rewrite Nat.add_comm. apply Nat.le_add_r. }
  assert (H2 : solve big s0 = (s2, e2)).
  { apply (solve_more fuel2); [exact Hrun2|exact Hend2|]. unfold big.
    apply Nat.le_trans with (fuel + fuel2)%nat; [|apply Nat.le_add_r].
    rewrite Nat.add_comm. apply Nat.le_add_r. }
  congruence.
Qed.

Lemma solve_strategies_agree_witness :
  solve (S raised_recursion_limit) seed_sudoku = (solved_seed_sudoku, Finished).
Proof.
  destruct seed_sudoku_valid as (Hs & Hc & Hinv & Hrange).
  assert (Hend : Finished ≠ Unfinished) by discriminate.
  assert (Hstack : Finished ≠ Crashed RecursionError) by discriminate.
  assert (Hle : (4000 <= S raised_recursion_limit)%nat).
  { apply Nat.leb_le. vm_compute. reflexivity. }
  exact (proj1 (solve_strategies_agree seed_sudoku 4000 solved_seed_sudoku Finished
                  Hs Hc Hinv Hrange seed_sudoku_solved_recursively Hend Hstack)
           (S raised_recursion_limit) Hle (Nat.lt_succ_diag_r _)).
Defined.

(** X15: the recursive strategy is sound on a grid as the constructor
    builds it: when [solve] with [use_recursion=True] returns, the grid is
    full, every row, column and box (and both diagonals of a
    [DiagonalSudoku]) holds each of 1..9, and the given cells hold what
    they held. *)
Theorem solve_recursively_returns_valid_grid s0 fuel s' :
  well_shaped s0 -> as_constructed s0 -> region_invariant s0 -> cells_in_range s0 ->
  solve_recursively fuel s0 = (s', Finished) ->
  complete s'
  /\ keeps_given s0 s'
  /\ (∀ row column, in_grid row column ->
        every_digit_on s' (in_row row)
        /\ every_digit_on s' (in_column column)
        /\ every_digit_on s' (in_box row column))
  /\ (class_of s' = Diagonal ->
      every_digit_on s' on_diagonal /\ every_digit_on s' on_antidiagonal).
Proof.
  intros Hs Hc Hinv Hrange Hrun.
  destruct (constructed_grid s0 Hs Hc) as (Hg & _).
  assert (Hiter : solve (fuel + S raised_recursion_limit) s0 = (s', Finished)).
  { apply (solve_recursively_simulated s0 fuel s' Finished Hs Hc Hinv Hrange Hrun);
      [discriminate | discriminate | apply Nat.le_add_r |].
    apply Nat.lt_le_trans with (S raised_recursion_limit);
      [apply Nat.lt_succ_diag_r|].
    rewrite Nat.add_comm. apply Nat.le_add_r. }
  destruct (solve_sound s0 _ s' Hs Hg Hinv Hrange Hiter) as [Hfull Hk].
  split; [exact Hfull|]. split; [exact Hk|]. by apply complete_every_digit.
Qed.

Lemma solve_recursively_returns_valid_grid_witness :
  complete solved_seed_sudoku /\ keeps_given seed_sudoku solved_seed_sudoku.
Proof.
  destruct seed_sudoku_valid as (Hs & Hc & Hinv & Hrange).
  destruct (solve_recursively_returns_valid_grid seed_sudoku 4000 solved_seed_sudoku
              Hs Hc Hinv Hrange seed_sudoku_solved_recursively)
    as (Hfull & Hk & _).
  split; [exact Hfull | exact Hk].
Defined.

(** ** The search skips no solution *)

Lemma rank_eq r1 c1 r2 c2 :
  0 <= c1 < 9 -> 0 <= c2 < 9 -> rank r1 c1 = rank r2 c2 -> (r1, c1) = (r2, c2).
Proof. unfold rank. intros H1 H2 Heq. f_equal; lia. Qed.

Lemma refused_not_legal s number row column s' :
  well_shaped s -> in_grid row column ->
  write s number row column = Ok (false, s') ->
  ¬ legal_condition s number row column.
Proof.
  intros Hs Hpos Hwrite Hlegal.
  destruct (Z.lt_ge_cases number np.int64_min) as [Hover|Hlow].
  { destruct Hlegal as [Hfree _].
    rewrite (write_overflow s number row column Hs Hpos Hfree Hover) in Hwrite.
    discriminate. }
  apply (is_move_legal_iff s number row column Hs Hpos Hlow) in Hlegal.
  destruct (write_effect s number row column Hs Hpos Hlow)
    as (legal & s2 & Hl & Hw & _).
  congruence.
Qed.

Lemma pass_descent s0 s row column number :
  descent_state s0 s row column number ->
  match _solve_iterative_body s row column number with
  | Abort _ _ => False
  | Continue s' r' c' n' =>
      pass_outcome s s' row column number r' c' n'
      /\ (search_state s0 s' r' c' n' \/ escaped_state s' r' c' n')
  end.
Proof.
  intros (Hsearch & Hpos & Hopen & Hfree & _).
  pose proof (pass_in_grid s0 s row column number Hsearch Hpos Hopen) as Hpass.
  destruct Hsearch as (Hkeep & Hg & _ & Hrange & Hnum & _).
  assert (Hs : well_shaped s) by apply Hkeep.
  unfold _solve_iterative_body, move_cursor in *.
  destruct (write_keeps_given s number row column Hs Hpos
              ltac:(apply above_int64_min; lia))
    as (legal & s1 & Hwrite & _).
  rewrite Hwrite in *.
  destruct (write_cases s number row column legal s1 Hs Hpos Hwrite)
    as [[-> ->]|(-> & Hlegal & Hw)].
  - pose proof (refused_not_legal s number row column s Hs Hpos Hwrite) as Hrefused.
    destruct (Z.ltb_spec number 9) as [Hlt|Hge].
    { split; [|exact Hpass]. left. auto. }
    destruct (write_zero_result s row column Hs Hpos) as [s2 Hwrite0].
    unfold is_given in Hwrite0.
    rewrite (bool_decide_eq_false_2 _ Hfree) in Hwrite0. cbn [negb] in Hwrite0.
    rewrite Hwrite0 in *.
    destruct (write_cases s 0 row column true s2 Hs Hpos Hwrite0)
      as [[? _]|(_ & _ & Hw0)]; [discriminate|].
    assert (Hs2 : well_shaped s2) by apply Hw0.
    assert (Hg2 : given_in_grid s2).
    { unfold given_in_grid. destruct Hw0 as (_ & _ & -> & _). exact Hg. }
    destruct (next_backward s2 Hg2 recursion_limit row column)
      as (r' & c' & Hnext & Hprev);
      [apply Hpos | destruct Hpos; unfold rank, recursion_limit; lia |].
    rewrite Hnext in *.
    destruct (getitem2_total (board s2) r' c' Hs2) as [v Hv];
      [destruct Hpos, Hprev as (Hc' & _ & Hrank' & _); unfold rank in Hrank'; lia
      | apply Hprev |].
    rewrite Hv in *.
    assert (Hrange2 : cells_in_range s2).
    { apply (written_keeps_range s s2 0 row column); [exact Hrange|lia|exact Hw0]. }
    assert (Hv9 : 0 <= v <= 9).
    { destruct Hprev as (Hc' & _ & Hrank' & _).
      destruct (decide (r' = -1)) as [->|Hr'].
      - rewrite (getitem2_negative _ (-1) c' Hs2) in Hv by lia.
        apply (Hrange2 (-1 + 9) c'); [unfold in_grid; lia | exact Hv].
      - apply (Hrange2 r' c'); [|exact Hv].
        destruct Hpos. unfold rank in Hrank'. unfold in_grid. lia. }
    rewrite (wrap_int64_cell v Hv9) in *.
    split; [|exact Hpass]. right. left.
    replace (v + 1 - 1) with v by lia. auto.
  - assert (Hs1 : well_shaped s1) by apply Hw.
    assert (Hg1 : given_in_grid s1).
    { unfold given_in_grid. destruct Hw as (_ & _ & -> & _). exact Hg. }
    destruct (next_forward s1 Hs1 Hg1 recursion_limit row column)
      as (r' & c' & Hnext & Hnf);
      [apply Hpos | destruct Hpos; unfold rank; lia
       | destruct Hpos; unfold rank, recursion_limit; lia |].
    rewrite Hnext in *.
    split; [|exact Hpass]. right. right. auto.
Qed.

Lemma solution_cell s0 g r c :
  solution s0 g -> in_grid r c ->
  ∃ v, np.getitem2 (board g) r c = Ok v /\ 1 <= v <= 9.
Proof.
  intros [(Hs & Hsolved & _ & Hrange) _] Hin.
  assert (Hnz : nonzero_at (board g) (r, c) = true).
  { apply solved_nonzero; [exact Hs|exact Hsolved|by apply all_grid_spec]. }
  apply nonzero_at_spec in Hnz as (v & Hv & Hne).
  exists v. split; [exact Hv|]. pose proof (Hrange r c v Hin Hv). lia.
Qed.

Lemma solution_given s0 s g r c :
  keeps_given s0 s -> solution s0 g -> in_grid r c ->
  (r, c) ∈ given_numbers_indices s ->
  np.getitem2 (board g) r c = np.getitem2 (board s) r c.
Proof.
  intros (_ & _ & Hgs & Hvs) [_ (_ & _ & _ & Hvg)] Hin Hgiven.
  rewrite Hgs in Hgiven. rewrite (Hvs r c Hgiven Hin). by apply Hvg.
Qed.

Lemma solution_agrees s0 s g row column r c v :
  keeps_given s0 s -> solution s0 g -> in_grid row column ->
  unwritten_after s row column -> agrees_before g s row column ->
  in_grid r c -> (r, c) ≠ (row, column) ->
  np.getitem2 (board s) r c = Ok v -> v ≠ 0 ->
  np.getitem2 (board g) r c = Ok v.
Proof.
  intros Hk Hsol Hpos Htidy Hagree Hin Hne Hv Hv0.
  destruct (Z.lt_ge_cases (rank r c) (rank row column)) as [Hlt|Hge].
  - by rewrite (Hagree r c Hin Hlt).
  - destruct (decide ((r, c) ∈ given_numbers_indices s)) as [Hgiven|Hnot].
    + by rewrite (solution_given s0 s g r c Hk Hsol Hin Hgiven).
    + assert (Hlater : rank row column < rank r c).
      { assert (rank r c ≠ rank row column); [|lia]. intros Heq. apply Hne.
        apply rank_eq; [apply Hin|apply Hpos|exact Heq]. }
      rewrite (Htidy r c Hin Hnot Hlater) in Hv. congruence.
Qed.

(** The value a solution holds at the cursor is a legal trial there, when
    the solution agrees with the grid before the cursor. *)
Lemma solution_legal s0 s g row column number :
  keeps_given s0 s -> solution s0 g -> in_grid row column ->
  (row, column) ∉ given_numbers_indices s ->
  unwritten_after s row column -> agrees_before g s row column ->
  np.getitem2 (board g) row column = Ok number ->
  legal_condition s number row column.
Proof.
  intros Hk Hsol Hpos Hfree Htidy Hagree Hcell.
  destruct (solution_cell s0 g row column Hsol Hpos) as (v & Hv & Hrange).
  rewrite Hcell in Hv. injection Hv as <-.
  pose proof Hsol as [(_ & _ & (Hrow & Hcol & Hbox & Hdiag) & _) (_ & Hclsg & _)].
  assert (Hsame : ∀ r c, in_grid r c -> (r, c) ≠ (row, column) ->
            np.getitem2 (board s) r c = Ok number ->
            np.getitem2 (board g) r c = Ok number).
  { intros r c Hin Hne Hv.
    apply (solution_agrees s0 s g row column r c number); auto. lia. }
  assert (Hno : ∀ G, G row column = true -> once_on g G ->
                     ¬ occurs_elsewhere s number row column G).
  { intros G HG Honce (r & c & Hin & HGrc & Hne & Hv).
    apply (Honce number); [lia|].
    exists row, column, r, c.
    split; [exact Hpos|]. split; [exact Hin|]. split; [exact HG|].
    split; [exact HGrc|]. split; [congruence|]. split; [exact Hcell|].
    by apply Hsame. }
  assert (Hnorep : ∀ G, once_on g G -> ¬ repeated_after s number row column G).
  { intros G Honce (r1 & c1 & r2 & c2 & H1 & H2 & G1 & G2 & Hne & A1 & A2).
    apply (Honce number); [lia|]. exists r1, c1, r2, c2.
    do 5 (split; [assumption|]).
    assert (Hafter : ∀ r c, in_grid r c -> holds_after s number row column r c ->
                            np.getitem2 (board g) r c = Ok number).
    { intros r c Hin Hh. unfold holds_after in Hh.
      destruct (decide ((r, c) = (row, column))) as [[= -> ->]|Hne'];
        [exact Hcell | by apply Hsame]. }
    split; by apply Hafter. }
  split; [exact Hfree|]. right. split; [lia|].
  split; [apply Hno; [unfold in_row; apply Z.eqb_refl | apply Hrow]|].
  split; [apply Hno; [unfold in_column; apply Z.eqb_refl | apply Hcol]|].
  split; [apply Hno; [unfold in_box; by rewrite !Z.eqb_refl | apply Hbox]|].
  intros Hcls. destruct Hdiag as [Hd Ha].
  { destruct Hk as (_ & Hclss & _). congruence. }
  split; by apply Hnorep.
Qed.

Lemma nothing_below_refused s0 s row column number :
  keeps_given s0 s -> in_grid row column ->
  (row, column) ∉ given_numbers_indices s -> unwritten_after s row column ->
  ¬ legal_condition s number row column ->
  nothing_below s0 s row column number ->
  nothing_below s0 s row column (number + 1).
Proof.
  intros Hk Hpos Hfree Htidy Hrefused Hbelow g r c lower vg
    Hsol Hin Hnot Hrank Hagree Hbound Hvg.
  unfold trial_bound in Hbound.
  destruct (decide ((r, c) = (row, column))) as [[= -> ->]|Hne].
  - subst lower.
    assert (number <= vg).
    { apply (Hbelow g row column number vg Hsol Hin Hnot Hrank Hagree);
        [|exact Hvg].
      unfold trial_bound. by rewrite decide_True. }
    assert (vg ≠ number); [|lia].
    intros ->. apply Hrefused.
    by apply (solution_legal s0 s g row column number).
  - apply (Hbelow g r c lower vg Hsol Hin Hnot Hrank Hagree); [|exact Hvg].
    unfold trial_bound. by rewrite decide_False.
Qed.

Lemma nothing_below_accepted s0 s s1 row column number r' c' :
  in_grid row column ->
  written s s1 number row column -> next_free s1 row column r' c' ->
  nothing_below s0 s row column number ->
  nothing_below s0 s1 r' c' 1.
Proof.
  intros Hpos Hw (Hc' & Hfree' & Hrank' & Hbetween) Hbelow g r c lower vg
    Hsol Hin Hnot Hrank Hagree Hbound Hvg.
  destruct Hw as (_ & _ & Hgiven & Hcell & Hrest).
  unfold trial_bound in Hbound.
  destruct (decide ((r, c) = (r', c'))) as [[= -> ->]|Hne].
  - subst lower.
    destruct (solution_cell s0 g r' c' Hsol Hin) as (v & Hv & Hrange).
    assert (vg = v) as -> by congruence. lia.
  - assert (Hle : rank r c <= rank row column).
    { destruct (Z.le_gt_cases (rank r c) (rank row column)) as [Hle|Hgt];
        [exact Hle|].
      exfalso. apply Hnot. apply Hbetween; [apply Hin|]. split; [lia|].
      assert (rank r c ≠ rank r' c'); [|lia].
      intros Heq. apply Hne. apply rank_eq; [apply Hin|exact Hc'|exact Heq]. }
    rewrite Hgiven in Hnot.
    assert (Hagree' : agrees_before g s r c).
    { intros r2 c2 Hin2 Hlt. rewrite (Hagree r2 c2 Hin2 Hlt).
      apply Hrest; [exact Hin2|]. intros [= -> ->]. lia. }
    apply (Hbelow g r c lower vg Hsol Hin Hnot Hle Hagree'); [|exact Hvg].
    unfold trial_bound.
    destruct (decide ((r, c) = (row, column))) as [[= -> ->]|Hne2].
    + rewrite Hcell in Hbound. congruence.
    + rewrite <- (Hrest r c Hin Hne2). exact Hbound.
Qed.

(** Once the last trial at the cursor is refused, no solution agrees with
    the grid before the cursor. *)
Lemma dead_end s0 s row column number g :
  keeps_given s0 s -> in_grid row column ->
  (row, column) ∉ given_numbers_indices s -> unwritten_after s row column ->
  ¬ legal_condition s number row column -> 9 <= number ->
  nothing_below s0 s row column number ->
  solution s0 g -> agrees_before g s row column -> False.
Proof.
  intros Hk Hpos Hfree Htidy Hrefused Hge Hbelow Hsol Hagree.
  destruct (solution_cell s0 g row column Hsol Hpos) as (vg & Hvg & Hrange).
  assert (Hle : number <= vg).
  { apply (Hbelow g row column number vg Hsol Hpos Hfree (Z.le_refl _) Hagree);
      [|exact Hvg].
    unfold trial_bound. by rewrite decide_True. }
  assert (vg = number) as -> by lia.
  apply Hrefused. by apply (solution_legal s0 s g row column number).
Qed.

Lemma nothing_below_retreat s0 s s2 row column number r' c' v :
  keeps_given s0 s -> in_grid row column ->
  (row, column) ∉ given_numbers_indices s -> unwritten_after s row column ->
  ¬ legal_condition s number row column -> 9 <= number ->
  written s s2 0 row column -> previous_free s2 row column r' c' ->
  np.getitem2 (board s2) r' c' = Ok v ->
  nothing_below s0 s row column number ->
  nothing_below s0 s2 r' c' (v + 1)
  /\ (rank r' c' = -1 -> ∀ g, ¬ solution s0 g).
Proof.
  intros Hk Hpos Hfree Htidy Hrefused Hge Hw0 (Hc' & Hfree' & Hrank' & Hbetween)
    Hv Hbelow.
  destruct Hw0 as (_ & _ & Hgiven & Hcell & Hrest).
  rewrite Hgiven in Hbetween.
  split.
  - intros g r c lower vg Hsol Hin Hnot Hrank Hagree Hbound Hvg.
    rewrite Hgiven in Hnot.
    assert (Hother : (r, c) ≠ (row, column)) by (intros [= -> ->]; lia).
    assert (Hagree' : agrees_before g s r c).
    { intros r2 c2 Hin2 Hlt. rewrite (Hagree r2 c2 Hin2 Hlt).
      apply Hrest; [exact Hin2|]. intros [= -> ->]. lia. }
    unfold trial_bound in Hbound.
    destruct (decide ((r, c) = (r', c'))) as [[= -> ->]|Hne].
    + subst lower.
      rewrite (Hrest r' c' Hin Hother) in Hv.
      assert (Hle : v <= vg).
      { apply (Hbelow g r' c' v vg Hsol Hin Hnot ltac:(lia) Hagree');
          [|exact Hvg].
        unfold trial_bound. by rewrite decide_False. }
      assert (vg ≠ v); [|lia]. intros ->.
      apply (dead_end s0 s row column number g); try assumption.
      intros r2 c2 Hin2 Hlt.
      destruct (Z.lt_trichotomy (rank r2 c2) (rank r' c')) as [Hb|[He|Ha]].
      * by apply Hagree'.
      * apply rank_eq in He as [= -> ->]; [congruence|apply Hin2|exact Hc'].
      * apply (solution_given s0 s g r2 c2 Hk Hsol Hin2).
        apply Hbetween; [apply Hin2|lia].
    + rewrite (Hrest r c Hin Hother) in Hbound.
      apply (Hbelow g r c lower vg Hsol Hin Hnot ltac:(lia) Hagree');
        [|exact Hvg].
      unfold trial_bound. by rewrite decide_False.
  - intros Hout g Hsol.
    apply (dead_end s0 s row column number g); try assumption.
    intros r2 c2 Hin2 Hlt.
    apply (solution_given s0 s g r2 c2 Hk Hsol Hin2).
    apply Hbetween; [apply Hin2|].
    destruct Hin2. unfold rank in *. lia.
Qed.

Lemma unwritten_after_accepted s s1 row column number r' c' :
  written s s1 number row column -> next_free s1 row column r' c' ->
  unwritten_after s row column -> unwritten_after s1 r' c'.
Proof.
  intros (_ & _ & Hgiven & _ & Hrest) (_ & _ & Hrank' & _) Htidy r c Hin Hnot Hlater.
  rewrite Hgiven in Hnot. rewrite (Hrest r c Hin).
  - apply (Htidy r c Hin Hnot). lia.
  - intros [= -> ->]. lia.
Qed.

Lemma unwritten_after_retreat s s2 row column r' c' :
  in_grid row column ->
  written s s2 0 row column -> previous_free s2 row column r' c' ->
  unwritten_after s row column -> unwritten_after s2 r' c'.
Proof.
  intros Hpos (_ & _ & Hgiven & Hcell & Hrest) (_ & _ & _ & Hbetween)
    Htidy r c Hin Hnot Hlater.
  destruct (decide ((r, c) = (row, column))) as [[= -> ->]|Hother];
    [exact Hcell|].
  rewrite (Hrest r c Hin Hother).
  apply (Htidy r c Hin); [by rewrite <- Hgiven|].
  destruct (Z.lt_ge_cases (rank row column) (rank r c)) as [Hlt|Hle];
    [exact Hlt|].
  exfalso. apply Hnot, Hbetween; [apply Hin|].
  split; [exact Hlater|].
  assert (rank r c ≠ rank row column); [|lia].
  intros Heq. apply Hother. apply rank_eq; [apply Hin|apply Hpos|exact Heq].
Qed.

Lemma filled_before_accepted s0 s s1 row column number r' c' :
  given_filled s0 -> keeps_given s0 s1 -> in_grid row column -> number ≠ 0 ->
  written s s1 number row column -> next_free s1 row column r' c' ->
  filled_before s row column -> filled_before s1 r' c'.
Proof.
  intros Hfilled0 Hk Hpos Hn (_ & _ & _ & Hcell & Hrest) (_ & _ & _ & Hbetween)
    Hfilled r c Hin Hlt.
  destruct (Z.lt_trichotomy (rank r c) (rank row column)) as [Hb|[He|Ha]].
  - rewrite (Hrest r c Hin); [by apply Hfilled|]. intros [= -> ->]. lia.
  - apply rank_eq in He as [= -> ->]; [|apply Hin|apply Hpos].
    rewrite Hcell. congruence.
  - assert (Hgiven : (r, c) ∈ given_numbers_indices s1).
    { apply Hbetween; [apply Hin|lia]. }
    destruct Hk as (_ & _ & Hg & Hv). rewrite Hg in Hgiven.
    rewrite (Hv r c Hgiven Hin). by apply Hfilled0.
Qed.

Lemma filled_before_retreat s s2 row column r' c' :
  written s s2 0 row column -> previous_free s2 row column r' c' ->
  filled_before s row column -> filled_before s2 r' c'.
Proof.
  intros (_ & _ & _ & _ & Hrest) (_ & _ & Hrank' & _) Hfilled r c Hin Hlt.
  rewrite (Hrest r c Hin); [apply Hfilled; [exact Hin|lia]|].
  intros [= -> ->]. lia.
Qed.

Lemma pass_hunt s0 s row column number :
  given_filled s0 ->
  descent_state s0 s row column number -> filled_before s row column ->
  nothing_below s0 s row column number ->
  match _solve_iterative_body s row column number with
  | Abort _ _ => False
  | Continue s' r' c' n' => hunt_state s0 s' r' c' n'
  end.
Proof.
  intros Hfilled0 Hdescent Hfilled Hbelow.
  pose proof (pass_descent s0 s row column number Hdescent) as Hpass.
  destruct (_solve_iterative_body s row column number) as [s' r' c' n'|];
    [|exact Hpass].
  destruct Hpass as [Hout Hnext].
  destruct Hdescent as (Hsearch & Hpos & Hopen & Hfree & Htidy).
  pose proof Hsearch as (Hkeep & Hg & Hinv & Hrange & Hnum & _).
  destruct Hout as [(Hrefused & Hlt & -> & [= -> ->] & ->)
                   |[(Hrefused & Hge & Hw0 & Hprev & Hv)
                    |(Hlegal & Hw & Hnf & ->)]].
  - (* the next number *)
    right. left.
    destruct Hnext as [Hsearch'|(_ & _ & _ & -> & _)]; [|destruct Hpos; lia].
    split; [unfold descent_state; auto|]. split; [exact Hfilled|].
    by apply nothing_below_refused.
  - (* the cursor retreats *)
    destruct (nothing_below_retreat s0 s s' row column number r' c' (n' - 1)
                Hkeep Hpos Hfree Htidy Hrefused Hge Hw0 Hprev Hv Hbelow)
      as [Hbelow' Hnone].
    replace (n' - 1 + 1) with n' in Hbelow' by lia.
    destruct Hnext as [Hsearch'|Hesc'].
    + right. left.
      assert (Hin' : in_grid r' c').
      { destruct Hsearch' as (_ & _ & _ & _ & _ & [Hin'|[[= -> ->] _]]);
          [exact Hin'|].
        destruct Hpos, Hprev as (_ & _ & Hrank' & _). unfold rank in Hrank'. lia. }
      split; [|split; [by apply (filled_before_retreat s s' row column)
                      |exact Hbelow']].
      unfold descent_state. split; [exact Hsearch'|]. split; [exact Hin'|].
      split.
      { apply (zero_cell_not_solved s' row column); [apply Hw0|exact Hpos|apply Hw0]. }
      split; [apply Hprev|].
      by apply (unwritten_after_retreat s s' row column).
    + right. right. split; [exact Hesc'|]. apply Hnone.
      destruct Hprev as (_ & _ & Hrank' & _).
      destruct Hesc' as (_ & _ & _ & -> & [(-> & _)|(-> & _)]);
        unfold rank in *; lia.
  - (* the cursor advances *)
    destruct Hnext as [Hsearch'|(_ & _ & _ & -> & _)];
      [|destruct Hpos, Hnf as (Hc' & _ & Hrank' & _); unfold rank in Hrank'; lia].
    pose proof Hsearch' as (Hkeep' & Hg' & Hinv' & Hrange' & _ & Hcursor).
    assert (Hn0 : number ≠ 0) by lia.
    pose proof (filled_before_accepted s0 s s' row column number r' c'
                  Hfilled0 Hkeep' Hpos Hn0 Hw Hnf Hfilled) as Hfilled'.
    pose proof (nothing_below_accepted s0 s s' row column number r' c'
                  Hpos Hw Hnf Hbelow) as Hbelow'.
    pose proof (unwritten_after_accepted s s' row column number r' c'
                  Hw Hnf Htidy) as Htidy'.
    assert (Hs' : well_shaped s') by apply Hw.
    destruct Hcursor as [Hin'|[[= -> ->] _]].
    + right. left. split; [|auto].
      unfold descent_state. split; [exact Hsearch'|]. split; [exact Hin'|].
      split; [|split; [apply Hnf|exact Htidy']].
      apply (zero_cell_not_solved s' r' c' Hs' Hin').
      destruct Hw as (_ & _ & Hgiven & _ & Hrest).
      destruct Hnf as (_ & Hfree' & Hrank' & _).
      rewrite (Hrest r' c' Hin'); [|intros [= -> ->]; lia].
      apply (Htidy r' c' Hin'); [by rewrite <- Hgiven | lia].
    + left.
      assert (Hsolved : is_solved s' = true).
      { apply (no_zero_solved s' Hs'). intros r c Hin.
        apply Hfilled'; [exact Hin|]. destruct Hin. unfold rank. lia. }
      split; [exact Hsolved|].
      assert (Hsol : solution s0 s').
      { split; [|exact Hkeep']. unfold complete. auto. }
      split; [exact Hsol|].
      intros g r c vs vg Hsolg Hin Hagree Hvs Hvg.
      destruct (decide ((r, c) ∈ given_numbers_indices s')) as [Hgiven|Hnot].
      * rewrite (solution_given s0 s' g r c Hkeep' Hsolg Hin Hgiven) in Hvg.
        assert (vs = vg) by congruence. lia.
      * apply (Hbelow' g r c vs vg Hsolg Hin Hnot); [|exact Hagree| |exact Hvg].
        -- destruct Hin. unfold rank. lia.
        -- unfold trial_bound. rewrite decide_False; [exact Hvs|].
           intros [= -> ->]. destruct Hin. lia.
Qed.

Lemma pass_escaped_raises s row column number :
  escaped_state s row column number ->
  match _solve_iterative_body s row column number with
  | Continue _ _ _ _ => True
  | Abort _ e => e = IndexError
  end.
Proof.
  intros (Hs & Hg & _ & -> & Hcase).
  pose proof (solve_pass_frame s (-1) column number) as Hframe.
  unfold _solve_iterative_body, move_cursor in *.
  assert (Hraise : ∀ c n, 0 <= c < 9 -> 1 <= n <= 9 ->
                          write s n (-1) c = Raise IndexError).
  { intros c n Hc Hn.
    apply write_negative_raises; [assumption | assumption | lia | lia | lia |].
    split; [apply above_int64_min|]; lia. }
  destruct Hcase as [(-> & Hnum & Hten)|(-> & Hnum)];
    [|by rewrite Hraise by lia].
  destruct (decide (number = 10)) as [->|Hne];
    [|by rewrite Hraise by lia].
  assert (Hfree : is_given s (-1) 8 = false).
  { apply not_given_outside; [exact Hg|]. unfold in_grid. lia. }
  rewrite (write_too_big s 10 (-1) 8 Hfree) in * by lia.
  change (10 <? 9) with false in *. cbn iota in *.
  destruct (write_zero_negative s (-1) 8 Hs Hg) as (b' & Hset & Hwrite0); [lia..|].
  rewrite Hwrite0 in *.
  set (s2 := mkSudoku (class_of s) b' (given_numbers_indices s)) in *.
  assert (Hg2 : given_in_grid s2) by exact Hg.
  assert (Hnext : _next_row_column recursion_limit s2 (-1) 8 Backward = Ok (-1, 7)).
  { change recursion_limit with (S 999). rewrite next_row_column_unfold.
    change (neighbour s2 (-1) 8 Backward) with (-1, 7). cbv beta iota zeta.
    rewrite (not_given_outside s2 (-1) 7 Hg2); [reflexivity|].
    unfold in_grid. lia. }
  rewrite Hnext in *.
  destruct (np.getitem2 (board s2) (-1) 7) as [w|e] eqn:Hw; [exact I|].
  by apply getitem2_raises in Hw.
Qed.

Lemma solve_iterative_loop_hunt s0 (Hfilled0 : given_filled s0) fuel :
  ∀ s row column number s' e,
    hunt_state s0 s row column number ->
    _solve_iterative_loop fuel s row column number = (s', e) -> e ≠ Unfinished ->
    (e = Finished /\ least_solution s0 s')
    \/ (e = Crashed IndexError /\ ∀ g, ¬ solution s0 g).
Proof.
  assert (Hdone : ∀ s row column number,
    hunt_state s0 s row column number -> is_solved s = true ->
    least_solution s0 s).
  { intros s row column number [[_ Hleast]|[((_ & _ & Hopen & _) & _)
                                          |((_ & _ & Hopen & _) & _)]] Hsolved;
      [exact Hleast|congruence..]. }
  induction fuel as [|fuel IH]; intros s row column number s' e Hstate.
  - cbn [_solve_iterative_loop]. destruct (is_solved s) eqn:Hsolved.
    + intros [= <- <-] _. left. split; [reflexivity|].
      by apply (Hdone s row column number).
    + intros [= <- <-] Hend. by destruct Hend.
  - rewrite solve_iterative_loop_unfold. destruct (is_solved s) eqn:Hsolved.
    + intros [= <- <-] _. left. split; [reflexivity|].
      by apply (Hdone s row column number).
    + destruct Hstate as [[Hsolved' _]|[(Hdescent & Hfilled & Hbelow)
                                      |[Hesc Hnone]]]; [congruence| |].
      * pose proof (pass_hunt s0 s row column number Hfilled0 Hdescent
                      Hfilled Hbelow) as Hpass.
        destruct (_solve_iterative_body s row column number)
          as [s1 r1 c1 n1|s1 e1]; [|destruct Hpass].
        by apply IH.
      * pose proof (pass_escaped s row column number Hesc) as Hpass.
        pose proof (pass_escaped_raises s row column number Hesc) as Hraise.
        destruct (_solve_iterative_body s row column number)
          as [s1 r1 c1 n1|s1 e1].
        -- apply IH. right. right. auto.
        -- intros [= <- <-] _. right. subst e1. auto.
Qed.

Lemma solve_complete s0 fuel s' e :
  well_shaped s0 -> as_constructed s0 -> region_invariant s0 -> cells_in_range s0 ->
  solve fuel s0 = (s', e) -> e ≠ Unfinished ->
  (e = Finished /\ least_solution s0 s')
  \/ (e = Crashed IndexError /\ ∀ g, ¬ solution s0 g).
Proof.
  intros Hs Hc Hinv Hrange.
  destruct (constructed_grid s0 Hs Hc) as (Hg & Hfilled & Hempty).
  pose proof (keeps_given_refl s0 Hs) as Hkeep.
  unfold solve, _get_start_row_column, _solve_iterative.
  destruct (is_solved s0) eqn:Hopen; cbn [negb].
  - intros [= <- <-] _. left. split; [reflexivity|].
    split; [split; [unfold complete; auto | exact Hkeep]|].
    intros g r c vs vg Hsol Hin _ Hvs Hvg.
    destruct (decide ((r, c) ∈ given_numbers_indices s0)) as [Hgiven|Hnot].
    + rewrite (solution_given s0 s0 g r c Hkeep Hsol Hin Hgiven) in Hvg.
      assert (vs = vg) by congruence. lia.
    + pose proof (zero_cell_not_solved s0 r c Hs Hin (Hempty r c Hin Hnot)).
      congruence.
  - destruct (_get_start_loop fuel s0 0 0) as [start|] eqn:Hstart;
      [|intros [= _ <-] Hend; by destruct Hend].
    pose proof (get_start_loop_more fuel (fuel + 82) s0 0 0 start Hstart
                  (Nat.le_add_r _ _)) as Hstart'.
    destruct (get_start_loop_spec s0 Hs Hg Hfilled (fuel + 82) 0 0)
      as [[Hsolved _]|(_ & row & column & Hrun & Hpos & Hzero & Hfirst)];
      [lia | unfold rank; lia | unfold rank; lia | | congruence |].
    { intros r c [? ?]. unfold rank. lia. }
    rewrite Hstart' in Hrun. injection Hrun as ->.
    apply (solve_iterative_loop_hunt s0 Hfilled fuel). right. left.
    assert (Hfree : (row, column) ∉ given_numbers_indices s0).
    { intros Hin. by apply (Hfilled row column). }
    split; [|split; [exact Hfirst|]].
    + unfold descent_state, search_state.
      split.
      { split; [exact Hkeep|]. split; [exact Hg|]. split; [exact Hinv|].
        split; [exact Hrange|]. split; [lia|by left]. }
      split; [exact Hpos|]. split; [exact Hopen|]. split; [exact Hfree|].
      intros r c Hin Hnot _. by apply Hempty.
    + intros g r c lower vg Hsol Hin Hnot Hrank Hagree Hbound Hvg.
      assert ((r, c) = (row, column)) as [= -> ->].
      { apply rank_eq; [apply Hin|apply Hpos|].
        destruct (Z.lt_ge_cases (rank r c) (rank row column)) as [Hlt|Hge]; [|lia].
        destruct (Hfirst r c Hin Hlt). by apply Hempty. }
      unfold trial_bound in Hbound. rewrite decide_True in Hbound by reflexivity.
      subst lower.
      destruct (solution_cell s0 g row column Hsol Hin) as (v & Hv & Hv19).
      assert (vg = v) as -> by congruence. lia.
Qed.

(** X16: the search is exhaustive.  On a valid grid as the constructor
    builds it, when [solve] returns, the grid is a solution, and the first
    one when candidate grids are compared cell by cell in row-major
    order; when [solve] raises, it raises [IndexError] and the puzzle has
    no solution.  The same holds for the recursive strategy whenever it
    ends without exhausting the stack. *)
Theorem solve_finds_least_solution s0 fuel s' e :
  well_shaped s0 -> as_constructed s0 -> region_invariant s0 -> cells_in_range s0 ->
  e ≠ Unfinished ->
  (solve fuel s0 = (s', e) ->
   (e = Finished /\ least_solution s0 s')
   \/ (e = Crashed IndexError /\ ∀ g, ¬ solution s0 g))
  /\ (solve_recursively fuel s0 = (s', e) -> e ≠ Crashed RecursionError ->
      (e = Finished /\ least_solution s0 s')
      \/ (e = Crashed IndexError /\ ∀ g, ¬ solution s0 g)).
Proof.
  intros Hs Hc Hinv Hrange Hend. split.
  - intros Hrun. by apply (solve_complete s0 fuel s' e).
  - intros Hrun Hstack.
    apply (solve_complete s0 (fuel + S raised_recursion_limit) s' e);
      try assumption.
    apply (solve_recursively_simulated s0 fuel s' e); try assumption.
    + apply Nat.le_add_r.
    + apply Nat.lt_le_trans with (S raised_recursion_limit);
        [apply Nat.lt_succ_diag_r|].
      rewrite Nat.add_comm. apply Nat.le_add_r.
Qed.

Lemma solve_finds_least_solution_witness :
  least_solution seed_sudoku solved_seed_sudoku.
Proof.
  destruct seed_sudoku_valid as (Hs & Hc & Hinv & Hrange).
  assert (Hend : Finished ≠ Unfinished) by discriminate.
  destruct (proj1 (solve_finds_least_solution seed_sudoku 4000 solved_seed_sudoku
                     Finished Hs Hc Hinv Hrange Hend) seed_sudoku_solved)
    as [[_ Hleast]|[Hcrash _]]; [exact Hleast | discriminate Hcrash].
Defined.

(** ** The search terminates *)

Lemma total_ext f g l :
  (∀ p, p ∈ l -> f p = g p) -> total f l = total g l.
Proof.
  induction l as [|a l IH]; intros Hsame; [reflexivity|].
  cbn [total foldr]. fold (total f l) (total g l).
  rewrite (Hsame a) by (by left). rewrite IH; [reflexivity|].
  intros p Hp. apply Hsame. by right.
Qed.

Lemma total_le f g l :
  (∀ p, p ∈ l -> f p <= g p) -> total f l <= total g l.
Proof.
  induction l as [|a l IH]; intros Hle; [reflexivity|].
  cbn [total foldr]. fold (total f l) (total g l).
  assert (f a <= g a) by (apply Hle; by left).
  assert (total f l <= total g l); [|lia].
  apply IH. intros p Hp. apply Hle. by right.
Qed.

Lemma total_change f g l q :
  NoDup l -> q ∈ l -> (∀ p, p ∈ l -> p ≠ q -> f p = g p) ->
  total g l = total f l + (g q - f q).
Proof.
  induction l as [|a l IH]; intros Hnd Hin Hsame.
  { by apply elem_of_nil in Hin. }
  apply NoDup_cons in Hnd as [Ha Hnd].
  cbn [total foldr]. fold (total f l) (total g l).
  destruct (decide (a = q)) as [->|Hne].
  - rewrite (total_ext g f l); [lia|].
    intros p Hp. symmetry. apply Hsame; [by right|]. by intros ->.
  - apply elem_of_cons in Hin as [->|Hin]; [by destruct Hne|].
    rewrite (Hsame a) by (by left || exact Hne).
    rewrite IH; [lia|exact Hnd|exact Hin|].
    intros p Hp. apply Hsame. by right.
Qed.

Lemma total_change2 f g l q1 q2 :
  NoDup l -> q1 ∈ l -> q2 ∈ l -> q1 ≠ q2 ->
  (∀ p, p ∈ l -> p ≠ q1 -> p ≠ q2 -> f p = g p) ->
  total g l = total f l + (g q1 - f q1) + (g q2 - f q2).
Proof.
  intros Hnd H1 H2 Hne Hsame.
  set (h := λ p, if decide (p = q1) then g p else f p).
  assert (Hh : total h l = total f l + (h q1 - f q1)).
  { apply (total_change f h l q1 Hnd H1).
    intros p _ Hp. unfold h. by rewrite decide_False. }
  assert (Hg : total g l = total h l + (g q2 - h q2)).
  { apply (total_change h g l q2 Hnd H2).
    intros p Hin Hp. unfold h.
    destruct (decide (p = q1)); [reflexivity|by apply Hsame]. }
  unfold h in Hh, Hg. rewrite decide_True in Hh by reflexivity.
  rewrite decide_False in Hg by congruence. lia.
Qed.

Lemma place_value_pos r c : rank r c <= 81 -> 0 < place_value r c.
Proof. intros Hr. unfold place_value. apply Z.pow_pos_nonneg; lia. Qed.

Lemma place_value_step r c r' c' :
  rank r' c' < rank r c -> rank r c <= 81 ->
  11 * place_value r c <= place_value r' c'.
Proof.
  intros Hlt Hr. unfold place_value.
  rewrite <- Z.pow_succ_r by lia. apply Z.pow_le_mono_r; lia.
Qed.

Lemma grid_position r c : in_grid r c -> (r, c) ∈ all_grid.
Proof. apply all_grid_spec. Qed.

Lemma progress_refused s row column number :
  in_grid row column ->
  progress s row column (number + 1)
  = progress s row column number + place_value row column.
Proof.
  intros Hpos. unfold progress.
  rewrite (total_change (progress_at s row column number)
             (progress_at s row column (number + 1)) all_grid (row, column)
             all_grid_NoDup (grid_position _ _ Hpos)).
  - unfold progress_at. cbn [fst snd]. rewrite Z.ltb_irrefl.
    rewrite bool_decide_eq_true_2 by reflexivity. lia.
  - intros p _ Hne. unfold progress_at.
    destruct (rank p.1 p.2 <? rank row column); [reflexivity|].
    by rewrite bool_decide_eq_false_2.
Qed.

Lemma cell_value_eq s s' r c :
  np.getitem2 (board s') r c = np.getitem2 (board s) r c ->
  cell_value s' r c = cell_value s r c.
Proof. unfold cell_value. by intros ->. Qed.

Lemma is_given_eq s s' r c :
  given_numbers_indices s' = given_numbers_indices s ->
  is_given s' r c = is_given s r c.
Proof. unfold is_given. by intros ->. Qed.

Lemma progress_accepted s s1 row column number r' c' :
  in_grid row column -> in_grid r' c' ->
  (row, column) ∉ given_numbers_indices s ->
  written s s1 number row column -> next_free s1 row column r' c' ->
  progress s1 r' c' 1 = progress s row column number + place_value r' c'.
Proof.
  intros Hpos Hpos' Hfree (_ & _ & Hgiven & Hcell & Hrest)
    (_ & _ & Hrank' & Hbetween).
  unfold progress.
  rewrite (total_change (progress_at s row column number)
             (progress_at s1 r' c' 1) all_grid (r', c')
             all_grid_NoDup (grid_position _ _ Hpos')).
  - unfold progress_at. cbn [fst snd]. rewrite Z.ltb_irrefl.
    rewrite bool_decide_eq_true_2 by reflexivity.
    destruct (Z.ltb_spec (rank r' c') (rank row column)); [lia|].
    rewrite bool_decide_eq_false_2; [lia|]. intros [= -> ->]. lia.
  - intros [r c] Hin Hne. apply all_grid_spec in Hin.
    unfold progress_at. cbn [fst snd].
    destruct (Z.lt_trichotomy (rank r c) (rank row column)) as [Hb|[He|Ha]].
    + destruct (Z.ltb_spec (rank r c) (rank row column)); [|lia].
      destruct (Z.ltb_spec (rank r c) (rank r' c')); [|lia].
      rewrite (is_given_eq s s1 r c Hgiven).
      rewrite (cell_value_eq s s1 r c); [reflexivity|].
      apply Hrest; [exact Hin|]. intros [= -> ->]. lia.
    + apply rank_eq in He as [= -> ->]; [|apply Hin|apply Hpos].
      rewrite Z.ltb_irrefl. rewrite bool_decide_eq_true_2 by reflexivity.
      destruct (Z.ltb_spec (rank row column) (rank r' c')); [|lia].
      unfold is_given. rewrite Hgiven.
      rewrite bool_decide_eq_false_2 by exact Hfree.
      unfold cell_value. by rewrite Hcell.
    + destruct (Z.ltb_spec (rank r c) (rank row column)); [lia|].
      rewrite bool_decide_eq_false_2 by (intros [= -> ->]; lia).
      destruct (Z.ltb_spec (rank r c) (rank r' c')).
      * unfold is_given. rewrite bool_decide_eq_true_2; [reflexivity|].
        apply Hbetween; [apply Hin|lia].
      * by rewrite bool_decide_eq_false_2.
Qed.

Lemma progress_retreat s s2 row column number r' c' n' :
  in_grid row column -> in_grid r' c' -> number <= 10 ->
  written s s2 0 row column -> previous_free s2 row column r' c' ->
  np.getitem2 (board s2) r' c' = Ok (n' - 1) ->
  progress s row column number < progress s2 r' c' n'.
Proof.
  intros Hpos Hpos' Hnum (_ & _ & Hgiven & Hcell & Hrest)
    (_ & Hfree' & Hrank' & Hbetween) Hv.
  assert (Hne : (r', c') ≠ (row, column)) by (intros [= -> ->]; lia).
  assert (Hstep : 11 * place_value row column <= place_value r' c').
  { apply place_value_step; [lia|]. destruct Hpos. unfold rank. lia. }
  assert (Hw : 0 < place_value row column).
  { apply place_value_pos. destruct Hpos. unfold rank. lia. }
  assert (Hmul : number * place_value row column <= 10 * place_value row column).
  { apply Z.mul_le_mono_nonneg_r; lia. }
  assert (Hd1 : progress_at s2 r' c' n' (r', c')
                - progress_at s row column number (r', c') = place_value r' c').
  { unfold progress_at. cbn [fst snd]. rewrite Z.ltb_irrefl.
    rewrite bool_decide_eq_true_2 by reflexivity.
    destruct (Z.ltb_spec (rank r' c') (rank row column)); [|lia].
    rewrite <- (is_given_eq s s2 r' c' Hgiven). unfold is_given.
    rewrite bool_decide_eq_false_2 by exact Hfree'.
    rewrite <- (cell_value_eq s s2 r' c') by (by apply Hrest).
    unfold cell_value. rewrite Hv. lia. }
  assert (Hd2 : progress_at s2 r' c' n' (row, column)
                - progress_at s row column number (row, column)
                = - (number * place_value row column)).
  { unfold progress_at. cbn [fst snd]. rewrite Z.ltb_irrefl.
    destruct (Z.ltb_spec (rank row column) (rank r' c')); [lia|].
    rewrite (bool_decide_eq_false_2 ((row, column) = (r', c'))) by congruence.
    rewrite bool_decide_eq_true_2 by reflexivity. lia. }
  unfold progress.
  rewrite (total_change2 (progress_at s row column number)
             (progress_at s2 r' c' n') all_grid (r', c') (row, column)
             all_grid_NoDup (grid_position _ _ Hpos') (grid_position _ _ Hpos) Hne);
    [lia|].
  intros [r c] Hin H1 H2. apply all_grid_spec in Hin.
  unfold progress_at. cbn [fst snd].
  rewrite (bool_decide_eq_false_2 _ H1), (bool_decide_eq_false_2 _ H2).
  destruct (Z.lt_trichotomy (rank r c) (rank r' c')) as [Hb|[He|Ha]].
  - destruct (Z.ltb_spec (rank r c) (rank r' c')); [|lia].
    destruct (Z.ltb_spec (rank r c) (rank row column)); [|lia].
    rewrite (is_given_eq s s2 r c Hgiven).
    rewrite (cell_value_eq s s2 r c); [reflexivity|].
    apply Hrest; [exact Hin|]. intros [= -> ->]. lia.
  - apply rank_eq in He; [by destruct H1|apply Hin|apply Hpos'].
  - destruct (Z.ltb_spec (rank r c) (rank r' c')); [lia|].
    destruct (Z.ltb_spec (rank r c) (rank row column)); [|reflexivity].
    rewrite <- (is_given_eq s s2 r c Hgiven). unfold is_given.
    rewrite bool_decide_eq_true_2; [reflexivity|].
    apply Hbetween; [apply Hin|lia].
Qed.

Lemma progress_le_bound s row column number :
  cells_in_range s -> 0 <= number <= 10 ->
  progress s row column number <= progress_bound.
Proof.
  intros Hrange Hnum. unfold progress, progress_bound.
  apply total_le. intros [r c] Hin. apply all_grid_spec in Hin.
  unfold progress_at. cbn [fst snd].
  assert (Hw : 0 < place_value r c).
  { apply place_value_pos. destruct Hin. unfold rank. lia. }
  destruct (rank r c <? rank row column).
  - destruct (is_given s r c); [lia|].
    assert (cell_value s r c <= 10); [|by apply Z.mul_le_mono_nonneg_r; lia].
    unfold cell_value.
    destruct (np.getitem2 (board s) r c) as [v|e] eqn:Hv; [|lia].
    pose proof (Hrange r c v Hin Hv). lia.
  - destruct (bool_decide ((r, c) = (row, column))); [|lia].
    apply Z.mul_le_mono_nonneg_r; lia.
Qed.

Lemma pass_escaped_cases s row column number :
  escaped_state s row column number ->
  match _solve_iterative_body s row column number with
  | Continue s' r' c' n' => escaped_state s' r' c' n' /\ c' = 7
  | Abort _ _ => True
  end.
Proof.
  intros Hesc. pose proof (pass_escaped s row column number Hesc) as Hpass.
  destruct Hesc as (Hs & Hg & _ & -> & Hcase).
  unfold _solve_iterative_body, move_cursor in *.
  assert (Hraise : ∀ c n, 0 <= c < 9 -> 1 <= n <= 9 ->
                          write s n (-1) c = Raise IndexError).
  { intros c n Hc Hn.
    apply write_negative_raises; [assumption | assumption | lia | lia | lia |].
    split; [apply above_int64_min|]; lia. }
  destruct Hcase as [(-> & Hnum & Hten)|(-> & Hnum)];
    [|by rewrite Hraise by lia].
  destruct (decide (number = 10)) as [->|Hne];
    [|by rewrite Hraise by lia].
  assert (Hfree : is_given s (-1) 8 = false).
  { apply not_given_outside; [exact Hg|]. unfold in_grid. lia. }
  rewrite (write_too_big s 10 (-1) 8 Hfree) in * by lia.
  change (10 <? 9) with false in *. cbn iota in *.
  destruct (write_zero_negative s (-1) 8 Hs Hg) as (b' & Hset & Hwrite0); [lia..|].
  rewrite Hwrite0 in *.
  set (s2 := mkSudoku (class_of s) b' (given_numbers_indices s)) in *.
  assert (Hg2 : given_in_grid s2) by exact Hg.
  assert (Hnext : _next_row_column recursion_limit s2 (-1) 8 Backward = Ok (-1, 7)).
  { change recursion_limit with (S 999). rewrite next_row_column_unfold.
    change (neighbour s2 (-1) 8 Backward) with (-1, 7). cbv beta iota zeta.
    rewrite (not_given_outside s2 (-1) 7 Hg2); [reflexivity|].
    unfold in_grid. lia. }
  rewrite Hnext in *.
  destruct (np.getitem2 (board s2) (-1) 7) as [w|e]; [|exact I].
  split; [exact Hpass|reflexivity].
Qed.

Lemma escaped_last s number :
  escaped_state s (-1) 7 number ->
  _solve_iterative_body s (-1) 7 number = Abort s IndexError.
Proof.
  intros (Hs & Hg & _ & _ & [(Hc & _)|(_ & Hnum)]); [lia|].
  unfold _solve_iterative_body.
  rewrite (write_negative_raises s number (-1) 7 Hs Hg);
    [reflexivity | lia | lia | lia |].
  split; [apply above_int64_min|]; lia.
Qed.

Lemma escaped_terminates s row column number :
  escaped_state s row column number ->
  ∃ s' e, _solve_iterative_loop 2%nat s row column number = (s', e)
          /\ e ≠ Unfinished.
Proof.
  intros Hesc. pose proof (pass_escaped_cases s row column number Hesc) as Hpass.
  assert (Hopen : is_solved s = false) by apply Hesc.
  rewrite solve_iterative_loop_unfold, Hopen.
  destruct (_solve_iterative_body s row column number) as [s1 r1 c1 n1|s1 e1].
  - destruct Hpass as [Hesc1 ->].
    assert (r1 = -1) as -> by apply Hesc1.
    rewrite solve_iterative_loop_unfold.
    destruct (is_solved s1); [eexists _, _; split; [reflexivity|discriminate]|].
    rewrite (escaped_last s1 n1 Hesc1).
    eexists _, _; split; [reflexivity|discriminate].
  - eexists _, _; split; [reflexivity|discriminate].
Qed.

(** Every pass at a cursor in the grid increases the measure. *)
Lemma pass_progress s0 s row column number :
  descent_state s0 s row column number ->
  match _solve_iterative_body s row column number with
  | Continue s1 r1 c1 n1 =>
      in_grid r1 c1 -> progress s row column number < progress s1 r1 c1 n1
  | Abort _ _ => True
  end.
Proof.
  intros Hdescent.
  pose proof (pass_descent s0 s row column number Hdescent) as Hpass.
  destruct (_solve_iterative_body s row column number) as [s1 r1 c1 n1|];
    [|exact I].
  destruct Hpass as [Hout _]. intros Hin1.
  destruct Hdescent as ((_ & _ & _ & _ & Hnum & _) & Hpos & _ & Hfree & _).
  assert (Hw : 0 < place_value r1 c1).
  { apply place_value_pos. destruct Hin1. unfold rank. lia. }
  destruct Hout as [(_ & _ & -> & [= -> ->] & ->)
                   |[(_ & _ & Hw0 & Hprev & Hv)|(_ & Hwr & Hnf & ->)]].
  - rewrite (progress_refused s row column number Hpos). lia.
  - apply (progress_retreat s s1 row column number r1 c1 n1); auto. lia.
  - rewrite (progress_accepted s s1 row column number r1 c1); auto. lia.
Qed.

Lemma descent_terminates s0 (Hfilled0 : given_filled s0) (m : nat) :
  ∀ s row column number,
    descent_state s0 s row column number -> filled_before s row column ->
    nothing_below s0 s row column number ->
    progress_bound - progress s row column number < Z.of_nat m ->
    ∃ fuel s' e,
      _solve_iterative_loop fuel s row column number = (s', e) /\ e ≠ Unfinished.
Proof.
  induction m as [|m IH]; intros s row column number Hdescent Hfilled Hbelow Hm.
  { destruct Hdescent as ((_ & _ & _ & Hrange & Hnum & _) & _).
    pose proof (progress_le_bound s row column number Hrange ltac:(lia)). lia. }
  pose proof (pass_hunt s0 s row column number Hfilled0 Hdescent Hfilled Hbelow)
    as Hhunt.
  pose proof (pass_progress s0 s row column number Hdescent) as Hgrow.
  assert (Hopen : is_solved s = false) by apply Hdescent.
  destruct (_solve_iterative_body s row column number)
    as [s1 r1 c1 n1|s1 e1] eqn:Hbody; [|destruct Hhunt].
  assert (Hnext : ∃ fuel s' e,
            _solve_iterative_loop fuel s1 r1 c1 n1 = (s', e) /\ e ≠ Unfinished).
  { destruct Hhunt as [[Hsolved _]|[(Hdescent1 & Hfilled1 & Hbelow1)|[Hesc _]]].
    - exists 0%nat, s1, Finished. cbn [_solve_iterative_loop].
      rewrite Hsolved. split; [reflexivity|discriminate].
    - apply IH; try assumption.
      assert (Hin1 : in_grid r1 c1) by apply Hdescent1.
      specialize (Hgrow Hin1). lia.
    - destruct (escaped_terminates s1 r1 c1 n1 Hesc) as (s' & e & Hrun & He).
      by exists 2%nat, s', e. }
  destruct Hnext as (fuel & s' & e & Hrun & He).
  exists (S fuel), s', e. split; [|exact He].
  by rewrite solve_iterative_loop_unfold, Hopen, Hbody.
Qed.

Lemma start_state s0 :
  well_shaped s0 -> as_constructed s0 -> region_invariant s0 -> cells_in_range s0 ->
  is_solved s0 = false ->
  ∃ row column,
    _get_start_loop 82 s0 0 0 = Some (Ok (row, column))
    /\ descent_state s0 s0 row column 1
    /\ filled_before s0 row column
    /\ nothing_below s0 s0 row column 1.
Proof.
  intros Hs Hc Hinv Hrange Hopen.
  destruct (constructed_grid s0 Hs Hc) as (Hg & Hfilled & Hempty).
  destruct (get_start_loop_spec s0 Hs Hg Hfilled 82 0 0)
    as [[Hsolved _]|(_ & row & column & Hrun & Hpos & Hzero & Hfirst)];
    [lia | unfold rank; lia | unfold rank; lia | | congruence |].
  { intros r c [? ?]. unfold rank. lia. }
  exists row, column. split; [exact Hrun|].
  assert (Hfree : (row, column) ∉ given_numbers_indices s0).
  { intros Hin. by apply (Hfilled row column). }
  split; [|split; [exact Hfirst|]].
  - unfold descent_state, search_state.
    split.
    { split; [by apply keeps_given_refl|]. split; [exact Hg|].
      split; [exact Hinv|]. split; [exact Hrange|]. split; [lia|by left]. }
    split; [exact Hpos|]. split; [exact Hopen|]. split; [exact Hfree|].
    intros r c Hin Hnot _. by apply Hempty.
  - intros g r c lower vg Hsol Hin Hnot Hrank Hagree Hbound Hvg.
    assert ((r, c) = (row, column)) as [= -> ->].
    { apply rank_eq; [apply Hin|apply Hpos|].
      destruct (Z.lt_ge_cases (rank r c) (rank row column)) as [Hlt|Hge]; [|lia].
      destruct (Hfirst r c Hin Hlt). by apply Hempty. }
    unfold trial_bound in Hbound. rewrite decide_True in Hbound by reflexivity.
    subst lower.
    destruct (solution_cell s0 g row column Hsol Hin) as (v & Hv & Hv19).
    assert (vg = v) as -> by congruence. lia.
Qed.

Lemma solve_ends s0 :
  well_shaped s0 -> as_constructed s0 -> region_invariant s0 -> cells_in_range s0 ->
  ∃ fuel s' e, solve fuel s0 = (s', e) /\ e ≠ Unfinished.
Proof.
  intros Hs Hc Hinv Hrange.
  destruct (is_solved s0) eqn:Hopen.
  { exists 0%nat, s0, Finished. unfold solve. rewrite Hopen.
    split; [reflexivity|discriminate]. }
  destruct (start_state s0 Hs Hc Hinv Hrange Hopen)
    as (row & column & Hstart & Hdescent & Hfilled & Hbelow).
  destruct (constructed_grid s0 Hs Hc) as (_ & Hfilled0 & _).
  destruct (descent_terminates s0 Hfilled0
              (S (Z.to_nat (progress_bound - progress s0 row column 1)))
              s0 row column 1 Hdescent Hfilled Hbelow ltac:(lia))
    as (fuel & s' & e & Hrun & He).
  exists (fuel + 82)%nat, s', e. split; [|exact He].
  unfold solve, _get_start_row_column, _solve_iterative.
  rewrite Hopen. cbn [negb].
  rewrite (get_start_loop_more 82 (fuel + 82) s0 0 0 _ Hstart) by lia.
  apply (solve_iterative_loop_more fuel); [exact Hrun|exact He|lia].
Qed.

(** X17: [solve] always ends on a valid grid as the constructor builds it:
    the loop cannot run forever.  It returns, with the first solution,
    exactly when the puzzle has a solution, and raises [IndexError]
    otherwise. *)
Theorem solve_terminates s0 :
  well_shaped s0 -> as_constructed s0 -> region_invariant s0 -> cells_in_range s0 ->
  ∃ fuel s' e,
    (∀ fuel', (fuel <= fuel')%nat -> solve fuel' s0 = (s', e))
    /\ ((e = Finished /\ least_solution s0 s')
        \/ (e = Crashed IndexError /\ ∀ g, ¬ solution s0 g))
    /\ (e = Finished <-> ∃ g, solution s0 g).
Proof.
  intros Hs Hc Hinv Hrange.
  destruct (solve_ends s0 Hs Hc Hinv Hrange) as (fuel & s' & e & Hrun & He).
  exists fuel, s', e.
  pose proof (solve_complete s0 fuel s' e Hs Hc Hinv Hrange Hrun He) as Hcase.
  split; [intros fuel' Hle; by apply (solve_more fuel)|].
  split; [exact Hcase|].
  destruct Hcase as [[-> [Hsol _]]|[-> Hnone]].
  - split; [intros _; by exists s' | reflexivity].
  - split; [discriminate|]. intros [g Hsol]. by destruct (Hnone g).
Qed.

Lemma solve_terminates_witness :
  ∃ fuel s' e, solve fuel seed_sudoku = (s', e) /\ e ≠ Unfinished.
Proof.
  destruct seed_sudoku_valid as (Hs & Hc & Hinv & Hrange).
  destruct (solve_terminates seed_sudoku Hs Hc Hinv Hrange)
    as (fuel & s' & e & Hrun & Hcase & _).
  exists fuel, s', e. split; [apply Hrun; reflexivity|].
  destruct Hcase as [[-> _]|[-> _]]; discriminate.
Defined.

(** ** Whether [create_random_sudoku] returns *)

Lemma seed_valid rnd fuel b k cls :
  draws_in_range rnd -> shuffle_permutes rnd ->
  _create_board fuel rnd = Some (Ok (b, k)) ->
  let s0 := mkSudoku cls b (np.nonzero b) in
  well_shaped s0 /\ as_constructed s0 /\ region_invariant s0 /\ cells_in_range s0.
Proof.
  intros Hrnd Hperm Hseed. cbn zeta.
  destruct (create_board_seeded rnd fuel b k Hrnd Hperm Hseed)
    as (Hb & Hcells & Hdist).
  split; [exact Hb|]. split; [reflexivity|].
  split; [by apply distinct_invariant|].
  intros r c v Hin Hv. by apply (Hcells r c v).
Qed.

(** The draws of the seeding loop come in pairs, so a fair source stays
    fair at the draw where the loop stops. *)
Lemma create_board_loop_fair rnd fuel : ∀ b numbers k b' k',
  _create_board_loop fuel rnd b numbers k = Some (Ok (b', k')) ->
  fair rnd k -> fair rnd k'.
Proof.
  induction fuel as [|fuel IH]; intros b numbers k b' k'.
  - destruct numbers; [|discriminate]. by intros [= <- <-].
  - destruct numbers as [|n0 rest]; [by intros [= <- <-]|].
    cbn [_create_board_loop].
    destruct (np.getitem2 b (randint rnd k) (randint rnd (S k))) as [v|e];
      [|discriminate].
    destruct (bool_decide (v = 0)).
    + destruct (np.setitem2 b (randint rnd k) (randint rnd (S k)) n0) as [b1|e];
        [|discriminate].
      intros Hrun Hfair. apply (IH _ _ _ _ _ Hrun). by apply fair_next.
    + intros Hrun Hfair. apply (IH _ _ _ _ _ Hrun). by apply fair_next.
Qed.

(** A call of [create_random_sudoku] whose seeding has completed: the
    grid of the selected class is built from the seed board, and the call
    ends, with a puzzle of that class or with the solver's [IndexError]. *)
Lemma maker_outcome rnd hints sudoku_type cls fuel0 b k :
  draws_in_range rnd -> shuffle_permutes rnd ->
  _create_board fuel0 rnd = Some (Ok (b, k)) ->
  class_of_type sudoku_type = Ok cls ->
  fair rnd k -> 8 <= hints <= 81 ->
  Sudoku_init cls (Some b) = Ok (mkSudoku cls b (np.nonzero b))
  /\ ∃ fuel, (fuel0 <= fuel)%nat
     /\ (((∃ g, solution (mkSudoku cls b (np.nonzero b)) g)
          /\ ∃ puzzle, class_of puzzle = cls
               /\ ∀ fuel', (fuel <= fuel')%nat ->
                    create_random_sudoku fuel' rnd hints sudoku_type = Returns puzzle)
         \/ ((∀ g, ¬ solution (mkSudoku cls b (np.nonzero b)) g)
             /\ ∀ fuel', (fuel <= fuel')%nat ->
                  create_random_sudoku fuel' rnd hints sudoku_type
                  = Raises IndexError)).
Proof.
  intros Hrnd Hperm Hseed Hcls Hfair Hhints.
  destruct (create_board_spec rnd fuel0 b k Hrnd Hperm Hseed) as [Hb Hb8].
  destruct (seed_valid rnd fuel0 b k cls Hrnd Hperm Hseed)
    as (Hs0 & Hc0 & Hinv0 & Hrange0).
  set (s0 := mkSudoku cls b (np.nonzero b)) in *.
  assert (Hinit : Sudoku_init cls (Some b) = Ok s0).
  { unfold Sudoku_init. by rewrite Hb. }
  split; [exact Hinit|].
  destruct (solve_ends s0 Hs0 Hc0 Hinv0 Hrange0) as (fuel1 & solved & e & Hsolve & He).
  destruct (solve_complete s0 fuel1 solved e Hs0 Hc0 Hinv0 Hrange0 Hsolve He)
    as [[-> [Hsol _]]|[-> Hnone]].
  - (* the seed has a solution *)
    pose proof (solve_frame fuel1 s0) as (Hframe & Hfin & _).
    rewrite Hsolve in Hframe, Hfin. cbn [fst snd] in Hframe, Hfin.
    destruct Hframe as (Hclass & Hgiven & Hshape).
    assert (Hs : well_shaped solved) by (by apply Hshape).
    assert (Hsolved : is_solved solved = true) by (by apply Hfin).
    destruct (solved_counts solved Hs Hsolved) as [Hfull Hrem].
    { rewrite Hgiven. apply nonzero_from_NoDup. }
    { intros r c. rewrite Hgiven. by apply nonzero_in_grid. }
    rewrite Hgiven in Hrem. cbn [s0 given_numbers_indices] in Hrem.
    rewrite (nonzero_length b Hb), Hb8 in Hrem.
    destruct (remove_numbers_loop_terminates rnd Hrnd (Z.to_nat (81 - hints))
                solved k Hs Hfair) as (fuel2 & removed & k' & Hrun); [lia|].
    rewrite Z2Nat.id in Hrun by lia.
    pose proof (remove_numbers_loop_frame rnd fuel2 solved (81 - hints) k)
      as [Hframe' _].
    rewrite Hrun in Hframe'. cbn [fst] in Hframe'.
    destruct Hframe' as (_ & _ & Hshape').
    assert (Hs' : well_shaped removed) by (by apply Hshape').
    exists (fuel0 + fuel1 + fuel2)%nat. split; [lia|]. left.
    split; [by exists solved|].
    exists (mkSudoku (class_of removed) (board removed)
              (np.nonzero (board removed))).
    split.
    { cbn [class_of]. pose proof (remove_numbers_loop_frame rnd fuel2 solved
                                    (81 - hints) k) as [(Hc' & _) _].
      rewrite Hrun in Hc'. cbn [fst] in Hc'. by rewrite Hc', Hclass. }
    intros fuel' Hle. unfold create_random_sudoku.
    rewrite (create_board_more rnd fuel0 fuel' _ Hseed) by lia.
    rewrite Hcls, Hinit.
    rewrite (solve_more fuel1 fuel' s0 solved Finished Hsolve)
      by (discriminate || lia).
    unfold _remove_numbers.
    rewrite (remove_numbers_loop_more rnd fuel2 fuel' solved (81 - hints) k
               _ Hrun) by (discriminate || lia).
    unfold Sudoku_init. by rewrite Hs'.
  - (* the seed has no solution *)
    exists (fuel0 + fuel1)%nat. split; [lia|]. right. split; [exact Hnone|].
    intros fuel' Hle. unfold create_random_sudoku.
    rewrite (create_board_more rnd fuel0 fuel' _ Hseed) by lia.
    rewrite Hcls, Hinit.
    by rewrite (solve_more fuel1 fuel' s0 solved (Crashed IndexError) Hsolve)
      by (discriminate || lia).
Qed.

(** X18: a call of [create_random_sudoku] whose seeding has completed
    ends, when [hints] is in 8..81 and the random source keeps drawing
    every grid position: it returns a puzzle if the seed board can be
    completed to a valid grid, and raises the solver's [IndexError] if it
    cannot. *)
Theorem create_random_sudoku_outcome rnd hints sudoku_type cls fuel0 b k :
  draws_in_range rnd -> shuffle_permutes rnd ->
  _create_board fuel0 rnd = Some (Ok (b, k)) ->
  class_of_type sudoku_type = Ok cls ->
  fair rnd k -> 8 <= hints <= 81 ->
  ∃ fuel,
    ((∃ g, solution (mkSudoku cls b (np.nonzero b)) g)
     /\ ∃ puzzle, ∀ fuel', (fuel <= fuel')%nat ->
          create_random_sudoku fuel' rnd hints sudoku_type = Returns puzzle)
    \/ ((∀ g, ¬ solution (mkSudoku cls b (np.nonzero b)) g)
        /\ ∀ fuel', (fuel <= fuel')%nat ->
             create_random_sudoku fuel' rnd hints sudoku_type = Raises IndexError).
Proof.
  intros Hrnd Hperm Hseed Hcls Hfair Hhints.
  destruct (maker_outcome rnd hints sudoku_type cls fuel0 b k
              Hrnd Hperm Hseed Hcls Hfair Hhints)
    as (_ & fuel & _ & [(Hsol & puzzle & _ & Hrun)|(Hnone & Hraise)]);
    exists fuel; [left|right].
  - split; [exact Hsol|]. by exists puzzle.
  - split; [exact Hnone | exact Hraise].
Qed.

Lemma unlucky_source_in_range : draws_in_range unlucky_source.
Proof.
  intros k. cbn [randint unlucky_source].
  destruct (k <? 14)%nat; [apply cycle_source_in_range|].
  destruct (k =? 14)%nat; [lia|].
  destruct (k =? 15)%nat; [lia|apply cycle_source_in_range].
Qed.

Lemma unlucky_source_permutes : shuffle_permutes unlucky_source.
Proof. intros l. reflexivity. Qed.

Lemma unlucky_source_fair : fair unlucky_source 16.
Proof.
  intros j0 r c Hin.
  destruct (cycle_source_fair j0 r c Hin) as (j & Hj & Hr & Hc).
  exists j. split; [exact Hj|]. cbn [randint unlucky_source cycle_source] in *.
  destruct (Nat.ltb_spec (16 + 2 * j) 14); [lia|].
  destruct (Nat.eqb_spec (16 + 2 * j) 14); [lia|].
  destruct (Nat.eqb_spec (16 + 2 * j) 15); [lia|].
  destruct (Nat.ltb_spec (S (16 + 2 * j)) 14); [lia|].
  destruct (Nat.eqb_spec (S (16 + 2 * j)) 14); [lia|].
  destruct (Nat.eqb_spec (S (16 + 2 * j)) 15); [lia|]. auto.
Qed.

Lemma unlucky_source_seeds :
  _create_board 4000 unlucky_source = Some (Ok (unlucky_board, 16%nat)).
Proof. vm_compute. reflexivity. Qed.

Lemma unlucky_sudoku_crashes :
  ∃ s', solve 100 unlucky_sudoku = (s', Crashed IndexError).
Proof. vm_compute. eexists. reflexivity. Qed.

Lemma unlucky_sudoku_no_solution g : ¬ solution unlucky_sudoku g.
Proof.
  destruct (seed_valid unlucky_source 4000 unlucky_board 16 Standard
              unlucky_source_in_range unlucky_source_permutes unlucky_source_seeds)
    as (Hs & Hc & Hinv & Hrange).
  destruct unlucky_sudoku_crashes as [s' Hrun].
  destruct (solve_complete unlucky_sudoku 100 s' (Crashed IndexError)
              Hs Hc Hinv Hrange Hrun) as [[Hfin _]|[_ Hnone]];
    [discriminate | discriminate Hfin | apply Hnone].
Qed.

Lemma create_random_sudoku_outcome_witness :
  ∃ fuel, ∀ fuel', (fuel <= fuel')%nat ->
    create_random_sudoku fuel' unlucky_source 17 "standard" = Raises IndexError.
Proof.
  assert (Hcls : class_of_type "standard" = Ok Standard) by reflexivity.
  assert (Hhints : 8 <= 17 <= 81) by lia.
  destruct (create_random_sudoku_outcome unlucky_source 17 "standard" Standard
              4000 unlucky_board 16
              unlucky_source_in_range unlucky_source_permutes
              unlucky_source_seeds Hcls unlucky_source_fair Hhints)
    as [fuel [[[g Hsol] _]|[_ Hraise]]].
  - destruct (unlucky_sudoku_no_solution g Hsol).
  - exists fuel. exact Hraise.
Defined.

(** ** C8: the variant token and the grid it selects *)

Lemma diagonal_seed_solved :
  ∃ g, solve (50 * 1000) diagonal_seed_sudoku = (g, Finished).
Proof. vm_compute. eexists. reflexivity. Qed.

(** The seed board of [cycle_source] can be completed, with and without
    the diagonals. *)
Lemma cycle_source_seed_solution cls :
  ∃ g, solution (mkSudoku cls seed_board (np.nonzero seed_board)) g.
Proof.
  destruct (seed_valid cycle_source 4000 seed_board 16 cls
              cycle_source_in_range cycle_source_permutes cycle_source_seeds)
    as (Hs & Hc & Hinv & Hrange).
  destruct cls.
  - exists solved_seed_sudoku.
    destruct (solve_complete _ 4000 _ _ Hs Hc Hinv Hrange seed_sudoku_solved)
      as [[_ [Hsol _]]|[H _]]; [discriminate | exact Hsol | discriminate H].
  - destruct diagonal_seed_solved as [g Hrun]. exists g.
    destruct (solve_complete _ _ _ _ Hs Hc Hinv Hrange Hrun)
      as [[_ [Hsol _]]|[H _]]; [discriminate | exact Hsol | discriminate H].
Qed.

(** C8: [create_random_sudoku] fails with the [ValueError] of the type
    test iff the token is neither "standard" nor "diagonal" (the seeding,
    which comes first, having returned); a puzzle it returns is a [Sudoku]
    for "standard" and a [DiagonalSudoku] for "diagonal"; and with a random
    source that shuffles by permuting, draws in 0..8 and keeps drawing
    every grid position, and [hints] in 8..81, the call builds the grid of
    the selected class from the seed board and ends: it returns a puzzle of
    that class when the seed can be completed to a valid grid, and raises
    the solver's [IndexError] when it cannot. *)
Theorem create_random_sudoku_type rnd hints sudoku_type :
  (∀ fuel b k, _create_board fuel rnd = Some (Ok (b, k)) ->
     (create_random_sudoku fuel rnd hints sudoku_type = Raises ValueError <->
      sudoku_type ≠ "standard"%string /\ sudoku_type ≠ "diagonal"%string))
  /\ (∀ fuel puzzle,
        create_random_sudoku fuel rnd hints sudoku_type = Returns puzzle ->
        (sudoku_type = "standard"%string /\ class_of puzzle = Standard)
        \/ (sudoku_type = "diagonal"%string /\ class_of puzzle = Diagonal))
  /\ (draws_in_range rnd -> shuffle_permutes rnd -> fair rnd 0 ->
      8 <= hints <= 81 ->
      (sudoku_type = "standard"%string ->
       builds_grid rnd hints sudoku_type Standard)
      /\ (sudoku_type = "diagonal"%string ->
          builds_grid rnd hints sudoku_type Diagonal)).
Proof.
  split; [|split].
  - intros fuel b k Hseed. unfold create_random_sudoku. rewrite Hseed.
    destruct (class_of_type_spec sudoku_type)
      as [[-> Hc]|[[-> Hc]|(Hs & Hd & Hc)]]; rewrite Hc.
    + pose proof (maker_pipeline fuel rnd hints Standard b k) as Hp.
      split; [|by intros [? _]]. intros Hv. rewrite Hv in Hp. congruence.
    + pose proof (maker_pipeline fuel rnd hints Diagonal b k) as Hp.
      split; [|by intros [_ ?]]. intros Hv. rewrite Hv in Hp. congruence.
    + split; [auto|reflexivity].
  - intros fuel puzzle. unfold create_random_sudoku.
    destruct (_create_board fuel rnd) as [[[b k]|e]|]; [|discriminate..].
    destruct (class_of_type_spec sudoku_type)
      as [[-> Hc]|[[-> Hc]|(Hs & Hd & Hc)]]; rewrite Hc; [| |discriminate].
    + pose proof (maker_pipeline fuel rnd hints Standard b k) as Hp.
      intros Hr. rewrite Hr in Hp. left. auto.
    + pose proof (maker_pipeline fuel rnd hints Diagonal b k) as Hp.
      intros Hr. rewrite Hr in Hp. right. auto.
  - intros Hrnd Hperm Hfair Hhints.
    assert (Hbuild : ∀ cls, class_of_type sudoku_type = Ok cls ->
                            builds_grid rnd hints sudoku_type cls).
    { intros cls Hcls.
      assert (Hseeds : ∃ fuel b k, _create_board fuel rnd = Some (Ok (b, k))).
      { unfold _create_board.
        destruct (shuffled_numbers rnd Hperm) as (_ & Hall & Hlen).
        apply (create_board_loop_terminates rnd Hrnd);
          [reflexivity | exact Hall | | exact Hfair].
        rewrite Hlen. vm_compute. lia. }
      destruct Hseeds as (fuel0 & b & k & Hseed).
      assert (Hfair' : fair rnd k).
      { apply (create_board_loop_fair rnd fuel0 _ _ _ _ _ Hseed Hfair). }
      destruct (maker_outcome rnd hints sudoku_type cls fuel0 b k
                  Hrnd Hperm Hseed Hcls Hfair' Hhints)
        as (Hinit & fuel & Hle & Hcases).
      exists fuel, b, k. cbn zeta.
      split; [apply (create_board_more rnd fuel0 fuel _ Hseed Hle)|].
      split; [exact Hinit | exact Hcases]. }
    split; intros ->; apply Hbuild; reflexivity.
Qed.

Lemma create_random_sudoku_type_witness :
  create_random_sudoku 4000 cycle_source 79 "hexagonal" = Raises ValueError
  /\ (∃ fuel puzzle, class_of puzzle = Standard
        /\ ∀ fuel', (fuel <= fuel')%nat ->
             create_random_sudoku fuel' cycle_source 79 "standard" = Returns puzzle)
  /\ (∃ fuel puzzle, class_of puzzle = Diagonal
        /\ ∀ fuel', (fuel <= fuel')%nat ->
             create_random_sudoku fuel' cycle_source 79 "diagonal" = Returns puzzle).
Proof.
  assert (Hhints : 8 <= 79 <= 81) by lia.
  assert (Hret : ∀ token cls, builds_grid cycle_source 79 token cls ->
            ∃ fuel puzzle, class_of puzzle = cls
              /\ ∀ fuel', (fuel <= fuel')%nat ->
                   create_random_sudoku fuel' cycle_source 79 token = Returns puzzle).
  { intros token cls
      (fuel & b & k & Hseed & _ & [(_ & puzzle & Hcls & Hrun)|(Hnone & _)]).
    - by exists fuel, puzzle.
    - exfalso. assert (b = seed_board) as ->.
      { destruct (Nat.le_ge_cases fuel 4000) as [Hle|Hle].
        - pose proof (create_board_more _ _ _ _ Hseed Hle) as H.
          rewrite cycle_source_seeds in H. congruence.
        - pose proof (create_board_more _ _ _ _ cycle_source_seeds Hle) as H.
          rewrite Hseed in H. congruence. }
      destruct (cycle_source_seed_solution cls) as [g Hg]. apply (Hnone g Hg). }
  destruct (create_random_sudoku_type cycle_source 79 "hexagonal") as (Hiff & _).
  destruct (create_random_sudoku_type cycle_source 79 "standard") as (_ & _ & Hstd).
  destruct (create_random_sudoku_type cycle_source 79 "diagonal") as (_ & _ & Hdia).
  split; [apply (Hiff 4000%nat seed_board 16%nat cycle_source_seeds);
          split; discriminate|].
  split; apply Hret.
  - apply (proj1 (Hstd cycle_source_in_range cycle_source_permutes
                    cycle_source_fair_start Hhints)). reflexivity.
  - apply (proj2 (Hdia cycle_source_in_range cycle_source_permutes
                    cycle_source_fair_start Hhints)). reflexivity.
Defined.

(** ** Negative row indices that address a whole box *)

Lemma index_wrap n i :
  - Z.of_nat n <= i < 0 -> np.index n i = np.index n (i + Z.of_nat n).
Proof.
  intros Hi. unfold np.index.
  destruct (Z.leb_spec 0 i); [lia|].
  destruct (Z.leb_spec (- Z.of_nat n) i); [|lia].
  destruct (Z.ltb_spec i 0); [|lia].
  destruct (Z.leb_spec 0 (i + Z.of_nat n)); [|lia].
  destruct (Z.ltb_spec (i + Z.of_nat n) (Z.of_nat n)); [|lia].
  reflexivity.
Qed.

Lemma getitem_wrap {A} (a : list A) i :
  length a = 9%nat -> -9 <= i < 0 -> np.getitem a i = np.getitem a (i + 9).
Proof.
  intros Hlen Hi. unfold np.getitem. rewrite Hlen.
  by rewrite (index_wrap 9 i) by lia.
Qed.

Lemma setitem_wrap {A} (a : list A) i x :
  length a = 9%nat -> -9 <= i < 0 -> np.setitem a i x = np.setitem a (i + 9) x.
Proof.
  intros Hlen Hi. unfold np.setitem. rewrite Hlen.
  by rewrite (index_wrap 9 i) by lia.
Qed.

Lemma setitem2_wrap b i j v :
  length b = 9%nat -> -9 <= i < 0 ->
  np.setitem2 b i j v = np.setitem2 b (i + 9) j v.
Proof.
  intros Hlen Hi. unfold np.setitem2.
  rewrite (getitem_wrap b i Hlen Hi).
  destruct (np.getitem b (i + 9)) as [r|e]; step; [|reflexivity].
  destruct (np.setitem_int r j v) as [r'|e]; step; [|reflexivity].
  by apply setitem_wrap.
Qed.

Lemma clamp_wrap i : -9 <= i < 0 -> np.clamp 9 i = np.clamp 9 (i + 9).
Proof.
  intros Hi. unfold np.clamp.
  destruct (Z.ltb_spec i 0); [|lia].
  destruct (Z.ltb_spec (i + 9) 0); [lia|]. lia.
Qed.

Lemma slice_wrap {A} (a : list A) lo hi :
  length a = 9%nat -> -9 <= lo < 0 -> -9 <= hi < 0 ->
  np.slice a lo hi = np.slice a (lo + 9) (hi + 9).
Proof.
  intros Hlen Hlo Hhi. unfold np.slice. rewrite Hlen.
  by rewrite (clamp_wrap lo Hlo), (clamp_wrap hi Hhi).
Qed.

Lemma get_region_wrap s row column :
  length (board s) = 9%nat -> -9 <= row <= -4 ->
  _get_region s row column = _get_region s (row + 9) column.
Proof.
  intros Hlen Hrow. unfold _get_region, np.slice2. cbn zeta.
  assert (Hmod : (row + 9) `mod` 3 = row `mod` 3).
  { Z.to_euclidean_division_equations. lia. }
  rewrite Hmod.
  rewrite (slice_wrap (board s) (row - row `mod` 3) (row - row `mod` 3 + 3) Hlen);
    [|Z.to_euclidean_division_equations; lia..].
  do 2 f_equal; lia.
Qed.

(** X19: a row index in -9..-4 addresses the row nine further down, box
    included, but escapes the test for given cells, which compares the
    index pair as it stands: [write] acts at such an index as it would at
    the wrapped position of a grid without given cells, so it can
    overwrite a given cell. *)
Theorem write_negative_index s number row column :
  well_shaped s -> given_in_grid s -> -9 <= row <= -4 -> 0 <= column < 9 ->
  write s number row column
  = match write (without_given s) number (row + 9) column with
    | Ok (legal, s') =>
        Ok (legal, mkSudoku (class_of s') (board s') (given_numbers_indices s))
    | Raise e => Raise e
    end.
Proof.
  intros Hs Hg Hrow Hcol.
  assert (Hfree : is_given s row column = false).
  { apply not_given_outside; [exact Hg|]. unfold in_grid. lia. }
  assert (Hfree' : is_given (without_given s) (row + 9) column = false).
  { unfold is_given, without_given. cbn [given_numbers_indices].
    apply bool_decide_eq_false_2, not_elem_of_nil. }
  pose proof Hs as Hshape. apply shape_is_9x9_spec in Hs as [Hlen _].
  assert (Hmod : (row + 9) `mod` 3 = row `mod` 3).
  { Z.to_euclidean_division_equations. lia. }
  pose proof (get_region_wrap s row column Hlen Hrow) as Hregion.
  assert (Hregion' : _get_region (without_given s) (row + 9) column
                     = _get_region s (row + 9) column) by reflexivity.
  unfold write, _is_move_legal, Sudoku_is_move_legal, DiagonalSudoku_is_move_legal.
  rewrite Hfree, Hfree', Hregion', Hregion, Hmod.
  rewrite (setitem2_wrap (board s) row column number Hlen) by lia.
  destruct s as [cls b given]. unfold without_given.
  cbn [class_of board given_numbers_indices] in *.
  assert (Hrowcopy : ∀ bc, np.setitem2 b (row + 9) column number = Ok bc ->
                           np.getitem bc row = np.getitem bc (row + 9)).
  { intros bc Hbc. apply getitem_wrap; [|lia].
    apply (setitem2_shape _ _ _ _ _ Hbc) in Hshape.
    by apply shape_is_9x9_spec in Hshape as [? _]. }
  destruct (bool_decide (number = 0));
    [destruct cls; step;
     destruct (np.setitem2 b (row + 9) column number); reflexivity|].
  destruct (9 <? number); [by destruct cls|].
  destruct (np.setitem2 b (row + 9) column number) as [bc|e] eqn:Hbc;
    [|by destruct cls].
  pose proof (Hrowcopy bc eq_refl) as Hbrow.
  destruct cls; step;
    (destruct (np.setitem2 (_get_region _ _ _) _ _ number) as [region|e];
       step; [|reflexivity]);
    rewrite Hbrow;
    (destruct (np.getitem bc (row + 9)) as [brow|e]; step; [|reflexivity]);
    (destruct (1 <? np.count_eq number brow)%nat; [reflexivity|]);
    (destruct (np.column bc column) as [bcol|e]; step; [|reflexivity]);
    repeat (destruct (1 <? _)%nat; [reflexivity|]); reflexivity.
Qed.

Lemma write_negative_index_witness :
  ∃ s', write seed_sudoku 0 (-9) 0 = Ok (true, s')
        /\ np.getitem2 (board s') 0 0 = Ok 0
        /\ write seed_sudoku 0 0 0 = Ok (false, seed_sudoku).
Proof.
  assert (Hs : well_shaped seed_sudoku) by reflexivity.
  assert (Hg : given_in_grid seed_sudoku).
  { intros r c Hin. apply (nonzero_in_grid seed_board); [reflexivity|exact Hin]. }
  pose proof (write_negative_index seed_sudoku 0 (-9) 0 Hs Hg ltac:(lia) ltac:(lia))
    as Hwrite.
  eexists. split; [exact Hwrite|]. split; reflexivity.
Defined.

(** ** The two legality checks compared *)

(** X20: the check of [DiagonalSudoku] repeats the check of [Sudoku] and
    adds the two diagonal counts, so it is the stricter one: a move it
    accepts is accepted by the base check, a move the base check refuses
    is refused, and the two raise in the same cases. *)
Theorem diagonal_check_stricter s number row column :
  (DiagonalSudoku_is_move_legal s number row column = Ok true ->
   Sudoku_is_move_legal s number row column = Ok true)
  /\ (Sudoku_is_move_legal s number row column = Ok false ->
      DiagonalSudoku_is_move_legal s number row column = Ok false)
  /\ (∀ e, Sudoku_is_move_legal s number row column = Raise e <->
           DiagonalSudoku_is_move_legal s number row column = Raise e).
Proof.
  unfold Sudoku_is_move_legal, DiagonalSudoku_is_move_legal.
  destruct (is_given s row column); [by repeat split|].
  destruct (bool_decide (number = 0)); [by repeat split|].
  destruct (9 <? number); [by repeat split|].
  destruct (np.setitem2 (board s) row column number) as [bc|e0]; step;
    [|by repeat split].
  destruct (np.setitem2 (_get_region s row column) _ _ number) as [region|e0];
    step; [|by repeat split].
  destruct (np.getitem bc row) as [brow|e0]; step; [|by repeat split].
  destruct (1 <? np.count_eq number brow)%nat; [by repeat split|].
  destruct (np.column bc column) as [bcol|e0]; step; [|by repeat split].
  destruct (1 <? np.count_eq number bcol)%nat; [by repeat split|].
  destruct (1 <? np.count_eq2 number region)%nat; [by repeat split|].
  destruct (1 <? np.count_eq number (np.diagonal bc))%nat;
    [by repeat split|].
  destruct (1 <? np.count_eq number (np.diagonal (np.flipud bc)))%nat;
    by repeat split.
Qed.
